(** * PyCNL: the Namespace name tree and the generalized-object stream handler

    A shallow embedding of [pycnl/namespace.py] and of
    [pycnl/generalized_object/generalized_object_stream_handler.py].

    Python objects live in a store indexed by node identifiers, so that object
    identity, the [_parent] back references and the mutation performed by
    callbacks are explicit.  Loops whose termination depends on the shape of
    the store take a fuel argument; [None] means that the fuel ran out. *)

From stdpp Require Import prelude strings.
From Stdlib Require Import ZArith QArith Lia Ascii.

Local Open Scope Z_scope.

(** ** Names (pyndn.Name) *)

(** A name component is an opaque byte string. *)
Definition Component := string.

(** A name is the sequence of its components. *)
Definition Name := list Component.

Definition size (n : Name) : Z := Z.of_nat (length n).

(** [a.isPrefixOf(b)]: the components of [a] are the first components of [b]. *)
Fixpoint isPrefixOf (a b : Name) : bool :=
  match a, b with
  | [], _ => true
  | x :: a', y :: b' => if String.eqb x y then isPrefixOf a' b' else false
  | _ :: _, [] => false
  end.

(** [a.equals(b)] *)
Definition equals (a b : Name) : bool := bool_decide (a = b).

(** [Name(n).append(c)] *)
Definition append (n : Name) (c : Component) : Name := n ++ [c].

(** ** Data packets and Python outcomes *)

Definition Content := string.

Record Data := mkData {
  data_name : Name;
  data_content : Content
}.

Inductive Exn := RuntimeError | ValueError | KeyError | IndexError | AttributeError.

(** The result of a Python call: a value, or a raised exception. *)
Inductive Outcome (A : Type) :=
| Returns (a : A)
| Raises (e : Exn).
Arguments Returns {A} a.
Arguments Raises {A} e.

(** ** NamespaceState *)

Module NamespaceState.
Definition NAME_EXISTS : Z := 0.
Definition INTEREST_EXPRESSED : Z := 1.
Definition INTEREST_TIMEOUT : Z := 2.
Definition DATA_RECEIVED : Z := 3.
Definition DECRYPTING : Z := 4.
Definition DECRYPTION_ERROR : Z := 5.
Definition TRANSFORMING_CONTENT : Z := 6.
Definition CONTENT_READY : Z := 7.
Definition CONTENT_READY_BUT_STALE : Z := 8.
End NamespaceState.

(** ** Python dictionaries as association lists

    [_onStateChangedCallbacks] is iterated in key order of insertion, so a
    dictionary is an association list without duplicate keys: assignment
    replaces the value of a present key in place and appends an absent one. *)

Section Dict.
Context {K V : Type} `{EqDecision K}.

Fixpoint dict_get (d : list (K * V)) (k : K) : option V :=
  match d with
  | [] => None
  | (k', v) :: d' => if decide (k = k') then Some v else dict_get d' k
  end.

(** [d[k] = v] *)
Fixpoint dict_set (d : list (K * V)) (k : K) (v : V) : list (K * V) :=
  match d with
  | [] => [(k, v)]
  | (k', v') :: d' =>
      if decide (k = k') then (k, v) :: d' else (k', v') :: dict_set d' k v
  end.

(** [d.pop(k, None)] *)
Fixpoint dict_pop (d : list (K * V)) (k : K) : list (K * V) :=
  match d with
  | [] => []
  | (k', v') :: d' =>
      if decide (k = k') then d' else (k', v') :: dict_pop d' k
  end.

(** [list(d.keys())] *)
Definition dict_keys (d : list (K * V)) : list K := map fst d.

(** [k in d] *)
Definition dict_mem (d : list (K * V)) (k : K) : bool :=
  match dict_get d k with Some _ => true | None => false end.

End Dict.

(** ** The Namespace object *)

Definition NodeId := nat.

(** Function objects registered by the application are opaque handles; what
    they do when called is given by the environment (see [Section Tree]). *)
Definition Callback := nat.
Definition TransformContent := nat.
Definition Face := nat.

Record Namespace := mkNamespace {
  _name : Name;
  _parent : option NodeId;
  _children : list (Component * NodeId);
  _sortedChildrenKeys : list Component;
  _state : Z;
  _data : option Data;
  _content : option Content;
  _face : option Face;
  _onStateChangedCallbacks : list (Z * Callback);
  _transformContent : option TransformContent
}.

(** [Namespace.__init__(name)] *)
Definition Namespace_init (name : Name) : Namespace :=
  {| _name := name;
     _parent := None;
     _children := [];
     _sortedChildrenKeys := [];
     _state := NamespaceState.NAME_EXISTS;
     _data := None;
     _content := None;
     _face := None;
     _onStateChangedCallbacks := [];
     _transformContent := None |}.

(** The store: every Namespace object ever constructed, addressed by its
    identifier, and the class attribute [Namespace._lastCallbackId]. *)
Record Store := mkStore {
  nodes : list Namespace;
  _lastCallbackId : Z
}.

Definition node (st : Store) (ns : NodeId) : option Namespace := nodes st !! ns.

(** Field update of one object. *)
Definition update (st : Store) (ns : NodeId) (f : Namespace -> Namespace) : Store :=
  {| nodes := alter f ns (nodes st); _lastCallbackId := _lastCallbackId st |}.

(** Construction of a fresh object. *)
Definition alloc (st : Store) (n : Namespace) : NodeId * Store :=
  (length (nodes st),
   {| nodes := nodes st ++ [n]; _lastCallbackId := _lastCallbackId st |}).

Definition set_parent (p : option NodeId) (n : Namespace) : Namespace :=
  {| _name := _name n; _parent := p; _children := _children n;
     _sortedChildrenKeys := _sortedChildrenKeys n; _state := _state n;
     _data := _data n; _content := _content n; _face := _face n;
     _onStateChangedCallbacks := _onStateChangedCallbacks n;
     _transformContent := _transformContent n |}.

Definition set_children (c : list (Component * NodeId)) (k : list Component)
    (n : Namespace) : Namespace :=
  {| _name := _name n; _parent := _parent n; _children := c;
     _sortedChildrenKeys := k; _state := _state n;
     _data := _data n; _content := _content n; _face := _face n;
     _onStateChangedCallbacks := _onStateChangedCallbacks n;
     _transformContent := _transformContent n |}.

Definition set_state (s : Z) (n : Namespace) : Namespace :=
  {| _name := _name n; _parent := _parent n; _children := _children n;
     _sortedChildrenKeys := _sortedChildrenKeys n; _state := s;
     _data := _data n; _content := _content n; _face := _face n;
     _onStateChangedCallbacks := _onStateChangedCallbacks n;
     _transformContent := _transformContent n |}.

Definition set_data (d : option Data) (n : Namespace) : Namespace :=
  {| _name := _name n; _parent := _parent n; _children := _children n;
     _sortedChildrenKeys := _sortedChildrenKeys n; _state := _state n;
     _data := d; _content := _content n; _face := _face n;
     _onStateChangedCallbacks := _onStateChangedCallbacks n;
     _transformContent := _transformContent n |}.

Definition set_content (c : option Content) (n : Namespace) : Namespace :=
  {| _name := _name n; _parent := _parent n; _children := _children n;
     _sortedChildrenKeys := _sortedChildrenKeys n; _state := _state n;
     _data := _data n; _content := c; _face := _face n;
     _onStateChangedCallbacks := _onStateChangedCallbacks n;
     _transformContent := _transformContent n |}.

Definition set_callbacks (c : list (Z * Callback)) (n : Namespace) : Namespace :=
  {| _name := _name n; _parent := _parent n; _children := _children n;
     _sortedChildrenKeys := _sortedChildrenKeys n; _state := _state n;
     _data := _data n; _content := _content n; _face := _face n;
     _onStateChangedCallbacks := c;
     _transformContent := _transformContent n |}.

(** Dereference an object reference.  Python references never dangle; the
    default is only there to keep the accessors total. *)
Definition get (st : Store) (ns : NodeId) : Namespace :=
  default (Namespace_init []) (node st ns).

(** What a call leaves behind for an observer of the program: the writes to
    [_state], the calls of state-change callbacks with their four arguments,
    and the exceptions logged by [logging.exception]. *)
Inductive Event :=
| EvSetState (ns : NodeId) (state : Z)
| EvCallback (ns changed : NodeId) (state : Z) (id : Z)
| EvLogException (ns : NodeId) (id : Z).

(** The outcome of calling the content-transform hook
    [transformContent(data, self._onContentTransformed)]. *)
Inductive TransformResult :=
| CallsBackNow (content : Content)
| Defers
| TransformRaises (e : Exn).

Record Interest := mkInterest {
  interest_name : Name
}.

Inductive NameOrComponent :=
| IsName (n : Name)
| IsComponent (c : Component).

(** ** Operations of [Namespace] *)

Section Tree.

(** The environment: what a registered callback does to the store when it is
    called with [(namespace, changedNamespace, state, callbackId)] and whether
    it raises; what the transform hook does; [interest.matchesData]; and the
    order [<] of [Name.Component]. *)
Variable call : Callback -> NodeId -> NodeId -> Z -> Z -> Store -> Store * bool.
Variable transform : TransformContent -> Data -> TransformResult.
Variable matchesData : Interest -> Data -> bool.
Variable component_lt : Component -> Component -> bool.

(** [getParent] *)
Definition getParent (st : Store) (ns : NodeId) : option NodeId :=
  _parent (get st ns).

(** [getRoot]: [while result._parent: result = result._parent] *)
Fixpoint getRoot (fuel : nat) (st : Store) (result : NodeId) : option NodeId :=
  match fuel with
  | O => None
  | S fuel' =>
      match _parent (get st result) with
      | Some p => getRoot fuel' st p
      | None => Some result
      end
  end.

(** [hasChild] *)
Definition hasChild (st : Store) (ns : NodeId) (component : Component) : bool :=
  dict_mem (_children (get st ns)) component.

(** [getChildComponents]: a fresh copy of the sorted keys. *)
Definition getChildComponents (st : Store) (ns : NodeId) : list Component :=
  _sortedChildrenKeys (get st ns).

(** [Namespace.getNextCallbackId] *)
Definition getNextCallbackId (st : Store) : Z * Store :=
  (_lastCallbackId st + 1,
   {| nodes := nodes st; _lastCallbackId := _lastCallbackId st + 1 |}).

(** [addOnStateChanged] *)
Definition addOnStateChanged (self : NodeId) (onStateChanged : Callback)
    (st : Store) : Z * Store :=
  let '(callbackId, st1) := getNextCallbackId st in
  (callbackId,
   update st1 self (fun n =>
     set_callbacks (dict_set (_onStateChangedCallbacks n) callbackId onStateChanged) n)).

(** [removeCallback] *)
Definition removeCallback (self : NodeId) (callbackId : Z) (st : Store) : Store :=
  update st self (fun n =>
    set_callbacks (dict_pop (_onStateChangedCallbacks n) callbackId) n).

(** The loop of [_fireOnStateChanged] over the copied key list [ids]. *)
Fixpoint fire_ids (ids : list Z) (self changedNamespace : NodeId) (state : Z)
    (st : Store) : Store * list Event :=
  match ids with
  | [] => (st, [])
  | id :: ids' =>
      match dict_get (_onStateChangedCallbacks (get st self)) id with
      | Some f =>
          let '(st1, raised) := call f self changedNamespace state id st in
          let '(st2, t) := fire_ids ids' self changedNamespace state st1 in
          (st2, EvCallback self changedNamespace state id
                  :: (if raised then [EvLogException self id] else []) ++ t)
      | None => fire_ids ids' self changedNamespace state st
      end
  end.

(** [_fireOnStateChanged] *)
Definition _fireOnStateChanged (self changedNamespace : NodeId) (state : Z)
    (st : Store) : Store * list Event :=
  fire_ids (dict_keys (_onStateChangedCallbacks (get st self)))
    self changedNamespace state st.

(** The loop of [_setState]:
    [while namespace != None: namespace._fireOnStateChanged(self, state);
     namespace = namespace._parent]. *)
Fixpoint fire_up (fuel : nat) (namespace : option NodeId) (self : NodeId)
    (state : Z) (st : Store) : option (Store * list Event) :=
  match namespace with
  | None => Some (st, [])
  | Some ns =>
      match fuel with
      | O => None
      | S fuel' =>
          let '(st1, t1) := _fireOnStateChanged ns self state st in
          match fire_up fuel' (_parent (get st1 ns)) self state st1 with
          | Some (st2, t2) => Some (st2, t1 ++ t2)
          | None => None
          end
      end
  end.

(** [_setState] *)
Definition _setState (fuel : nat) (self : NodeId) (state : Z) (st : Store)
    : option (Store * list Event) :=
  let st0 := update st self (set_state state) in
  match fire_up fuel (Some self) self state st0 with
  | Some (st1, t) => Some (st1, EvSetState self state :: t)
  | None => None
  end.

(** [bisect.bisect_right(a, x)]: binary search between [lo] and [hi]. *)
Fixpoint bisect_right (fuel : nat) (a : list Component) (x : Component)
    (lo hi : nat) : nat :=
  match fuel with
  | O => lo
  | S fuel' =>
      if (lo <? hi)%nat then
        let mid := ((lo + hi) `div` 2)%nat in
        match a !! mid with
        | Some y =>
            if component_lt x y then bisect_right fuel' a x lo mid
            else bisect_right fuel' a x (S mid) hi
        | None => lo
        end
      else lo
  end.

(** [bisect.insort(a, x)] *)
Definition insort (a : list Component) (x : Component) : list Component :=
  let i := bisect_right (S (length a)) a x 0 (length a) in
  take i a ++ x :: drop i a.

(** [_createChild] *)
Definition _createChild (fuel : nat) (self : NodeId) (component : Component)
    (fireCallbacks : bool) (st : Store) : option (NodeId * Store * list Event) :=
  let '(child, st1) :=
    alloc st (set_parent (Some self)
                (Namespace_init (append (_name (get st self)) component))) in
  let st2 := update st1 self (fun n =>
    set_children (dict_set (_children n) component child)
                 (insort (_sortedChildrenKeys n) component) n) in
  if fireCallbacks then
    match _setState fuel self NamespaceState.NAME_EXISTS st2 with
    | Some (st3, t) => Some (child, st3, t)
    | None => None
    end
  else Some (child, st2, []).

(** The [while] loop of [getChild] for a descendant name. *)
Fixpoint getChild_loop (fuel : nat) (descendantNamespace : NodeId)
    (descendantName : Name) (st : Store)
    : option (Outcome NodeId * Store * list Event) :=
  match fuel with
  | O => None
  | S fuel' =>
      let n := _name (get st descendantNamespace) in
      if size n <? size descendantName then
        match descendantName !! length n with
        | None => Some (Raises IndexError, st, [])
        | Some nextComponent =>
            match dict_get (_children (get st descendantNamespace)) nextComponent with
            | Some child => getChild_loop fuel' child descendantName st
            | None =>
                let isLeaf := size n =? size descendantName - 1 in
                match _createChild fuel' descendantNamespace nextComponent isLeaf st with
                | Some (child, st1, t1) =>
                    match getChild_loop fuel' child descendantName st1 with
                    | Some (r, st2, t2) => Some (r, st2, t1 ++ t2)
                    | None => None
                    end
                | None => None
                end
            end
        end
      else Some (Returns descendantNamespace, st, [])
  end.

(** [getChild] *)
Definition getChild (fuel : nat) (self : NodeId) (nameOrComponent : NameOrComponent)
    (st : Store) : option (Outcome NodeId * Store * list Event) :=
  match nameOrComponent with
  | IsName descendantName =>
      if negb (isPrefixOf (_name (get st self)) descendantName) then
        Some (Raises RuntimeError, st, [])
      else getChild_loop fuel self descendantName st
  | IsComponent component =>
      match dict_get (_children (get st self)) component with
      | Some child => Some (Returns child, st, [])
      | None =>
          match _createChild fuel self component true st with
          | Some (child, st1, t) => Some (Returns child, st1, t)
          | None => None
          end
      end
  end.

(** [_getTransformContent]: the hook of the nearest node that has one. *)
Fixpoint _getTransformContent (fuel : nat) (st : Store) (namespace : option NodeId)
    : option (option TransformContent) :=
  match namespace with
  | None => Some None
  | Some ns =>
      match fuel with
      | O => None
      | S fuel' =>
          match _transformContent (get st ns) with
          | Some f => Some (Some f)
          | None => _getTransformContent fuel' st (_parent (get st ns))
          end
      end
  end.

(** [_getFace] *)
Fixpoint _getFace (fuel : nat) (st : Store) (namespace : option NodeId)
    : option (option Face) :=
  match namespace with
  | None => Some None
  | Some ns =>
      match fuel with
      | O => None
      | S fuel' =>
          match _face (get st ns) with
          | Some f => Some (Some f)
          | None => _getFace fuel' st (_parent (get st ns))
          end
      end
  end.

(** [_onContentTransformed] *)
Definition _onContentTransformed (fuel : nat) (self : NodeId) (content : Content)
    (st : Store) : option (Store * list Event) :=
  _setState fuel self NamespaceState.CONTENT_READY
    (update st self (set_content (Some content))).

(** [setData] *)
Definition setData (fuel : nat) (self : NodeId) (data : Data) (st : Store)
    : option (Outcome unit * Store * list Event) :=
  if bool_decide (_data (get st self) <> None) then
    Some (Returns tt, st, [])
  else if negb (equals (data_name data) (_name (get st self))) then
    Some (Raises RuntimeError, st, [])
  else
    let st1 := update st self (set_data (Some data)) in
    match _setState fuel self NamespaceState.DATA_RECEIVED st1 with
    | None => None
    | Some (st2, t1) =>
        match _getTransformContent fuel st2 (Some self) with
        | None => None
        | Some (Some transformContent) =>
            match transform transformContent data with
            | CallsBackNow content =>
                match _onContentTransformed fuel self content st2 with
                | Some (st3, t2) => Some (Returns tt, st3, t1 ++ t2)
                | None => None
                end
            | Defers => Some (Returns tt, st2, t1)
            | TransformRaises e => Some (Raises e, st2, t1)
            end
        | Some None =>
            match _onContentTransformed fuel self (data_content data) st2 with
            | Some (st3, t2) => Some (Returns tt, st3, t1 ++ t2)
            | None => None
            end
        end
    end.

(** The loop of [_findBestMatchName] over the children, last key first:
    [keys] is the part of [_sortedChildrenKeys] still to visit, in visiting
    order, and [find] searches one child. *)
Fixpoint best_of_children (find : NodeId -> option (Outcome (option Name)))
    (children : list (Component * NodeId)) (keys : list Component)
    (bestMatch : option Name) : option (Outcome (option Name)) :=
  match keys with
  | [] => Some (Returns bestMatch)
  | key :: keys' =>
      match dict_get children key with
      | None => Some (Raises KeyError)
      | Some child =>
          match find child with
          | None => None
          | Some (Raises e) => Some (Raises e)
          | Some (Returns childBestMatch) =>
              best_of_children find children keys'
                match childBestMatch, bestMatch with
                | Some c, None => Some c
                | Some c, Some b => if size c >=? size b then Some c else Some b
                | None, _ => bestMatch
                end
          end
      end
  end.

(** [Namespace._findBestMatchName] *)
Fixpoint _findBestMatchName (fuel : nat) (st : Store) (namespace : NodeId)
    (interest : Interest) : option (Outcome (option Name)) :=
  match fuel with
  | O => None
  | S fuel' =>
      let n := get st namespace in
      match best_of_children (fun child => _findBestMatchName fuel' st child interest)
              (_children n) (rev (_sortedChildrenKeys n)) None with
      | None => None
      | Some (Raises e) => Some (Raises e)
      | Some (Returns (Some bestMatch)) => Some (Returns (Some bestMatch))
      | Some (Returns None) =>
          match _data n with
          | Some d =>
              if matchesData interest d then Some (Returns (Some (_name n)))
              else Some (Returns None)
          | None => Some (Returns None)
          end
      end
  end.

(** The key [key] of a node leads to a child below which the search with
    [fuel] returns [r]. *)
Definition child_result (fuel : nat) (st : Store) (interest : Interest)
    (N : Namespace) (key : Component) (r : option Name) : Prop :=
  exists child, dict_get (_children N) key = Some child /\
    _findBestMatchName fuel st child interest = Some (Returns r).

(** The match of the node itself. *)
Definition own_match (interest : Interest) (N : Namespace) : option Name :=
  match _data N with
  | Some d => if matchesData interest d then Some (_name N) else None
  | None => None
  end.

End Tree.

(** ** Operations of [Namespace] that use a Face

    What is asked of a Face is recorded, not performed: the registration of
    a prefix, an interest to express, a Data packet to send. *)

Record InterestTemplate := mkInterestTemplate {
  interestLifetimeMilliseconds : Z
}.

Inductive FaceCall :=
(** [face.registerPrefix(self._name, self._onInterest, onRegisterFailed, onRegisterSuccess)] *)
| RegisterPrefix (f : Face) (prefix : Name)
(** [face.expressInterest(self._name, interestTemplate, onData, onTimeout)] *)
| ExpressInterest (f : Face) (name : Name) (interestTemplate : InterestTemplate)
(** [face.putData(data)] *)
| PutData (f : Face) (data : option Data).

Definition set_face (f : option Face) (n : Namespace) : Namespace :=
  {| _name := _name n; _parent := _parent n; _children := _children n;
     _sortedChildrenKeys := _sortedChildrenKeys n; _state := _state n;
     _data := _data n; _content := _content n; _face := f;
     _onStateChangedCallbacks := _onStateChangedCallbacks n;
     _transformContent := _transformContent n |}.

Section TreeFace.
Variable call : Callback -> NodeId -> NodeId -> Z -> Z -> Store -> Store * bool.
Variable transform : TransformContent -> Data -> TransformResult.
Variable matchesData : Interest -> Data -> bool.
Variable component_lt : Component -> Component -> bool.
(** [component.isImplicitSha256Digest()] of pyndn *)
Variable isImplicitSha256Digest : Component -> bool.

(** [getName], [getState], [getData], [getContent] *)
Definition getName (st : Store) (ns : NodeId) : Name := _name (get st ns).
Definition getState (st : Store) (ns : NodeId) : Z := _state (get st ns).
Definition getData (st : Store) (ns : NodeId) : option Data := _data (get st ns).
Definition getContent (st : Store) (ns : NodeId) : option Content :=
  _content (get st ns).

(** [setFace]: [onRegisterFailed] is given or not. *)
Definition setFace (self : NodeId) (face : Face) (onRegisterFailed : bool)
    (st : Store) : Store * list FaceCall :=
  let st1 := update st self (set_face (Some face)) in
  if onRegisterFailed then (st1, [RegisterPrefix face (_name (get st1 self))])
  else (st1, []).

(** [expressInterest] *)
Definition expressInterest (fuel : nat) (self : NodeId)
    (interestTemplate : option InterestTemplate) (st : Store)
    : option (Outcome unit * list FaceCall) :=
  match _getFace fuel st (Some self) with
  | None => None
  | Some None => Some (Raises ValueError, [])
  | Some (Some face) =>
      let interestTemplate :=
        match interestTemplate with
        | Some t => t
        | None => {| interestLifetimeMilliseconds := 4000 |}
        end in
      Some (Returns tt, [ExpressInterest face (_name (get st self)) interestTemplate])
  end.

(** The function [onData] of [expressInterest]:
    [self[data.name].setData(data)]. *)
Definition onData (fuel : nat) (self : NodeId) (data : Data) (st : Store)
    : option (Outcome unit * Store * list Event) :=
  match getChild call component_lt fuel self (IsName (data_name data)) st with
  | None => None
  | Some (Raises e, st1, t1) => Some (Raises e, st1, t1)
  | Some (Returns d, st1, t1) =>
      match setData call transform fuel d data st1 with
      | Some (r, st2, t2) => Some (r, st2, t1 ++ t2)
      | None => None
      end
  end.

(** [_onInterest] *)
Definition _onInterest (fuel : nat) (self : NodeId) (interest : Interest)
    (face : Face) (st : Store)
    : option (Outcome unit * Store * list Event * list FaceCall) :=
  let interestName := interest_name interest in
  let interestName :=
    if (size interestName >=? 1)
       && match last interestName with
          | Some c => isImplicitSha256Digest c
          | None => false
          end
    then removelast interestName   (* Strip the implicit digest. *)
    else interestName in
  if negb (isPrefixOf (_name (get st self)) interestName) then
    (* No match. *)
    Some (Returns tt, st, [], [])
  else
    match getChild call component_lt fuel self (IsName interestName) st with
    | None => None
    | Some (Raises e, st1, t1) => Some (Raises e, st1, t1, [])
    | Some (Returns found, st1, t1) =>
        match _findBestMatchName matchesData fuel st1 found interest with
        | None => None
        | Some (Raises e) => Some (Raises e, st1, t1, [])
        | Some (Returns None) => Some (Returns tt, st1, t1, [])
        | Some (Returns (Some bestMatch)) =>
            match getChild call component_lt fuel self (IsName bestMatch) st1 with
            | None => None
            | Some (Raises e, st2, t2) => Some (Raises e, st2, t1 ++ t2, [])
            | Some (Returns matched, st2, t2) =>
                Some (Returns tt, st2, t1 ++ t2,
                      [PutData face (_data (get st2 matched))])
            end
        end
    end.

End TreeFace.

(** ** GeneralizedObjectStreamHandler

    The handler works on the subtree below the node it is attached to.  Within
    one tree a node is determined by its name, so the handler's view of the
    tree is a dictionary from names to what the handler reads from a node; a
    name that is not in the dictionary reads as a node that [getChild] has
    just created. *)

Definition Obj := string.

(** Modelled from the spec: the attributes [state], [data] and [obj] of a
    node as the handler reads them ([obj] is not part of [namespace.py] as
    given). *)
Record NodeView := mkNodeView {
  (** [node.state] *)
  nv_state : Z;
  (** [node.data]: whether a Data packet is attached, with the freshness
      period of its MetaInfo *)
  nv_data : option (option Q);
  (** [node.obj] *)
  nv_obj : option Obj
}.

Definition new_node : NodeView :=
  {| nv_state := NamespaceState.NAME_EXISTS; nv_data := None; nv_obj := None |}.

Record World := mkWorld {
  tree : list (Name * NodeView);
  (** the result of [_getFace()] on the nodes of the handler *)
  face : option Face
}.

Definition view (w : World) (n : Name) : NodeView :=
  default new_node (dict_get (tree w) n).

(** What the handler asks of its collaborators. *)
Inductive Effect :=
(** [logging.getLogger(__name__).info(...)] *)
| LogInfo
(** [logging.exception(...)] *)
| LogException
(** [face.callLater(delay, lambda: target.objectNeeded(True))] *)
| CallLater (f : Face) (delay : option Q) (target : Name)
(** [target.objectNeeded(mustBeFresh)] *)
| ObjectNeeded (target : Name) (mustBeFresh : bool)
(** [GeneralizedObjectHandler(target, self._makeOnGeneralizedObject(sequenceNumber))] *)
| AttachObjectHandler (target : Name) (sequenceNumber : Z)
(** [self._generalizedObjectHandler.setObject(target, obj, contentType, other)] *)
| PublishObject (target : Name) (obj : Obj) (contentType : string) (other : option Obj)
(** [self._onSequencedGeneralizedObject(sequenceNumber, contentMetaInfo, objectNamespace)] *)
| Report (sequenceNumber : Z).

Record Handler := mkHandler {
  namespace : option Name;
  _pipelineSize : Z;
  _onSequencedGeneralizedObject : option Callback;
  _latestNamespace : option Name;
  _producedSequenceNumber : Z;
  _latestPacketFreshnessPeriod : option Q;
  _nRequestedSequenceNumbers : Z;
  _maxRequestedSequenceNumber : Z;
  _nReportedSequenceNumbers : Z;
  _maxReportedSequenceNumber : Z
}.

Definition NAME_COMPONENT_LATEST : Component := "_latest"%string.

Definition set_pipelineSize (v : Z) (h : Handler) : Handler :=
  {| namespace := namespace h; _pipelineSize := v;
     _onSequencedGeneralizedObject := _onSequencedGeneralizedObject h;
     _latestNamespace := _latestNamespace h;
     _producedSequenceNumber := _producedSequenceNumber h;
     _latestPacketFreshnessPeriod := _latestPacketFreshnessPeriod h;
     _nRequestedSequenceNumbers := _nRequestedSequenceNumbers h;
     _maxRequestedSequenceNumber := _maxRequestedSequenceNumber h;
     _nReportedSequenceNumbers := _nReportedSequenceNumbers h;
     _maxReportedSequenceNumber := _maxReportedSequenceNumber h |}.

Definition set_producedSequenceNumber (v : Z) (h : Handler) : Handler :=
  {| namespace := namespace h; _pipelineSize := _pipelineSize h;
     _onSequencedGeneralizedObject := _onSequencedGeneralizedObject h;
     _latestNamespace := _latestNamespace h;
     _producedSequenceNumber := v;
     _latestPacketFreshnessPeriod := _latestPacketFreshnessPeriod h;
     _nRequestedSequenceNumbers := _nRequestedSequenceNumbers h;
     _maxRequestedSequenceNumber := _maxRequestedSequenceNumber h;
     _nReportedSequenceNumbers := _nReportedSequenceNumbers h;
     _maxReportedSequenceNumber := _maxReportedSequenceNumber h |}.

Definition set_namespace (ns latest : option Name) (h : Handler) : Handler :=
  {| namespace := ns; _pipelineSize := _pipelineSize h;
     _onSequencedGeneralizedObject := _onSequencedGeneralizedObject h;
     _latestNamespace := latest;
     _producedSequenceNumber := _producedSequenceNumber h;
     _latestPacketFreshnessPeriod := _latestPacketFreshnessPeriod h;
     _nRequestedSequenceNumbers := _nRequestedSequenceNumbers h;
     _maxRequestedSequenceNumber := _maxRequestedSequenceNumber h;
     _nReportedSequenceNumbers := _nReportedSequenceNumbers h;
     _maxReportedSequenceNumber := _maxReportedSequenceNumber h |}.

Definition set_nRequested (v : Z) (h : Handler) : Handler :=
  {| namespace := namespace h; _pipelineSize := _pipelineSize h;
     _onSequencedGeneralizedObject := _onSequencedGeneralizedObject h;
     _latestNamespace := _latestNamespace h;
     _producedSequenceNumber := _producedSequenceNumber h;
     _latestPacketFreshnessPeriod := _latestPacketFreshnessPeriod h;
     _nRequestedSequenceNumbers := v;
     _maxRequestedSequenceNumber := _maxRequestedSequenceNumber h;
     _nReportedSequenceNumbers := _nReportedSequenceNumbers h;
     _maxReportedSequenceNumber := _maxReportedSequenceNumber h |}.

Definition set_maxRequested (v : Z) (h : Handler) : Handler :=
  {| namespace := namespace h; _pipelineSize := _pipelineSize h;
     _onSequencedGeneralizedObject := _onSequencedGeneralizedObject h;
     _latestNamespace := _latestNamespace h;
     _producedSequenceNumber := _producedSequenceNumber h;
     _latestPacketFreshnessPeriod := _latestPacketFreshnessPeriod h;
     _nRequestedSequenceNumbers := _nRequestedSequenceNumbers h;
     _maxRequestedSequenceNumber := v;
     _nReportedSequenceNumbers := _nReportedSequenceNumbers h;
     _maxReportedSequenceNumber := _maxReportedSequenceNumber h |}.

Definition set_nReported (v : Z) (h : Handler) : Handler :=
  {| namespace := namespace h; _pipelineSize := _pipelineSize h;
     _onSequencedGeneralizedObject := _onSequencedGeneralizedObject h;
     _latestNamespace := _latestNamespace h;
     _producedSequenceNumber := _producedSequenceNumber h;
     _latestPacketFreshnessPeriod := _latestPacketFreshnessPeriod h;
     _nRequestedSequenceNumbers := _nRequestedSequenceNumbers h;
     _maxRequestedSequenceNumber := _maxRequestedSequenceNumber h;
     _nReportedSequenceNumbers := v;
     _maxReportedSequenceNumber := _maxReportedSequenceNumber h |}.

Definition set_maxReported (v : Z) (h : Handler) : Handler :=
  {| namespace := namespace h; _pipelineSize := _pipelineSize h;
     _onSequencedGeneralizedObject := _onSequencedGeneralizedObject h;
     _latestNamespace := _latestNamespace h;
     _producedSequenceNumber := _producedSequenceNumber h;
     _latestPacketFreshnessPeriod := _latestPacketFreshnessPeriod h;
     _nRequestedSequenceNumbers := _nRequestedSequenceNumbers h;
     _maxRequestedSequenceNumber := _maxRequestedSequenceNumber h;
     _nReportedSequenceNumbers := _nReportedSequenceNumbers h;
     _maxReportedSequenceNumber := v |}.

(** Modelled from the spec: [Namespace.objectNeeded] is not part of
    [namespace.py] as given.  Issuing the fetch returns at once and leaves the
    node in flight, that is in state [INTEREST_EXPRESSED]; the completion
    arrives later as an event of its own. *)
Definition objectNeeded (n : Name) (w : World) : World :=
  {| tree := dict_set (tree w) n
       {| nv_state := NamespaceState.INTEREST_EXPRESSED;
          nv_data := nv_data (view w n); nv_obj := nv_obj (view w n) |};
     face := face w |}.

Section Stream.

(** Constants and library functions that the handler uses and that are not
    in the given sources: two states of [NamespaceState], the component
    [GeneralizedObjectHandler.NAME_COMPONENT_META], the typed components of
    pyndn, the decoder of a DelegationSet (the names of its entries in order,
    or an exception), and whether the application's callback raises. *)
Variable INTEREST_NETWORK_NACK : Z.
Variable OBJECT_READY : Z.
Variable NAME_COMPONENT_META : Component.
Variable fromSequenceNumber : Z -> Component.
Variable isSequenceNumber : Component -> bool.
Variable toSequenceNumber : Component -> Z.
Variable isVersion : Component -> bool.
Variable wireDecode : Obj -> Outcome (list Name).
Variable report_raises : Callback -> Z -> bool.

(** [GeneralizedObjectStreamHandler.__init__] without a namespace. *)
Definition Handler_init (pipelineSize : Z) (onSequencedGeneralizedObject : option Callback)
    : Handler :=
  {| namespace := None;
     _pipelineSize := if pipelineSize <? 0 then 0 else pipelineSize;
     _onSequencedGeneralizedObject := onSequencedGeneralizedObject;
     _latestNamespace := None;
     _producedSequenceNumber := -1;
     _latestPacketFreshnessPeriod := Some (1000 # 1)%Q;
     _nRequestedSequenceNumbers := 0;
     _maxRequestedSequenceNumber := -1;
     _nReportedSequenceNumbers := 0;
     _maxReportedSequenceNumber := -1 |}.

(** Modelled from the spec: [Namespace.Handler.setNamespace] is not part of
    the given sources.  It attaches the handler to the node and runs
    [_onNamespaceSet]:
    [self._latestNamespace = self.namespace[self.NAME_COMPONENT_LATEST]]. *)
Definition setNamespace (ns : Name) (h : Handler) : Handler :=
  set_namespace (Some ns) (Some (append ns NAME_COMPONENT_LATEST)) h.

(** [setObject].  [Name.Component.fromSequenceNumber] of pyndn encodes a
    non-negative integer and raises ValueError for a negative one, after the
    assignment to [_producedSequenceNumber]; the parameter
    [fromSequenceNumber] is its value on the non-negative numbers. *)
Definition setObject (sequenceNumber : Z) (obj : Obj) (contentType : string)
    (other : option Obj) (h : Handler) : Outcome unit * Handler * list Effect :=
  match namespace h with
  | None => (Raises RuntimeError, h, [])
  | Some ns =>
      let h1 := set_producedSequenceNumber sequenceNumber h in
      if _producedSequenceNumber h1 <? 0 then (Raises ValueError, h1, [])
      else
        let sequenceNamespace :=
          append ns (fromSequenceNumber (_producedSequenceNumber h1)) in
        (Returns tt, h1, [PublishObject sequenceNamespace obj contentType other])
  end.

(** [getProducedSequenceNumber] *)
Definition getProducedSequenceNumber (h : Handler) : Z := _producedSequenceNumber h.

(** [addObject] *)
Definition addObject (obj : Obj) (contentType : string) (other : option Obj)
    (h : Handler) : Outcome unit * Handler * list Effect :=
  setObject (getProducedSequenceNumber h + 1) obj contentType other h.

(** [getPipelineSize] *)
Definition getPipelineSize (h : Handler) : Z := _pipelineSize h.

(** [setPipelineSize] *)
Definition setPipelineSize (pipelineSize : Z) (h : Handler) : Outcome unit * Handler :=
  let pipelineSize := if pipelineSize <? 0 then 0 else pipelineSize in
  if (pipelineSize =? 0) && (_pipelineSize h >? 0) then (Raises RuntimeError, h)
  else if (pipelineSize >? 0) && (_pipelineSize h =? 0) then (Raises RuntimeError, h)
  else (Returns tt, set_pipelineSize pipelineSize h).

(** The [while] loop of [_requestNewSequenceNumbers]. *)
Fixpoint request_loop (fuel : nat) (ns : Name) (nOutstandingSequenceNumbers : Z)
    (sequenceNumber : Z) (h : Handler) (w : World)
    : option (Handler * World * list Effect) :=
  if nOutstandingSequenceNumbers <? _pipelineSize h then
    match fuel with
    | O => None
    | S fuel' =>
        let sequenceNumber := sequenceNumber + 1 in
        let sequenceNamespace := append ns (fromSequenceNumber sequenceNumber) in
        let sequenceMeta := append sequenceNamespace NAME_COMPONENT_META in
        if bool_decide (nv_data (view w sequenceMeta) <> None)
           || (nv_state (view w sequenceMeta) >=? NamespaceState.INTEREST_EXPRESSED)
        then request_loop fuel' ns nOutstandingSequenceNumbers sequenceNumber h w
        else
          let h1 := set_nRequested (_nRequestedSequenceNumbers h + 1) h in
          let h2 := if sequenceNumber >? _maxRequestedSequenceNumber h1
                    then set_maxRequested sequenceNumber h1 else h1 in
          match request_loop fuel' ns (nOutstandingSequenceNumbers + 1)
                  sequenceNumber h2 (objectNeeded sequenceMeta w) with
          | Some (h3, w3, e) =>
              Some (h3, w3,
                    AttachObjectHandler sequenceNamespace sequenceNumber
                      :: ObjectNeeded sequenceMeta false :: e)
          | None => None
          end
    end
  else Some (h, w, []).

(** [_requestNewSequenceNumbers] *)
Definition _requestNewSequenceNumbers (fuel : nat) (h : Handler) (w : World)
    : option (Outcome unit * Handler * World * list Effect) :=
  match namespace h with
  | None =>
      if _nRequestedSequenceNumbers h - _nReportedSequenceNumbers h <? _pipelineSize h
      then Some (Raises AttributeError, h, w, [])
      else Some (Returns tt, h, w, [])
  | Some ns =>
      match request_loop fuel ns
              (_nRequestedSequenceNumbers h - _nReportedSequenceNumbers h)
              (_maxReportedSequenceNumber h) h w with
      | Some (h', w', e) => Some (Returns tt, h', w', e)
      | None => None
      end
  end.

(** The function returned by [_makeOnGeneralizedObject(sequenceNumber)]. *)
Definition onGeneralizedObject (fuel : nat) (sequenceNumber : Z) (h : Handler)
    (w : World) : option (Outcome unit * Handler * World * list Effect) :=
  let e0 :=
    match _onSequencedGeneralizedObject h with
    | Some f =>
        Report sequenceNumber
          :: (if report_raises f sequenceNumber then [LogException] else [])
    | None => []
    end in
  let h1 := set_nReported (_nReportedSequenceNumbers h + 1) h in
  let h2 := if sequenceNumber >? _maxReportedSequenceNumber h1
            then set_maxReported sequenceNumber h1 else h1 in
  if _pipelineSize h2 >? 0 then
    match _requestNewSequenceNumbers fuel h2 w with
    | Some (r, h3, w3, e) => Some (r, h3, w3, e0 ++ e)
    | None => None
    end
  else Some (Returns tt, h2, w, e0).

(** [name[-1]] and [name[-2]] *)
Definition name_last (n : Name) : option Component := rev n !! 0%nat.
Definition name_last2 (n : Name) : option Component := rev n !! 1%nat.

Definition test (o : option Component) (p : Component -> bool) : bool :=
  match o with Some c => p c | None => false end.

(** [_onStateChanged(namespace, changedNamespace, state, callbackId)] *)
Definition _onStateChanged (fuel : nat) (changedNamespace : Name) (state : Z)
    (h : Handler) (w : World)
    : option (Outcome unit * Handler * World * list Effect) :=
  match namespace h, _latestNamespace h with
  | Some ns, Some latest =>
      let isTimeout :=
        (state =? NamespaceState.INTEREST_TIMEOUT) || (state =? INTEREST_NETWORK_NACK) in
      if isTimeout && bool_decide (changedNamespace = latest) then
        (* Timeout or network NACK, so try to fetch again. *)
        match face w with
        | Some f =>
            Some (Returns tt, h, w,
                  [LogInfo; CallLater f (_latestPacketFreshnessPeriod h) latest])
        | None => Some (Raises AttributeError, h, w, [LogInfo])
        end
      else if isTimeout
              && (_pipelineSize h >? 0)
              && (size changedNamespace =? size ns + 2)
              && test (name_last changedNamespace)
                   (fun c => bool_decide (c = NAME_COMPONENT_META))
              && test (name_last2 changedNamespace) isSequenceNumber
              && test (name_last2 changedNamespace)
                   (fun c => toSequenceNumber c =? _maxRequestedSequenceNumber h)
      then
        (* The highest pipelined request timed out, so request the _latest. *)
        Some (Returns tt, h, w, [LogInfo; LogInfo; ObjectNeeded latest true])
      else
        let e0 := if isTimeout then [LogInfo] else [] in
        if negb ((state =? OBJECT_READY)
                 && (size changedNamespace =? size latest + 1)
                 && isPrefixOf latest changedNamespace
                 && test (name_last changedNamespace) isVersion)
        then
          (* Not a versioned _latest, so ignore. *)
          Some (Returns tt, h, w, e0)
        else
          match nv_obj (view w changedNamespace) with
          | None => Some (Raises ValueError, h, w, e0)
          | Some blob =>
          match wireDecode blob with
          | Raises e => Some (Raises e, h, w, e0)
          | Returns [] => Some (Returns tt, h, w, e0)
          | Returns (targetName :: _) =>
              if negb (isPrefixOf ns targetName
                       && (size targetName =? size ns + 1)
                       && test (name_last targetName) isSequenceNumber)
              then Some (Returns tt, h, w, e0)
              else
                let targetNamespace := targetName in
                (* We may already have the target if this was triggered by
                   the producer. *)
                let fetched :=
                  match nv_obj (view w targetNamespace) with
                  | Some _ => Some (h, w, [])
                  | None =>
                      let sequenceNumber :=
                        match name_last targetName with
                        | Some c => toSequenceNumber c
                        | None => 0
                        end in
                      if _pipelineSize h =? 0 then
                        let sequenceMeta := append targetNamespace NAME_COMPONENT_META in
                        if nv_state (view w sequenceMeta) <? NamespaceState.INTEREST_EXPRESSED
                        then Some (h, objectNeeded sequenceMeta w,
                                   [AttachObjectHandler targetNamespace sequenceNumber;
                                    ObjectNeeded sequenceMeta false])
                        else Some (h, w, [])
                      else
                        let h1 := set_maxReported (sequenceNumber - 1) h in
                        let h2 := set_nRequested (_nReportedSequenceNumbers h1) h1 in
                        match _requestNewSequenceNumbers fuel h2 w with
                        | Some (_, h3, w3, e) => Some (h3, w3, e)
                        | None => None
                        end
                  end in
                match fetched with
                | None => None
                | Some (h', w', e1) =>
                    if _pipelineSize h' =? 0 then
                      (* Schedule to fetch the next _latest packet. *)
                      match nv_data (view w' changedNamespace) with
                      | None => Some (Raises AttributeError, h', w', e0 ++ e1)
                      | Some None => Some (Returns tt, h', w', e0 ++ e1)
                      | Some (Some freshnessPeriod) =>
                          if Qlt_le_dec freshnessPeriod 0
                          then Some (Returns tt, h', w', e0 ++ e1)
                          else
                            match face w' with
                            | Some f =>
                                Some (Returns tt, h', w',
                                      e0 ++ e1 ++
                                      [CallLater f (Some (freshnessPeriod / (2 # 1))%Q) latest])
                            | None => Some (Raises AttributeError, h', w', e0 ++ e1)
                            end
                      end
                    else Some (Returns tt, h', w', e0 ++ e1)
                end
          end
          end
  | _, _ => Some (Raises AttributeError, h, w, [])
  end.

(** The completion callbacks of the sequence numbers [l], called in that
    order. *)
Fixpoint complete_all (fuel : nat) (l : list Z) (h : Handler) (w : World)
    : option (Handler * World) :=
  match l with
  | [] => Some (h, w)
  | s :: l' =>
      match onGeneralizedObject fuel s h w with
      | Some (_, h', w', _) => complete_all fuel l' h' w'
      | None => None
      end
  end.

(** The number of requests in flight. *)
Definition outstanding (h : Handler) : Z :=
  _nRequestedSequenceNumbers h - _nReportedSequenceNumbers h.

(** The node of the [_meta] packet of sequence number [s] below [ns]. *)
Definition metaName (ns : Name) (s : Z) : Name :=
  append (append ns (fromSequenceNumber s)) NAME_COMPONENT_META.

(** A node that [_requestNewSequenceNumbers] skips. *)
Definition busy (v : NodeView) : bool :=
  bool_decide (nv_data v <> None)
  || (nv_state v >=? NamespaceState.INTEREST_EXPRESSED).

Definition seq_of (ns k : Name) : Z :=
  match k !! length ns with
  | Some c => toSequenceNumber c
  | None => -1
  end.

Definition above (ns : Name) (c : Z) (kv : Name * NodeView) : bool :=
  busy kv.2 && bool_decide (kv.1 = metaName ns (seq_of ns kv.1)) && (c <? seq_of ns kv.1).

(** The busy [_meta] nodes of sequence numbers above [c]: the loop can skip
    no more nodes than these. *)
Fixpoint pending (ns : Name) (c : Z) (t : list (Name * NodeView)) : nat :=
  match t with
  | [] => O
  | kv :: t' => ((if above ns c kv then 1 else 0) + pending ns c t')%nat
  end.

End Stream.

(** ** Vocabulary of the properties *)

(** A sequence of publish calls on one handler. *)
Inductive Publish :=
| SetObject (sequenceNumber : Z) (obj : Obj) (contentType : string) (other : option Obj)
| AddObject (obj : Obj) (contentType : string) (other : option Obj).

Definition publish (fromSequenceNumber : Z -> Component) (c : Publish) (h : Handler)
    : Handler :=
  match c with
  | SetObject n obj contentType other =>
      (setObject fromSequenceNumber n obj contentType other h).1.2
  | AddObject obj contentType other =>
      (addObject fromSequenceNumber obj contentType other h).1.2
  end.

(** The values of [getProducedSequenceNumber()] seen after each call. *)
Fixpoint produced_after (fromSequenceNumber : Z -> Component) (cs : list Publish)
    (h : Handler) : list Z :=
  match cs with
  | [] => []
  | c :: cs' =>
      let h' := publish fromSequenceNumber c h in
      getProducedSequenceNumber h' :: produced_after fromSequenceNumber cs' h'
  end.

(** No [setObject] of the sequence is given a number below the current one. *)
Fixpoint ascending (fromSequenceNumber : Z -> Component) (cs : list Publish)
    (h : Handler) : Prop :=
  match cs with
  | [] => True
  | c :: cs' =>
      match c with
      | SetObject n _ _ _ => getProducedSequenceNumber h <= n
      | AddObject _ _ _ => True
      end /\ ascending fromSequenceNumber cs' (publish fromSequenceNumber c h)
  end.

(** [l] never decreases, starting from [x]. *)
Fixpoint never_decreases (x : Z) (l : list Z) : Prop :=
  match l with
  | [] => True
  | y :: l' => x <= y /\ never_decreases y l'
  end.

(** The tree invariant: a node's name is its parent's name with one more
    component, every entry of [_children] leads to a node of the store whose
    parent is this node, and every key of [_sortedChildrenKeys] is a key of
    [_children]. *)
Definition wf (st : Store) : Prop :=
  forall n N, node st n = Some N ->
    (forall p, _parent N = Some p ->
       exists P c, node st p = Some P /\ _name N = _name P ++ [c]) /\
    (forall c m, dict_get (_children N) c = Some m ->
       exists M, node st m = Some M /\ _name M = _name N ++ [c] /\ _parent M = Some n) /\
    (forall c, In c (_sortedChildrenKeys N) -> dict_mem (_children N) c = true).

(** What application code that goes through the public interface keeps of a
    store: no node disappears, is renamed or moved, a child stays where it is,
    attached data stay attached, and the transform hooks are as before. *)
Definition extends (st st' : Store) : Prop :=
  forall n N, node st n = Some N ->
    exists N', node st' n = Some N' /\
      _name N' = _name N /\ _parent N' = _parent N /\
      _transformContent N' = _transformContent N /\
      (forall c m, dict_get (_children N) c = Some m -> dict_get (_children N') c = Some m) /\
      (forall d, _data N = Some d -> _data N' = Some d).

(** Callbacks that keep the tree, and callbacks that moreover leave the
    registered observers alone. *)
Definition preserves_tree
    (call : Callback -> NodeId -> NodeId -> Z -> Z -> Store -> Store * bool) : Prop :=
  forall f ns changed state id st, extends st (call f ns changed state id st).1.

Definition preserves_observers
    (call : Callback -> NodeId -> NodeId -> Z -> Z -> Store -> Store * bool) : Prop :=
  forall f ns changed state id st n,
    _onStateChangedCallbacks (get (call f ns changed state id st).1 n)
    = _onStateChangedCallbacks (get st n).

(** The same callbacks, none of which raises. *)
Definition mute (call : Callback -> NodeId -> NodeId -> Z -> Z -> Store -> Store * bool)
    : Callback -> NodeId -> NodeId -> Z -> Z -> Store -> Store * bool :=
  fun f ns changed state id st => ((call f ns changed state id st).1, false).

Definition is_log (e : Event) : bool :=
  match e with EvLogException _ _ => true | _ => false end.

Definition is_call (e : Event) : bool :=
  match e with EvCallback _ _ _ _ => true | _ => false end.

(** The calls of observers in a trace, and the trace without its log entries. *)
Definition calls (t : list Event) : list Event := List.filter is_call t.
Definition unlogged (t : list Event) : list Event :=
  List.filter (fun e => negb (is_log e)) t.

(** The writes to [_state] in a trace. *)
Fixpoint state_writes (t : list Event) : list (NodeId * Z) :=
  match t with
  | [] => []
  | EvSetState ns s :: t' => (ns, s) :: state_writes t'
  | _ :: t' => state_writes t'
  end.

(** An event of the dispatch of [(changed, state)]: a call of an observer
    with these arguments, or the log entry of its exception. *)
Definition dispatch_of (changed : NodeId) (state : Z) (e : Event) : Prop :=
  match e with
  | EvSetState _ _ => False
  | EvCallback _ changed' state' _ => changed' = changed /\ state' = state
  | EvLogException _ _ => True
  end.

(** The node and its ancestors, nearest first. *)
Fixpoint ancestors (fuel : nat) (st : Store) (namespace : option NodeId) : list NodeId :=
  match namespace, fuel with
  | Some ns, S fuel' => ns :: ancestors fuel' st (_parent (get st ns))
  | _, _ => []
  end.

(** The calls that reach every observer registered on the node and on its
    ancestors, in the order of the dispatch. *)
Definition deliveries (fuel : nat) (st : Store) (self : NodeId) (state : Z)
    : list Event :=
  flat_map (fun ns =>
      map (EvCallback ns self state)
          (dict_keys (_onStateChangedCallbacks (get st ns))))
    (ancestors fuel st (Some self)).

(** [a] is [d] or one of its ancestors. *)
Inductive anc (st : Store) (a : NodeId) : NodeId -> Prop :=
| anc_self : anc st a a
| anc_parent d D p :
    node st d = Some D -> _parent D = Some p -> anc st a p -> anc st a d.

(** The walk of [getChild] from [cur] along [B] finds every node it needs
    and ends at [d] after [k] steps. *)
Inductive reach (st : Store) (B : Name) : nat -> NodeId -> NodeId -> Prop :=
| reach_here cur N :
    node st cur = Some N -> (length B <= length (_name N))%nat ->
    reach st B 0 cur cur
| reach_step k cur N c m d :
    node st cur = Some N -> (length (_name N) < length B)%nat ->
    B !! length (_name N) = Some c ->
    dict_get (_children N) c = Some m ->
    reach st B k m d ->
    reach st B (S k) cur d.

(** The first part of [_createChild]: the new node and its entry in the
    parent. *)
Definition attach_child (component_lt : Component -> Component -> bool)
    (st : Store) (self : NodeId) (component : Component) : NodeId * Store :=
  let '(child, st1) :=
    alloc st (set_parent (Some self)
                (Namespace_init (append (_name (get st self)) component))) in
  (child,
   update st1 self (fun n =>
     set_children (dict_set (_children n) component child)
                  (insort component_lt (_sortedChildrenKeys n) component) n)).

(** An event of a dispatch that only visits the nodes of [chain]. *)
Definition on_chain (chain : list NodeId) (self : NodeId) (state : Z) (e : Event)
    : Prop :=
  match e with
  | EvSetState _ _ => False
  | EvCallback ns changed state' _ => In ns chain /\ changed = self /\ state' = state
  | EvLogException ns _ => In ns chain
  end.

(** The dispatch of [(self, state)] to the nodes of [chain], in this order:
    on each node the loop of [_fireOnStateChanged], in the store that the
    calls before it have left. *)
Fixpoint dispatch
    (call : Callback -> NodeId -> NodeId -> Z -> Z -> Store -> Store * bool)
    (chain : list NodeId) (self : NodeId) (state : Z) (st : Store)
    : Store * list Event :=
  match chain with
  | [] => (st, [])
  | ns :: chain' =>
      let '(st1, t1) := _fireOnStateChanged call ns self state st in
      let '(st2, t2) := dispatch call chain' self state st1 in
      (st2, t1 ++ t2)
  end.

(** Callbacks that only observe: they leave the store as it is. *)
Definition observes_only
    (call : Callback -> NodeId -> NodeId -> Z -> Z -> Store -> Store * bool) : Prop :=
  forall f ns changed state id st, (call f ns changed state id st).1 = st.

(** The path from the node [cur] down to the name [B], created without any
    dispatch: every missing node of the path is attached to the one above
    it.  The result is the node named [B] and the store. *)
Fixpoint attach_path (component_lt : Component -> Component -> bool) (fuel : nat)
    (cur : NodeId) (B : Name) (st : Store) : NodeId * Store :=
  match fuel with
  | O => (cur, st)
  | S fuel' =>
      if size (_name (get st cur)) <? size B then
        match B !! length (_name (get st cur)) with
        | None => (cur, st)
        | Some c =>
            match dict_get (_children (get st cur)) c with
            | Some child => attach_path component_lt fuel' child B st
            | None =>
                let '(child, st1) := attach_child component_lt st cur c in
                attach_path component_lt fuel' child B st1
            end
        end
      else (cur, st)
  end.

(** The creation of the leaf [d] named [B] below the node [a], from the store
    [st]: first the path is created without any dispatch, which gives the
    store [created], in which the observers of the nodes of [st] are as
    before; then NAME_EXISTS is written on the node [p] in which the leaf was
    created, and dispatched to [p] and its ancestors with [p] as the changed
    node.  The store [st'] and the trace [t] are the results of that
    dispatch, in which every observer of [p] and of its ancestors is called
    when the observers leave the registrations alone. *)
Definition leaf_created
    (call : Callback -> NodeId -> NodeId -> Z -> Z -> Store -> Store * bool)
    (component_lt : Component -> Component -> bool) (fuel : nat) (a : NodeId)
    (B : Name) (st st' : Store) (d : NodeId) (t : list Event) : Prop :=
  exists p created,
    (d, created) = attach_path component_lt fuel a B st /\
    extends st created /\ wf created /\
    (forall n, is_Some (node st n) ->
       _onStateChangedCallbacks (get created n) = _onStateChangedCallbacks (get st n)) /\
    _name (get created d) = B /\ _parent (get created d) = Some p /\
    _parent (get st' d) = Some p /\
    st' = (dispatch call (ancestors (length B) created (Some p)) p
             NamespaceState.NAME_EXISTS
             (update created p (set_state NamespaceState.NAME_EXISTS))).1 /\
    t = EvSetState p NamespaceState.NAME_EXISTS
        :: (dispatch call (ancestors (length B) created (Some p)) p
              NamespaceState.NAME_EXISTS
              (update created p (set_state NamespaceState.NAME_EXISTS))).2 /\
    Forall (dispatch_of p NamespaceState.NAME_EXISTS)
      (dispatch call (ancestors (length B) created (Some p)) p
         NamespaceState.NAME_EXISTS
         (update created p (set_state NamespaceState.NAME_EXISTS))).2 /\
    (preserves_observers call ->
     calls (dispatch call (ancestors (length B) created (Some p)) p
              NamespaceState.NAME_EXISTS
              (update created p (set_state NamespaceState.NAME_EXISTS))).2
     = deliveries (length B) created p NamespaceState.NAME_EXISTS).

(** The update of [bestMatch] by the match below one child. *)
Definition pick (bestMatch childBestMatch : option Name) : option Name :=
  match childBestMatch, bestMatch with
  | Some c, None => Some c
  | Some c, Some b => if size c >=? size b then Some c else Some b
  | None, _ => bestMatch
  end.

(** The result of the loop over the children, from the matches below the
    children in the order of [_sortedChildrenKeys]. *)
Definition best (results : list (option Name)) : option Name :=
  foldr (fun r b => pick b r) None results.

(** The keys are in ascending order. *)
Definition keys_ascending (component_lt : Component -> Component -> bool)
    (keys : list Component) : Prop :=
  forall i j x y, (i < j)%nat -> keys !! i = Some x -> keys !! j = Some y ->
    component_lt x y = true.

(** The keys of every node of the store are in ascending order. *)
Definition sorted_store (component_lt : Component -> Component -> bool)
    (st : Store) : Prop :=
  forall n N, node st n = Some N ->
    keys_ascending component_lt (_sortedChildrenKeys N).

(** No name in the store is longer than this. *)
Definition depth_bound (st : Store) : nat :=
  foldr Nat.max O (map (fun N => length (_name N)) (nodes st)).

(** A sequence of registrations of observers, each on some node; the result
    is the list of the identifiers returned. *)
Fixpoint register_all (rs : list (NodeId * Callback)) (st : Store) : list Z * Store :=
  match rs with
  | [] => ([], st)
  | (ns, f) :: rs' =>
      let '(id, st1) := addOnStateChanged ns f st in
      let '(ids, st2) := register_all rs' st1 in
      (id :: ids, st2)
  end.

(** No observer is registered under an identifier that the counter has not
    reached yet, and no identifier is registered twice on a node. *)
Definition ids_issued (st : Store) : Prop :=
  forall n N, node st n = Some N ->
    NoDup (dict_keys (_onStateChangedCallbacks N)) /\
    forall id, In id (dict_keys (_onStateChangedCallbacks N)) ->
      id <= _lastCallbackId st.

(** The keys of [_sortedChildrenKeys] are the keys of [_children]. *)
Definition synced (N : Namespace) : Prop :=
  Permutation (_sortedChildrenKeys N) (dict_keys (_children N)).

(** The whole invariant of the tree: well-formed, with sorted key lists that
    hold the keys of the children. *)
Definition tree_ok (component_lt : Component -> Component -> bool) (st : Store)
    : Prop :=
  wf st /\ sorted_store component_lt st /\
  forall n N, node st n = Some N -> synced N.

(** Callbacks that keep a property of the store. *)
Definition preserves (I : Store -> Prop)
    (call : Callback -> NodeId -> NodeId -> Z -> Z -> Store -> Store * bool) : Prop :=
  forall f ns changed state id st, I st -> I (call f ns changed state id st).1.

(** [x] is [ns] or a node that the search of [_findBestMatchName] reaches
    from [ns]: through a key of [_sortedChildrenKeys] and its entry in
    [_children]. *)
Inductive below (st : Store) : NodeId -> NodeId -> Prop :=
| below_self ns : below st ns ns
| below_child ns N key child x :
    node st ns = Some N -> In key (_sortedChildrenKeys N) ->
    dict_get (_children N) key = Some child ->
    below st child x -> below st ns x.

(** The node [x] holds a Data packet that the interest matches. *)
Definition holds_match (matchesData : Interest -> Data -> bool) (st : Store)
    (interest : Interest) (x : NodeId) : Prop :=
  exists d, _data (get st x) = Some d /\ matchesData interest d = true.

(** The Face that [_getFace] looks for: the one of the nearest node, from
    [self] upwards, that has one. *)
Definition nearest_face (fuel : nat) (st : Store) (self : NodeId) : option Face :=
  head (omap (fun n => _face (get st n)) (ancestors fuel st (Some self))).

(** What [_requestNewSequenceNumbers] asks for the sequence numbers [ss], in
    this order: a GeneralizedObjectHandler on the node of each number and the
    fetch of its [_meta] packet. *)
Definition requests (NAME_COMPONENT_META : Component)
    (fromSequenceNumber : Z -> Component) (ns : Name) (ss : list Z) : list Effect :=
  flat_map (fun s =>
      [AttachObjectHandler (append ns (fromSequenceNumber s)) s;
       ObjectNeeded (metaName NAME_COMPONENT_META fromSequenceNumber ns s) false])
    ss.

(** The [_meta] node of the sequence number [s] has no Data packet and has
    not been requested. *)
Definition idle (NAME_COMPONENT_META : Component)
    (fromSequenceNumber : Z -> Component) (ns : Name) (w : World) (s : Z) : Prop :=
  busy (view w (metaName NAME_COMPONENT_META fromSequenceNumber ns s)) = false.

(** The numbers of [ss] go up. *)
Fixpoint increasing (c : Z) (ss : list Z) : Prop :=
  match ss with
  | [] => True
  | s :: ss' => c < s /\ increasing s ss'
  end.

(** A sequence of calls of [setPipelineSize]; a call that raises leaves the
    handler as it is. *)
Definition setPipelineSize_all (ps : list Z) (h : Handler) : Handler :=
  fold_left (fun h p => (setPipelineSize p h).2) ps h.

(** The name that [_onInterest] looks up: the name of the interest without
    its implicit digest component, if it ends with one. *)
Definition stripped (isImplicitSha256Digest : Component -> bool) (interestName : Name)
    : Name :=
  if (size interestName >=? 1)
     && match last interestName with
        | Some c => isImplicitSha256Digest c
        | None => false
        end
  then removelast interestName
  else interestName.

(** The hook that [_getTransformContent] looks for: the one of the nearest
    node, from [self] upwards, that has one. *)
Definition nearest_transform (fuel : nat) (st : Store) (self : NodeId)
    : option TransformContent :=
  head (omap (fun n => _transformContent (get st n)) (ancestors fuel st (Some self))).

(** * Executable scenarios *)

(** A boolean check of the tree invariant. *)
Definition wf_node (st : Store) (n : NodeId) (N : Namespace) : bool :=
  match _parent N with
  | None => true
  | Some p =>
      match node st p, rev (_name N) with
      | Some P, c :: r => bool_decide (rev r = _name P)
      | _, _ => false
      end
  end
  && forallb (fun cm : Component * NodeId =>
       match node st cm.2 with
       | Some M => bool_decide (_name M = _name N ++ [cm.1])
                   && bool_decide (_parent M = Some n)
       | None => false
       end) (_children N)
  && forallb (fun c => dict_mem (_children N) c) (_sortedChildrenKeys N).

Definition wfb (st : Store) : bool :=
  forallb (fun n => match node st n with
                    | Some N => wf_node st n N
                    | None => true
                    end) (seq 0%nat (length (nodes st))).

(** Callbacks of the scenarios: 0 observes, 1 removes the observer 2 of the
    node it is registered on, 2 raises. *)
Definition demo_call (f : Callback) (ns changed : NodeId) (state id : Z)
    (st : Store) : Store * bool :=
  match f with
  | 1%nat => (removeCallback ns 2 st, false)
  | 2%nat => (st, true)
  | _ => (st, false)
  end.

Definition demo_transform (f : TransformContent) (d : Data) : TransformResult :=
  Defers.

(** An interest matches the packets below its name. *)
Definition demo_matchesData (interest : Interest) (d : Data) : bool :=
  isPrefixOf (interest_name interest) (data_name d).

Definition demo_lt : Component -> Component -> bool := String.ltb.

Definition ok {A} (r : option (Outcome A * Store * list Event)) : Store :=
  match r with Some (_, st, _) => st | None => mkStore [] 0 end.

(** The tree with data at /a, /a/b and /a/c, the child c created first. *)
Definition demo_root : Store :=
  {| nodes := [Namespace_init ["a"%string]]; _lastCallbackId := 0 |}.

Definition demo_tree : Store :=
  let st1 := ok (getChild demo_call demo_lt 9 0%nat (IsName ["a"; "c"]%string) demo_root) in
  let st2 := ok (getChild demo_call demo_lt 9 0%nat (IsName ["a"; "b"]%string) st1) in
  let st3 := ok (setData demo_call demo_transform 9 0%nat (mkData ["a"%string] "A") st2) in
  let st4 := ok (setData demo_call demo_transform 9 1%nat (mkData ["a"; "c"]%string "C") st3) in
  ok (setData demo_call demo_transform 9 2%nat (mkData ["a"; "b"]%string "B") st4).

(** The order of [Name.Component] in pyndn ([Name.Component.compare], the
    canonical order of NDN): the shorter component is the smaller one, and
    components of one length are compared byte by byte. *)
Definition canonical_lt (x y : Component) : bool :=
  (String.length x <? String.length y)%nat
  || ((String.length x =? String.length y)%nat && String.ltb x y).

(** The tree with data at /a/b and /a/aa under the root /a, built with the
    order of pyndn: /a/b is the node 1 and /a/aa the node 2. *)
Definition canonical_tree : Store :=
  let st1 := ok (getChild demo_call canonical_lt 9 0%nat (IsName ["a"; "b"]%string) demo_root) in
  let st2 := ok (getChild demo_call canonical_lt 9 0%nat (IsName ["a"; "aa"]%string) st1) in
  let st3 := ok (setData demo_call demo_transform 9 1%nat (mkData ["a"; "b"]%string "B") st2) in
  ok (setData demo_call demo_transform 9 2%nat (mkData ["a"; "aa"]%string "AA") st3).

(** The root /a and its child /a/b; then three observers on the root,
    registered in this order: 1 removes the observer 2, 2 observes, 3 raises;
    and one observer, 4, on the child. *)
Definition demo_observed : Store :=
  let st1 := ok (getChild demo_call demo_lt 9 0%nat (IsName ["a"; "b"]%string) demo_root) in
  let st2 := (addOnStateChanged 0%nat 1%nat st1).2 in
  let st3 := (addOnStateChanged 0%nat 0%nat st2).2 in
  let st4 := (addOnStateChanged 0%nat 2%nat st3).2 in
  (addOnStateChanged 1%nat 0%nat st4).2.

(** The environment of the stream scenarios.  The sequence number [n] is the
    component of a mark and [n] strokes, a version starts with a [v], and the
    blob of a [_latest] packet holds the last component of its one target
    below /stream (an empty blob is an empty DelegationSet). *)
Definition demo_NACK : Z := 9.
Definition demo_OBJECT_READY : Z := 10.
Definition demo_META : Component := "_meta"%string.

Fixpoint strokes (n : nat) : string :=
  match n with
  | O => EmptyString
  | S n' => String "|"%char (strokes n')
  end.

Definition demo_fromSequenceNumber (n : Z) : Component :=
  String "#"%char (strokes (Z.to_nat n)).

Definition demo_isSequenceNumber (c : Component) : bool :=
  match c with
  | String "#"%char _ => true
  | _ => false
  end.

Definition demo_toSequenceNumber (c : Component) : Z :=
  Z.of_nat (String.length c) - 1.

Definition demo_isVersion (c : Component) : bool :=
  match c with
  | String "v"%char _ => true
  | _ => false
  end.

Definition demo_wireDecode (blob : Obj) : Outcome (list Name) :=
  match blob with
  | EmptyString => Returns []
  | _ => Returns [["stream"%string; blob]]
  end.

Definition demo_report_raises (f : Callback) (sequenceNumber : Z) : bool :=
  Nat.eqb f 2.

Definition demo_onStateChanged :=
  _onStateChanged demo_NACK demo_OBJECT_READY demo_META demo_fromSequenceNumber
    demo_isSequenceNumber demo_toSequenceNumber demo_isVersion demo_wireDecode.

Definition demo_latest : Name := ["stream"; "_latest"]%string.

(** A consumer with a pipeline of 3, and a tree in which the versioned
    [_latest] packet /stream/_latest/v1 redirects to the sequence number 5. *)
Definition demo_handler : Handler :=
  setNamespace ["stream"%string] (Handler_init 3 None).

Definition demo_world (blob : Obj) : World :=
  {| tree := [(demo_latest ++ ["v1"%string],
               {| nv_state := demo_OBJECT_READY;
                  nv_data := Some (Some (1000 # 1)%Q);
                  nv_obj := Some blob |})];
     face := Some 0%nat |}.

(** The handler and the tree once the redirect has been received: the
    sequence numbers 5, 6 and 7 have been requested. *)
Definition demo_pipelined : Handler * World :=
  match demo_onStateChanged 9 (demo_latest ++ ["v1"%string]) demo_OBJECT_READY
          demo_handler (demo_world (demo_fromSequenceNumber 5)) with
  | Some (_, h, w, _) => (h, w)
  | None => (demo_handler, demo_world EmptyString)
  end.

Definition demo_complete_all :=
  complete_all demo_META demo_fromSequenceNumber demo_report_raises.

(** A boolean check of [ids_issued]. *)
Fixpoint distinct (l : list Z) : bool :=
  match l with
  | [] => true
  | x :: l' => negb (existsb (Z.eqb x) l') && distinct l'
  end.

Definition ids_issuedb (st : Store) : bool :=
  forallb (fun N =>
      distinct (dict_keys (_onStateChangedCallbacks N))
      && forallb (fun id => id <=? _lastCallbackId st)
           (dict_keys (_onStateChangedCallbacks N)))
    (nodes st).

(** The tree of [demo_tree] with the Face 7 on the root /a. *)
Definition demo_faced : Store :=
  (setFace 0%nat 7%nat true demo_tree).1.

(** A consumer that polls: its pipeline size is 0. *)
Definition demo_poller : Handler :=
  setNamespace ["stream"%string] (Handler_init 0 None).

(** The implicit digest component of the scenarios. *)
Definition demo_isImplicitSha256Digest (c : Component) : bool :=
  String.eqb c "sha256digest".

(** The root /a and its child /a/b, where a handler has installed the hook 0
    on the root by assigning to [_transformContent]. *)
Definition demo_hooked : Store :=
  let st1 := ok (getChild demo_call demo_lt 9 0%nat (IsName ["a"; "b"]%string) demo_root) in
  update st1 0%nat
    (fun n =>
       {| _name := _name n; _parent := _parent n; _children := _children n;
          _sortedChildrenKeys := _sortedChildrenKeys n; _state := _state n;
          _data := _data n; _content := _content n; _face := _face n;
          _onStateChangedCallbacks := _onStateChangedCallbacks n;
          _transformContent := Some 0%nat |}).

(** The hook 0 calls back at once with the content "clear"; any other hook
    raises. *)
Definition demo_decrypt (f : TransformContent) (d : Data) : TransformResult :=
  match f with
  | O => CallsBackNow "clear"
  | _ => TransformRaises RuntimeError
  end.

(** * Properties *)

(** ** Dictionaries and names *)

Section DictFacts.
Context {K V : Type} `{EqDecision K}.
Implicit Types (d : list (K * V)) (k : K) (v : V).

Lemma dict_get_set_eq d k v : dict_get (dict_set d k v) k = Some v.
Proof.
  induction d as [|[k' v'] d IH]; simpl.
  - by rewrite decide_True.
  - destruct (decide (k = k')) as [->|Hne]; simpl.
    + by rewrite decide_True.
    + by rewrite decide_False.
Qed.

Lemma dict_get_set_ne d k k' v :
  k' <> k -> dict_get (dict_set d k v) k' = dict_get d k'.
Proof.
  intros Hne. induction d as [|[k0 v0] d IH]; simpl.
  - by rewrite decide_False.
  - destruct (decide (k = k0)) as [->|Hne0]; simpl.
    + by rewrite !decide_False.
    + destruct (decide (k' = k0)); [done | apply IH].
Qed.

Lemma dict_get_Some_keys d k v : dict_get d k = Some v -> In k (dict_keys d).
Proof.
  induction d as [|[k0 v0] d IH]; simpl; [done|].
  destruct (decide (k = k0)) as [->|Hne]; [by left | right; auto].
Qed.

Lemma dict_get_Some_In d k v : dict_get d k = Some v -> In (k, v) d.
Proof.
  induction d as [|[k0 v0] d IH]; simpl; [done|].
  destruct (decide (k = k0)) as [->|Hne]; [|right; auto].
  intros [= ->]. by left.
Qed.

Lemma dict_keys_get d k : In k (dict_keys d) -> exists v, dict_get d k = Some v.
Proof.
  induction d as [|[k0 v0] d IH]; simpl; [done|].
  intros [Heq | Hin].
  - subst. rewrite decide_True by done. eauto.
  - destruct (decide (k = k0)); eauto.
Qed.

Lemma dict_get_pop_eq d k : NoDup (dict_keys d) -> dict_get (dict_pop d k) k = None.
Proof.
  induction d as [|[k0 v0] d IH]; simpl; [done|].
  intros Hnd. apply NoDup_cons in Hnd as [Hnotin Hnd].
  destruct (decide (k = k0)) as [->|Hne]; simpl.
  - destruct (dict_get d k0) eqn:E; [|done].
    exfalso. apply Hnotin, list_elem_of_In. eapply dict_get_Some_keys, E.
  - rewrite decide_False by done. auto.
Qed.

Lemma dict_get_pop_ne d k k' : k' <> k -> dict_get (dict_pop d k) k' = dict_get d k'.
Proof.
  intros Hne. induction d as [|[k0 v0] d IH]; simpl; [done|].
  destruct (decide (k = k0)) as [->|Hne0]; simpl.
  - by rewrite decide_False.
  - destruct (decide (k' = k0)); [done | apply IH].
Qed.

End DictFacts.

Lemma isPrefixOf_spec (a b : Name) : isPrefixOf a b = true <-> exists k, b = a ++ k.
Proof.
  revert b. induction a as [|x a IH]; intros b; simpl.
  - split; eauto.
  - destruct b as [|y b].
    + split; [done | intros [k Hk]; discriminate].
    + destruct (String.eqb_spec x y) as [->|Hne].
      * rewrite IH. split; intros [k Hk]; exists k; [by rewrite Hk | by inversion Hk].
      * split; [done | intros [k Hk]; inversion Hk; subst; contradiction].
Qed.

Lemma isPrefixOf_app (a k : Name) : isPrefixOf a (a ++ k) = true.
Proof. apply isPrefixOf_spec. eauto. Qed.

Lemma size_app (a b : Name) : size (a ++ b) = size a + size b.
Proof. unfold size. rewrite length_app. lia. Qed.

Lemma name_last_snoc (n : Name) (c : Component) : name_last (n ++ [c]) = Some c.
Proof. unfold name_last. by rewrite rev_app_distr. Qed.

(** ** The stream handler: pipeline size and published sequence numbers *)

Section StreamFacts.
Variable INTEREST_NETWORK_NACK : Z.
Variable OBJECT_READY : Z.
Variable NAME_COMPONENT_META : Component.
Variable fromSequenceNumber : Z -> Component.
Variable isSequenceNumber : Component -> bool.
Variable toSequenceNumber : Component -> Z.
Variable isVersion : Component -> bool.
Variable wireDecode : Obj -> Outcome (list Name).
Variable report_raises : Callback -> Z -> bool.

Local Abbreviation complete_all :=
  (complete_all NAME_COMPONENT_META fromSequenceNumber report_raises).
Local Abbreviation metaName := (metaName NAME_COMPONENT_META fromSequenceNumber).
Local Abbreviation seq_of := (seq_of toSequenceNumber).
Local Abbreviation above :=
  (above NAME_COMPONENT_META fromSequenceNumber toSequenceNumber).
Local Abbreviation pending :=
  (pending NAME_COMPONENT_META fromSequenceNumber toSequenceNumber).

(** C6.  [setPipelineSize] raises when the new size (a negative one counts
    as zero) would cross zero in either direction, and then leaves
    [_pipelineSize] as it was; otherwise the new size is stored. *)
Theorem setPipelineSize_sign_is_fixed (h : Handler) (pipelineSize : Z) :
  let requested := Z.max 0 pipelineSize in
  (0 < _pipelineSize h /\ requested = 0 ->
     setPipelineSize pipelineSize h = (Raises RuntimeError, h)) /\
  (_pipelineSize h = 0 /\ 0 < requested ->
     setPipelineSize pipelineSize h = (Raises RuntimeError, h)) /\
  (forall e h', setPipelineSize pipelineSize h = (Raises e, h') ->
     _pipelineSize h' = _pipelineSize h) /\
  ((0 < _pipelineSize h /\ 0 < requested) \/ (_pipelineSize h = 0 /\ requested = 0) ->
     exists h', setPipelineSize pipelineSize h = (Returns tt, h') /\
                _pipelineSize h' = requested /\ getPipelineSize h' = requested).
Proof.
  unfold setPipelineSize, getPipelineSize. simpl.
  assert (Hreq : (if pipelineSize <? 0 then 0 else pipelineSize) = Z.max 0 pipelineSize)
    by (destruct (Z.ltb_spec pipelineSize 0); lia).
  rewrite Hreq. set (requested := Z.max 0 pipelineSize).
  repeat split.
  - intros [Hpos ->]. simpl.
    destruct (Z.gtb_spec (_pipelineSize h) 0); [done | lia].
  - intros [Hz Hpos]. rewrite Hz. simpl.
    destruct (Z.eqb_spec requested 0); [lia|]. simpl.
    destruct (Z.gtb_spec requested 0); [done | lia].
  - intros e h'.
    destruct ((requested =? 0) && (_pipelineSize h >? 0)); [by intros [= _ <-]|].
    destruct ((requested >? 0) && (_pipelineSize h =? 0)); [by intros [= _ <-]|].
    discriminate.
  - intros Hsame. exists (set_pipelineSize requested h).
    destruct (Z.eqb_spec requested 0), (Z.gtb_spec (_pipelineSize h) 0),
      (Z.gtb_spec requested 0), (Z.eqb_spec (_pipelineSize h) 0);
      simpl; (done || lia).
Qed.

(** C7, as the code has it.  [getProducedSequenceNumber] is -1 before any
    publish.  [setObject] records the number it is given, whatever it is: for
    a number that is not negative it publishes the object at that number, and
    for a negative one it raises ValueError, after recording it, and
    publishes nothing.  [addObject] is [setObject] with the previous number
    plus one: it publishes there unless the previous number is below -1.
    Without a namespace both raise RuntimeError and change nothing.  So the
    value never decreases over a sequence of calls in which no [setObject] is
    given a number below the current one. *)
Theorem producedSequenceNumber_follows_publish_calls :
  (forall pipelineSize onObject ns,
     getProducedSequenceNumber (Handler_init pipelineSize onObject) = -1 /\
     getProducedSequenceNumber (setNamespace ns (Handler_init pipelineSize onObject)) = -1) /\
  (forall h ns obj contentType other,
     namespace h = Some ns ->
     getProducedSequenceNumber
       (addObject fromSequenceNumber obj contentType other h).1.2
     = getProducedSequenceNumber h + 1 /\
     (-1 <= getProducedSequenceNumber h ->
      addObject fromSequenceNumber obj contentType other h =
        (Returns tt, set_producedSequenceNumber (getProducedSequenceNumber h + 1) h,
         [PublishObject
            (append ns (fromSequenceNumber (getProducedSequenceNumber h + 1)))
            obj contentType other])) /\
     (getProducedSequenceNumber h < -1 ->
      addObject fromSequenceNumber obj contentType other h =
        (Raises ValueError,
         set_producedSequenceNumber (getProducedSequenceNumber h + 1) h, []))) /\
  (forall h ns n obj contentType other,
     namespace h = Some ns ->
     getProducedSequenceNumber
       (setObject fromSequenceNumber n obj contentType other h).1.2 = n /\
     (0 <= n ->
      setObject fromSequenceNumber n obj contentType other h =
        (Returns tt, set_producedSequenceNumber n h,
         [PublishObject (append ns (fromSequenceNumber n)) obj contentType other])) /\
     (n < 0 ->
      setObject fromSequenceNumber n obj contentType other h =
        (Raises ValueError, set_producedSequenceNumber n h, []))) /\
  (forall h n obj contentType other,
     namespace h = None ->
     setObject fromSequenceNumber n obj contentType other h = (Raises RuntimeError, h, []) /\
     addObject fromSequenceNumber obj contentType other h = (Raises RuntimeError, h, [])) /\
  (forall cs h,
     ascending fromSequenceNumber cs h ->
     never_decreases (getProducedSequenceNumber h)
       (produced_after fromSequenceNumber cs h)).
Proof.
  assert (Hset : forall h ns n obj contentType other,
    namespace h = Some ns ->
    getProducedSequenceNumber
      (setObject fromSequenceNumber n obj contentType other h).1.2 = n /\
    (0 <= n ->
     setObject fromSequenceNumber n obj contentType other h =
       (Returns tt, set_producedSequenceNumber n h,
        [PublishObject (append ns (fromSequenceNumber n)) obj contentType other])) /\
    (n < 0 ->
     setObject fromSequenceNumber n obj contentType other h =
       (Raises ValueError, set_producedSequenceNumber n h, []))).
  { intros h ns n obj contentType other Hns. unfold setObject. rewrite Hns. simpl.
    destruct (Z.ltb_spec n 0); simpl; repeat split; (done || lia). }
  split; [done|]. split; [|split; [exact Hset|split]].
  - intros h ns obj contentType other Hns. unfold addObject.
    destruct (Hset h ns (getProducedSequenceNumber h + 1) obj contentType other Hns)
      as (H1 & H2 & H3).
    split; [done|]. split; intros H; [apply H2 | apply H3]; lia.
  - intros h n obj contentType other Hns. unfold addObject, setObject. by rewrite Hns.
  - intros cs. induction cs as [|c cs IH]; intros h; simpl; [done|].
    intros [Hc Hcs]. split; [|by apply IH].
    destruct c as [n obj contentType other | obj contentType other]; simpl.
    + destruct (namespace h) as [ns|] eqn:Hns.
      * by rewrite (proj1 (Hset h ns n obj contentType other Hns)).
      * unfold setObject. rewrite Hns. simpl. reflexivity.
    + unfold addObject. destruct (namespace h) as [ns|] eqn:Hns.
      * rewrite (proj1 (Hset h ns _ obj contentType other Hns)).
        unfold getProducedSequenceNumber. lia.
      * unfold setObject. rewrite Hns. simpl. reflexivity.
Qed.

(** C8.  A timeout or a network NACK of the [_latest] node schedules one call
    of [objectNeeded(True)] on [_latest] after [_latestPacketFreshnessPeriod],
    asks for nothing at once, and changes neither the handler nor the tree. *)
Theorem latest_timeout_defers_one_pull (fuel : nat) (h : Handler) (w : World)
    (ns latest : Name) (f : Face) (state : Z) :
  namespace h = Some ns ->
  _latestNamespace h = Some latest ->
  face w = Some f ->
  state = NamespaceState.INTEREST_TIMEOUT \/ state = INTEREST_NETWORK_NACK ->
  _onStateChanged INTEREST_NETWORK_NACK OBJECT_READY NAME_COMPONENT_META
      fromSequenceNumber isSequenceNumber toSequenceNumber isVersion wireDecode
      fuel latest state h w
    = Some (Returns tt, h, w,
            [LogInfo; CallLater f (_latestPacketFreshnessPeriod h) latest]).
Proof.
  intros Hns Hlatest Hface Hstate. unfold _onStateChanged.
  rewrite Hns, Hlatest, Hface.
  assert (Ht : (state =? NamespaceState.INTEREST_TIMEOUT)
               || (state =? INTEREST_NETWORK_NACK) = true).
  { destruct Hstate as [-> | ->]; rewrite Z.eqb_refl; [done | apply orb_true_r]. }
  rewrite Ht. by rewrite bool_decide_eq_true_2.
Qed.

(** C9.  A versioned [_latest] packet whose DelegationSet is empty, or whose
    first name is not an immediate sequence-numbered child of the handler's
    namespace, is ignored: the call returns, nothing is asked of the
    collaborators, and the handler and the tree are as before. *)
Theorem malformed_redirect_is_ignored (fuel : nat) (h : Handler) (w : World)
    (ns latest : Name) (version : Component) (blob : Obj) (targets : list Name) :
  namespace h = Some ns ->
  _latestNamespace h = Some latest ->
  OBJECT_READY <> NamespaceState.INTEREST_TIMEOUT ->
  OBJECT_READY <> INTEREST_NETWORK_NACK ->
  isVersion version = true ->
  nv_obj (view w (append latest version)) = Some blob ->
  wireDecode blob = Returns targets ->
  (targets = [] \/
   exists targetName rest, targets = targetName :: rest /\
     ~ (isPrefixOf ns targetName = true /\ size targetName = size ns + 1 /\
        exists c, name_last targetName = Some c /\ isSequenceNumber c = true)) ->
  _onStateChanged INTEREST_NETWORK_NACK OBJECT_READY NAME_COMPONENT_META
      fromSequenceNumber isSequenceNumber toSequenceNumber isVersion wireDecode
      fuel (append latest version) OBJECT_READY h w
    = Some (Returns tt, h, w, []).
Proof.
  intros Hns Hlatest Hto Hnack Hver Hobj Hdec Hbad. unfold _onStateChanged.
  rewrite Hns, Hlatest.
  assert (Ht : (OBJECT_READY =? NamespaceState.INTEREST_TIMEOUT)
               || (OBJECT_READY =? INTEREST_NETWORK_NACK) = false).
  { apply orb_false_iff. split; by apply Z.eqb_neq. }
  rewrite Ht. simpl.
  assert (Hv : (OBJECT_READY =? OBJECT_READY)
               && (size (append latest version) =? size latest + 1)
               && isPrefixOf latest (append latest version)
               && test (name_last (append latest version)) isVersion = true).
  { unfold append. rewrite Z.eqb_refl, isPrefixOf_app, name_last_snoc, size_app.
    simpl. rewrite Hver, !andb_true_r. apply Z.eqb_eq. reflexivity. }
  rewrite Hv. simpl. rewrite Hobj, Hdec.
  destruct Hbad as [-> | (targetName & rest & -> & Hnot)]; [done|].
  destruct (isPrefixOf ns targetName) eqn:Hp; simpl; [|done].
  destruct (Z.eqb_spec (size targetName) (size ns + 1)) as [Hs|Hs]; simpl; [|done].
  destruct (name_last targetName) as [c|] eqn:Hl; simpl; [|done].
  destruct (isSequenceNumber c) eqn:Hsq; simpl; [|done].
  exfalso. apply Hnot. eauto.
Qed.

(** ** The stream handler: the request pipeline *)

Hypothesis sequence_number_roundtrip :
  forall n, 0 <= n -> toSequenceNumber (fromSequenceNumber n) = n.

Lemma seq_of_metaName ns s : 0 <= s -> seq_of ns (metaName ns s) = s.
Proof.
  intros Hs. unfold seq_of, metaName, append, Name.
  rewrite <- app_assoc. rewrite lookup_app_r by lia.
  rewrite Nat.sub_diag. simpl. auto.
Qed.

Lemma above_mono ns c c' kv : c <= c' -> above ns c' kv = true -> above ns c kv = true.
Proof.
  unfold above. intros Hc H.
  apply andb_true_iff in H as [H1 H2]. rewrite H1. simpl.
  apply Z.ltb_lt in H2. apply Z.ltb_lt. lia.
Qed.

Lemma pending_mono ns c c' t : c <= c' -> (pending ns c' t <= pending ns c t)%nat.
Proof.
  intros Hc. induction t as [|kv t IH]; simpl; [lia|].
  destruct (above ns c' kv) eqn:E.
  - rewrite (above_mono ns c c' kv Hc E). lia.
  - destruct (above ns c kv); lia.
Qed.

Lemma above_self ns s v : 0 <= s -> above ns s (metaName ns s, v) = false.
Proof.
  intros Hs. unfold above. simpl. rewrite seq_of_metaName by done.
  rewrite Z.ltb_irrefl. apply andb_false_r.
Qed.

Lemma pending_skip ns c s t v :
  dict_get t (metaName ns s) = Some v -> busy v = true -> 0 <= s -> c < s ->
  (pending ns s t < pending ns c t)%nat.
Proof.
  intros Hget Hbusy Hs Hc. induction t as [|[k0 v0] t IH]; simpl in *; [done|].
  destruct (decide (metaName ns s = k0)) as [<-|Hne].
  - injection Hget as ->. rewrite above_self by done.
    assert (Ha : above ns c (metaName ns s, v) = true).
    { unfold above. simpl. rewrite Hbusy, seq_of_metaName by done.
      rewrite bool_decide_eq_true_2 by done. simpl. apply Z.ltb_lt. lia. }
    rewrite Ha. pose proof (pending_mono ns c s t). lia.
  - specialize (IH Hget).
    destruct (above ns s (k0, v0)) eqn:E.
    + rewrite (above_mono ns c s (k0, v0)) by (lia || done). lia.
    + destruct (above ns c (k0, v0)); lia.
Qed.

Lemma pending_set ns s t v :
  0 <= s -> (pending ns s (dict_set t (metaName ns s) v) <= pending ns s t)%nat.
Proof.
  intros Hs. induction t as [|[k0 v0] t IH]; simpl.
  - rewrite above_self by done. lia.
  - destruct (decide (metaName ns s = k0)) as [<-|Hne]; simpl.
    + rewrite !above_self by done. lia.
    + destruct (above ns s (k0, v0)); lia.
Qed.

Lemma busy_view w n :
  busy (view w n) = true ->
  exists v, dict_get (tree w) n = Some v /\ busy v = true.
Proof.
  unfold view. destruct (dict_get (tree w) n) as [v|]; simpl; [eauto | done].
Qed.

Local Abbreviation request_loop' :=
  (request_loop NAME_COMPONENT_META fromSequenceNumber).

(** More fuel does not change a result. *)
Lemma request_loop_fuel fuel fuel' ns out c h w r :
  (fuel <= fuel')%nat ->
  request_loop' fuel ns out c h w = Some r ->
  request_loop' fuel' ns out c h w = Some r.
Proof.
  revert fuel' out c h w r.
  induction fuel as [|fuel IH]; intros fuel' out c h w r Hle; simpl.
  - destruct fuel'; simpl; destruct (out <? _pipelineSize h); done.
  - destruct fuel' as [|fuel']; [lia|]. simpl.
    destruct (out <? _pipelineSize h); [|done].
    destruct (_ || _).
    + apply IH. lia.
    + match goal with
      | |- context [request_loop' fuel ?a ?b ?c ?d ?e] =>
          destruct (request_loop' fuel a b c d e) as [[[h3 w3] e3]|] eqn:E; [|done];
          rewrite (IH fuel' _ _ _ _ _ ltac:(lia) E)
      end.
      done.
Qed.

(** What the loop leaves alone, and how many requests it adds. *)
Lemma request_loop_frame fuel ns out c h w h' w' e :
  request_loop' fuel ns out c h w = Some (h', w', e) ->
  namespace h' = namespace h /\
  _pipelineSize h' = _pipelineSize h /\
  _onSequencedGeneralizedObject h' = _onSequencedGeneralizedObject h /\
  _nReportedSequenceNumbers h' = _nReportedSequenceNumbers h /\
  _maxReportedSequenceNumber h' = _maxReportedSequenceNumber h /\
  _nRequestedSequenceNumbers h' =
    _nRequestedSequenceNumbers h + (Z.max out (_pipelineSize h) - out) /\
  face w' = face w.
Proof.
  revert out c h w h' w' e.
  induction fuel as [|fuel IH]; intros out c h w h' w' e; simpl.
  - destruct (Z.ltb_spec out (_pipelineSize h)); [done|].
    intros [= <- <- <-]. repeat split; lia.
  - destruct (Z.ltb_spec out (_pipelineSize h)) as [Hlt|Hge].
    + destruct (_ || _).
      * intros H. apply IH in H. destruct H as (?&?&?&?&?&?&?).
        repeat split; (done || lia).
      * match goal with
        | |- context [request_loop' fuel ?a ?b ?c ?d ?e] =>
            destruct (request_loop' fuel a b c d e) as [[[h3 w3] e3]|] eqn:E; [|done]
        end.
        intros [= <- <- <-]. apply IH in E.
        destruct (_ >? _); simpl in E; destruct E as (?&?&?&?&?&?&?);
          repeat split; (done || lia).
    + intros [= <- <- <-]. repeat split; lia.
Qed.

(** The loop ends: each step either fills one place of the window or skips
    one busy node above the cursor. *)
Lemma request_loop_total fuel ns out c h w :
  -1 <= c ->
  (Z.to_nat (_pipelineSize h - out) + pending ns c (tree w) <= fuel)%nat ->
  exists r, request_loop' fuel ns out c h w = Some r.
Proof.
  revert out c h w.
  induction fuel as [|fuel IH]; intros out c h w Hc Hfuel; simpl.
  - destruct (Z.ltb_spec out (_pipelineSize h)); [lia | eauto].
  - destruct (Z.ltb_spec out (_pipelineSize h)) as [Hlt|Hge]; [|eauto].
    fold (metaName ns (c + 1)).
    change (bool_decide (nv_data (view w (metaName ns (c + 1))) <> None)
            || (nv_state (view w (metaName ns (c + 1))) >=? NamespaceState.INTEREST_EXPRESSED))
      with (busy (view w (metaName ns (c + 1)))).
    destruct (busy (view w (metaName ns (c + 1)))) eqn:Hbusy.
    + apply busy_view in Hbusy as (v & Hget & Hv).
      apply IH; [lia|].
      pose proof (pending_skip ns c (c + 1) (tree w) v Hget Hv). lia.
    + match goal with
      | |- context [request_loop' fuel ?a ?b ?c ?d ?e] =>
          destruct (IH b c d e) as [[[h3 w3] e3] ->]; [lia | | eauto]
      end.
      assert (Hp : forall (b : bool) h0,
                _pipelineSize (if b then set_maxRequested (c + 1) h0 else h0)
                = _pipelineSize h0) by (intros [] ?; done).
      rewrite Hp. simpl. unfold objectNeeded. simpl.
      fold (metaName ns (c + 1)).
      pose proof (pending_set ns (c + 1) (tree w)
        {| nv_state := NamespaceState.INTEREST_EXPRESSED;
           nv_data := nv_data (view w (metaName ns (c + 1)));
           nv_obj := nv_obj (view w (metaName ns (c + 1))) |}).
      pose proof (pending_mono ns c (c + 1) (tree w)).
      lia.
Qed.

Local Abbreviation onGeneralizedObject' :=
  (onGeneralizedObject NAME_COMPONENT_META fromSequenceNumber report_raises).

(** One completion: with enough fuel the callback returns, counts the
    completion, raises the high-water mark, and in pipelined mode refills the
    window. *)
Lemma onGeneralizedObject_spec ns s h w :
  namespace h = Some ns ->
  -1 <= _maxReportedSequenceNumber h ->
  exists fuel0 h' w' e,
    (forall fuel, (fuel0 <= fuel)%nat ->
       onGeneralizedObject' fuel s h w = Some (Returns tt, h', w', e)) /\
    namespace h' = Some ns /\
    _pipelineSize h' = _pipelineSize h /\
    _nReportedSequenceNumbers h' = _nReportedSequenceNumbers h + 1 /\
    _maxReportedSequenceNumber h' = Z.max (_maxReportedSequenceNumber h) s /\
    (0 < _pipelineSize h -> outstanding h <= _pipelineSize h + 1 ->
     outstanding h' = _pipelineSize h).
Proof.
  intros Hns Hmax.
  set (h1 := set_nReported (_nReportedSequenceNumbers h + 1) h).
  set (h2 := if s >? _maxReportedSequenceNumber h1
             then set_maxReported s h1 else h1).
  assert (Hh2 : namespace h2 = Some ns /\ _pipelineSize h2 = _pipelineSize h /\
                _nReportedSequenceNumbers h2 = _nReportedSequenceNumbers h + 1 /\
                _maxReportedSequenceNumber h2 = Z.max (_maxReportedSequenceNumber h) s /\
                _nRequestedSequenceNumbers h2 = _nRequestedSequenceNumbers h).
  { subst h2 h1. simpl. destruct (Z.gtb_spec s (_maxReportedSequenceNumber h));
      simpl; repeat split; (done || lia). }
  destruct Hh2 as (Hns2 & Hp2 & Hrep2 & Hmax2 & Hreq2).
  destruct (Z.gtb_spec (_pipelineSize h2) 0) as [Hpos|Hzero].
  - destruct (request_loop_total _ ns (outstanding h2) (_maxReportedSequenceNumber h2)
                h2 w ltac:(lia) (Nat.le_refl _)) as [[[h3 w3] e3] Hloop].
    eexists _, h3, w3, _. split.
    + intros fuel Hfuel. unfold onGeneralizedObject. fold h1. fold h2.
      destruct (Z.gtb_spec (_pipelineSize h2) 0); [|lia].
      unfold _requestNewSequenceNumbers. rewrite Hns2.
      apply (request_loop_fuel _ fuel) in Hloop; [|exact Hfuel].
      unfold outstanding in Hloop. rewrite Hloop. reflexivity.
    + apply request_loop_frame in Hloop as (Hn & Hp & _ & Hrep & Hmx & Hreq & _).
      repeat split; try congruence.
      intros _ Hout. unfold outstanding in *. lia.
  - exists O, h2, w. eexists. split.
    + intros fuel _. unfold onGeneralizedObject. fold h1. fold h2.
      destruct (Z.gtb_spec (_pipelineSize h2) 0); [lia|]. reflexivity.
    + repeat split; try done. lia.
Qed.

Lemma foldr_max_init (l : list Z) (m s : Z) :
  foldr Z.max (Z.max m s) l = Z.max s (foldr Z.max m l).
Proof. induction l as [|x l IH]; simpl; [lia | rewrite IH; lia]. Qed.

Lemma foldr_max_Permutation (l l' : list Z) (m : Z) :
  Permutation l l' -> foldr Z.max m l = foldr Z.max m l'.
Proof. induction 1; simpl; lia. Qed.

(** Any number of completions, in the given order. *)
Lemma complete_all_spec ns l : forall h w,
  namespace h = Some ns ->
  -1 <= _maxReportedSequenceNumber h ->
  exists fuel0 h' w',
    (forall fuel, (fuel0 <= fuel)%nat -> complete_all fuel l h w = Some (h', w')) /\
    namespace h' = Some ns /\
    _pipelineSize h' = _pipelineSize h /\
    _nReportedSequenceNumbers h' = _nReportedSequenceNumbers h + Z.of_nat (length l) /\
    _maxReportedSequenceNumber h' = foldr Z.max (_maxReportedSequenceNumber h) l /\
    (0 < _pipelineSize h -> outstanding h <= _pipelineSize h + 1 -> l <> [] ->
     outstanding h' = _pipelineSize h).
Proof.
  induction l as [|s l IH]; intros h w Hns Hmax.
  - exists O, h, w. simpl. repeat split; (done || lia).
  - destruct (onGeneralizedObject_spec ns s h w Hns Hmax)
      as (fuel1 & h1 & w1 & e1 & Hrun1 & Hns1 & Hp1 & Hrep1 & Hmax1 & Hout1).
    destruct (IH h1 w1 Hns1 ltac:(lia))
      as (fuel2 & h2 & w2 & Hrun2 & Hns2 & Hp2 & Hrep2 & Hmax2 & Hout2).
    exists (Nat.max fuel1 fuel2), h2, w2. split; [|repeat split].
    + intros fuel Hfuel. simpl. rewrite Hrun1 by lia. apply Hrun2. lia.
    + done.
    + congruence.
    + rewrite Hrep2, Hrep1. simpl length. lia.
    + rewrite Hmax2, Hmax1. simpl. apply foldr_max_init.
    + intros Hpos Hout _. rewrite Hp1 in Hout2.
      destruct l as [|s' l'].
      * simpl in Hrun2. specialize (Hrun2 _ (Nat.le_refl _)). injection Hrun2 as <- <-.
        auto.
      * apply Hout2; [lia | | done]. rewrite Hout1 by done. lia.
Qed.

(** C2, as the code has it.  After the completions [l], in whatever order
    they arrive, [_nReportedSequenceNumbers] has grown by their number and
    [_maxReportedSequenceNumber] is the largest of them and of its old value.
    In pipelined mode every completion refills the window, so the number of
    requests in flight afterwards is [_pipelineSize] again (with a pipeline of
    3 that has requested 5, 6 and 7, it is 3 once 6 and 7 have completed: 5
    and the two requests that replaced 6 and 7). *)
Theorem pipeline_accounting_is_order_independent (ns : Name) (h : Handler)
    (w : World) (l l' : list Z) :
  namespace h = Some ns ->
  -1 <= _maxReportedSequenceNumber h ->
  Permutation l l' ->
  exists fuel0 h1 w1 h2 w2,
    (forall fuel, (fuel0 <= fuel)%nat ->
       complete_all fuel l h w = Some (h1, w1) /\
       complete_all fuel l' h w = Some (h2, w2)) /\
    _nReportedSequenceNumbers h1 = _nReportedSequenceNumbers h + Z.of_nat (length l) /\
    _nReportedSequenceNumbers h2 = _nReportedSequenceNumbers h1 /\
    _maxReportedSequenceNumber h1 = foldr Z.max (_maxReportedSequenceNumber h) l /\
    _maxReportedSequenceNumber h2 = _maxReportedSequenceNumber h1 /\
    (0 < _pipelineSize h -> outstanding h <= _pipelineSize h -> l <> [] ->
     outstanding h1 = _pipelineSize h /\ outstanding h2 = _pipelineSize h).
Proof.
  intros Hns Hmax Hperm.
  destruct (complete_all_spec ns l h w Hns Hmax)
    as (fuel1 & h1 & w1 & Hrun1 & _ & _ & Hrep1 & Hmax1 & Hout1).
  destruct (complete_all_spec ns l' h w Hns Hmax)
    as (fuel2 & h2 & w2 & Hrun2 & _ & _ & Hrep2 & Hmax2 & Hout2).
  exists (Nat.max fuel1 fuel2), h1, w1, h2, w2. repeat split.
  - apply Hrun1. lia.
  - apply Hrun2. lia.
  - done.
  - rewrite Hrep2, Hrep1. by rewrite (Permutation_length Hperm).
  - done.
  - rewrite Hmax2, Hmax1. symmetry. by apply foldr_max_Permutation.
  - apply Hout1; (done || lia).
  - apply Hout2; try (done || lia).
    intros ->. apply Permutation_nil_r in Hperm. done.
Qed.

End StreamFacts.

(** ** The name tree: stores *)

Lemma node_update st ns f m :
  node (update st ns f) m = if decide (m = ns) then f <$> node st m else node st m.
Proof.
  unfold node, update. simpl. destruct (decide (m = ns)) as [->|Hne].
  - apply list_lookup_alter_eq.
  - apply list_lookup_alter_ne. congruence.
Qed.

Lemma node_alloc_old st N m X :
  node st m = Some X -> node (alloc st N).2 m = Some X.
Proof. unfold node, alloc. simpl. intros H. by apply lookup_app_l_Some. Qed.

Lemma node_alloc_new st N : node (alloc st N).2 (alloc st N).1 = Some N.
Proof.
  unfold node, alloc. simpl. rewrite lookup_app_r by lia.
  by rewrite Nat.sub_diag.
Qed.

Lemma node_alloc_fresh st N : node st (alloc st N).1 = None.
Proof. unfold node, alloc. simpl. apply lookup_ge_None. lia. Qed.

Lemma node_alloc_inv st N m X :
  node (alloc st N).2 m = Some X ->
  node st m = Some X \/ (m = (alloc st N).1 /\ X = N).
Proof.
  unfold node, alloc. simpl. intros H.
  apply lookup_app_Some in H as [H | [Hge H]]; [by left|].
  right. destruct (m - length (nodes st))%nat as [|k] eqn:E; simpl in H; [|done].
  injection H as <-. split; [lia | done].
Qed.

Lemma get_node st ns N : node st ns = Some N -> get st ns = N.
Proof. unfold get. by intros ->. Qed.

Lemma extends_refl st : extends st st.
Proof. intros n N H. exists N. repeat split; auto. Qed.

Lemma extends_trans st1 st2 st3 : extends st1 st2 -> extends st2 st3 -> extends st1 st3.
Proof.
  intros H12 H23 n N H.
  destruct (H12 n N H) as (N2 & H2 & Hn2 & Hp2 & Ht2 & Hc2 & Hd2).
  destruct (H23 n N2 H2) as (N3 & H3 & Hn3 & Hp3 & Ht3 & Hc3 & Hd3).
  exists N3. repeat split; try congruence; auto.
Qed.

(** An update of one node that keeps what [extends] asks for. *)
Lemma extends_update st ns f :
  (forall N, _name (f N) = _name N /\ _parent (f N) = _parent N /\
             _transformContent (f N) = _transformContent N /\
             (forall c m, dict_get (_children N) c = Some m ->
                          dict_get (_children (f N)) c = Some m) /\
             (forall d, _data N = Some d -> _data (f N) = Some d)) ->
  extends st (update st ns f).
Proof.
  intros Hf n N H. rewrite node_update. destruct (decide (n = ns)) as [->|Hne].
  - rewrite H. simpl. exists (f N). split; [done|]. apply Hf.
  - exists N. repeat split; auto.
Qed.

Lemma extends_alloc st N : extends st (alloc st N).2.
Proof.
  intros n X H. exists X. split; [by apply node_alloc_old|]. repeat split; auto.
Qed.

(** ** The name tree: state changes and their observers *)

Section Dispatch.
Variable call : Callback -> NodeId -> NodeId -> Z -> Z -> Store -> Store * bool.

Lemma fire_ids_extends ids ns changed state st :
  preserves_tree call -> extends st (fire_ids call ids ns changed state st).1.
Proof.
  intros Hcall. revert st. induction ids as [|id ids IH]; intros st; simpl.
  - apply extends_refl.
  - destruct (dict_get _ id) as [f|]; [|apply IH].
    destruct (call f ns changed state id st) as [st1 raised] eqn:E.
    specialize (IH st1).
    destruct (fire_ids call ids ns changed state st1) as [st2 t]. simpl in *.
    eapply extends_trans; [|exact IH].
    specialize (Hcall f ns changed state id st). by rewrite E in Hcall.
Qed.

(** Every event of the loop is a call of an observer of the copied key list
    with the arguments of the dispatch, or the log entry of a call. *)
Lemma fire_ids_events ids ns changed state st :
  Forall (fun e =>
      (exists id, e = EvCallback ns changed state id /\ In id ids) \/
      (exists id, e = EvLogException ns id /\ In id ids))
    (fire_ids call ids ns changed state st).2.
Proof.
  revert st. induction ids as [|id ids IH]; intros st; simpl; [constructor|].
  assert (Hweak : forall st', Forall (fun e =>
      (exists id0, e = EvCallback ns changed state id0 /\ (id = id0 \/ In id0 ids)) \/
      (exists id0, e = EvLogException ns id0 /\ (id = id0 \/ In id0 ids)))
    (fire_ids call ids ns changed state st').2).
  { intros st'. eapply Forall_impl; [apply IH|]. simpl.
    intros e [(i & -> & Hi) | (i & -> & Hi)]; [left | right]; eauto. }
  destruct (dict_get _ id) as [f|]; [|apply Hweak].
  destruct (call f ns changed state id st) as [st1 raised].
  specialize (Hweak st1).
  destruct (fire_ids call ids ns changed state st1) as [st2 t]. simpl in *.
  constructor; [left; eauto|].
  destruct raised; simpl; [constructor; [right; eauto|]|]; exact Hweak.
Qed.

(** Observers that leave the registrations alone are all called, in the
    order of their registration, whether or not some of them raise. *)
Lemma fire_ids_deliver ids ns changed state st :
  preserves_observers call ->
  (forall id, In id ids ->
     dict_mem (_onStateChangedCallbacks (get st ns)) id = true) ->
  calls (fire_ids call ids ns changed state st).2
  = map (EvCallback ns changed state) ids.
Proof.
  intros Hcall. revert st. induction ids as [|id ids IH]; intros st Hreg; simpl; [done|].
  pose proof (Hreg id (or_introl eq_refl)) as Hid. unfold dict_mem in Hid.
  destruct (dict_get _ id) as [f|]; [|done].
  destruct (call f ns changed state id st) as [st1 raised] eqn:E.
  specialize (IH st1).
  destruct (fire_ids call ids ns changed state st1) as [st2 t]. simpl in *.
  f_equal.
  assert (Ht : calls t = map (EvCallback ns changed state) ids).
  { apply IH. intros id' Hin.
    specialize (Hcall f ns changed state id st ns). rewrite E in Hcall. simpl in Hcall.
    rewrite Hcall. apply Hreg. by right. }
  destruct raised; simpl; exact Ht.
Qed.

(** Raising changes nothing but the log. *)
Lemma fire_ids_mute ids ns changed state st :
  fire_ids (mute call) ids ns changed state st
  = ((fire_ids call ids ns changed state st).1,
     unlogged (fire_ids call ids ns changed state st).2).
Proof.
  revert st. induction ids as [|id ids IH]; intros st; simpl; [done|].
  destruct (dict_get _ id) as [f|]; [|apply IH].
  unfold mute at 1. destruct (call f ns changed state id st) as [st1 raised]. simpl.
  rewrite IH. destruct (fire_ids call ids ns changed state st1) as [st2 t]. simpl.
  destruct raised; reflexivity.
Qed.

Lemma fire_ids_app ids1 ids2 ns changed state st :
  fire_ids call (ids1 ++ ids2) ns changed state st
  = let '(st1, t1) := fire_ids call ids1 ns changed state st in
    let '(st2, t2) := fire_ids call ids2 ns changed state st1 in
    (st2, t1 ++ t2).
Proof.
  revert st. induction ids1 as [|id ids1 IH]; intros st; simpl.
  - by destruct (fire_ids call ids2 ns changed state st).
  - destruct (dict_get _ id) as [f|]; [|apply IH].
    destruct (call f ns changed state id st) as [st1 raised].
    rewrite IH. destruct (fire_ids call ids1 ns changed state st1) as [st2 t].
    destruct (fire_ids call ids2 ns changed state st2) as [st3 t3].
    destruct raised; reflexivity.
Qed.

(** An identifier that is no longer registered when its turn comes is not
    called at all. *)
Lemma fire_ids_skip pre id post ns changed state st :
  NoDup (pre ++ id :: post) ->
  dict_get (_onStateChangedCallbacks
              (get (fire_ids call pre ns changed state st).1 ns)) id = None ->
  ~ In (EvCallback ns changed state id)
       (fire_ids call (pre ++ id :: post) ns changed state st).2.
Proof.
  intros Hnd Hgone Hin. rewrite fire_ids_app in Hin.
  pose proof (fire_ids_events pre ns changed state st) as Hpre.
  destruct (fire_ids call pre ns changed state st) as [st1 t1]. simpl in *.
  rewrite Hgone in Hin.
  pose proof (fire_ids_events post ns changed state st1) as Hpost.
  destruct (fire_ids call post ns changed state st1) as [st2 t2]. simpl in *.
  apply NoDup_app in Hnd as (_ & Hdisj & Hnd2). apply NoDup_cons in Hnd2 as [Hnotin _].
  apply in_app_or in Hin as [Hin | Hin].
  - rewrite Forall_forall in Hpre. apply list_elem_of_In, Hpre in Hin.
    destruct Hin as [(i & [= <-] & Hi) | (i & [=] & _)].
    apply (Hdisj id); [by apply list_elem_of_In | left].
  - rewrite Forall_forall in Hpost. apply list_elem_of_In, Hpost in Hin.
    destruct Hin as [(i & [= <-] & Hi) | (i & [=] & _)].
    apply Hnotin. by apply list_elem_of_In.
Qed.

Lemma fire_ids_observers ids ns changed state st n :
  preserves_observers call ->
  _onStateChangedCallbacks (get (fire_ids call ids ns changed state st).1 n)
  = _onStateChangedCallbacks (get st n).
Proof.
  intros Hcall. revert st. induction ids as [|id ids IH]; intros st; simpl; [done|].
  destruct (dict_get _ id) as [f|]; [|apply IH].
  destruct (call f ns changed state id st) as [st1 raised] eqn:E.
  specialize (IH st1).
  destruct (fire_ids call ids ns changed state st1) as [st2 t]. simpl in *.
  rewrite IH. specialize (Hcall f ns changed state id st n). by rewrite E in Hcall.
Qed.

Lemma on_chain_mono chain chain' self state e :
  (forall n, In n chain -> In n chain') ->
  on_chain chain self state e -> on_chain chain' self state e.
Proof. intros H. destruct e; simpl; intuition. Qed.

(** The walk up the ancestors ends at the root and visits no other node. *)
Lemma fire_up_total st0 self state fuel : forall st cur N0,
  wf st0 -> extends st0 st -> preserves_tree call ->
  node st0 cur = Some N0 -> (length (_name N0) < fuel)%nat ->
  exists st' t,
    fire_up call fuel (Some cur) self state st = Some (st', t) /\
    extends st st' /\
    Forall (on_chain (ancestors fuel st0 (Some cur)) self state) t.
Proof.
  induction fuel as [|fuel IH]; intros st cur N0 Hwf Hext Hcall Hcur Hfuel; [lia|].
  simpl. unfold _fireOnStateChanged.
  pose proof (fire_ids_extends
    (dict_keys (_onStateChangedCallbacks (get st cur))) cur self state st Hcall) as Hext1.
  pose proof (fire_ids_events
    (dict_keys (_onStateChangedCallbacks (get st cur))) cur self state st) as Hev1.
  destruct (fire_ids call _ cur self state st) as [st1 t1]. simpl in *.
  assert (Hext01 : extends st0 st1) by (eapply extends_trans; eauto).
  destruct (Hext01 cur N0 Hcur) as (N1 & Hcur1 & _ & Hp1 & _).
  rewrite (get_node _ _ _ Hcur1), Hp1, (get_node _ _ _ Hcur).
  assert (Hhere : Forall (on_chain (cur :: ancestors fuel st0 (_parent N0)) self state) t1).
  { eapply Forall_impl; [exact Hev1|]. simpl.
    intros e [(i & -> & _) | (i & -> & _)]; simpl; auto. }
  destruct (_parent N0) as [p|] eqn:Hp.
  - destruct (Hwf cur N0 Hcur) as (Hpar & _).
    destruct (Hpar p Hp) as (P & c & HP & Hname).
    destruct (IH st1 p P Hwf Hext01 Hcall HP) as (st2 & t2 & Hrun & Hext2 & Hev2).
    { rewrite Hname, length_app in Hfuel. simpl in Hfuel. lia. }
    rewrite Hrun. exists st2, (t1 ++ t2). split; [done|]. split.
    + eapply extends_trans; eauto.
    + apply Forall_app. split; [exact Hhere|].
      eapply Forall_impl; [exact Hev2|]. intros e. apply on_chain_mono. simpl. auto.
  - exists st1, (t1 ++ []). destruct fuel; simpl; (split; [done|]);
      (split; [done|]); rewrite app_nil_r; exact Hhere.
Qed.

(** With observers that leave the registrations alone, the walk calls every
    observer of the node and of its ancestors. *)
Lemma fire_up_deliver st0 self state fuel : forall st cur N0,
  wf st0 -> extends st0 st -> preserves_tree call -> preserves_observers call ->
  node st0 cur = Some N0 -> (length (_name N0) < fuel)%nat ->
  forall st' t,
    fire_up call fuel (Some cur) self state st = Some (st', t) ->
    calls t
    = flat_map (fun ns =>
          map (EvCallback ns self state)
              (dict_keys (_onStateChangedCallbacks (get st ns))))
        (ancestors fuel st0 (Some cur)).
Proof.
  induction fuel as [|fuel IH]; intros st cur N0 Hwf Hext Hcall Hobs Hcur Hfuel st' t;
    [lia|].
  simpl. unfold _fireOnStateChanged.
  pose proof (fire_ids_extends
    (dict_keys (_onStateChangedCallbacks (get st cur))) cur self state st Hcall) as Hext1.
  pose proof (fire_ids_deliver
    (dict_keys (_onStateChangedCallbacks (get st cur))) cur self state st Hobs) as Hd1.
  pose proof (fun n => fire_ids_observers
    (dict_keys (_onStateChangedCallbacks (get st cur))) cur self state st n Hobs) as Ho1.
  destruct (fire_ids call _ cur self state st) as [st1 t1]. simpl in *.
  assert (Hext01 : extends st0 st1) by (eapply extends_trans; eauto).
  destruct (Hext01 cur N0 Hcur) as (N1 & Hcur1 & _ & Hp1 & _).
  rewrite (get_node _ _ _ Hcur1), Hp1, (get_node _ _ _ Hcur).
  assert (Ht1 : calls t1 = map (EvCallback cur self state)
                             (dict_keys (_onStateChangedCallbacks (get st cur)))).
  { apply Hd1. intros id Hin. apply dict_keys_get in Hin as [f Hf].
    unfold dict_mem. by rewrite Hf. }
  destruct (_parent N0) as [p|] eqn:Hp.
  - destruct (Hwf cur N0 Hcur) as (Hpar & _).
    destruct (Hpar p Hp) as (P & c & HP & Hname).
    destruct (fire_up call fuel (Some p) self state st1) as [[st2 t2]|] eqn:Hrun; [|done].
    intros [= <- <-]. unfold calls in *. rewrite List.filter_app, Ht1. f_equal.
    rewrite (IH st1 p P Hwf Hext01 Hcall Hobs HP) with (st' := st2) (t := t2); [| |done].
    + apply flat_map_ext. intros n. by rewrite Ho1.
    + rewrite Hname, length_app in Hfuel. simpl in Hfuel. lia.
  - assert (Hnone : fire_up call fuel None self state st1 = Some (st1, []))
      by (by destruct fuel).
    rewrite Hnone. intros [= <- <-]. unfold calls in *.
    rewrite List.filter_app, Ht1. simpl. destruct fuel; simpl; by rewrite !app_nil_r.
Qed.

Lemma unlogged_app t1 t2 : unlogged (t1 ++ t2) = unlogged t1 ++ unlogged t2.
Proof. apply List.filter_app. Qed.

Lemma fire_up_mute fuel : forall o self state st,
  fire_up (mute call) fuel o self state st
  = match fire_up call fuel o self state st with
    | Some (st', t) => Some (st', unlogged t)
    | None => None
    end.
Proof.
  induction fuel as [|fuel IH]; intros [ns|] self state st; simpl; try done.
  unfold _fireOnStateChanged. rewrite fire_ids_mute.
  destruct (fire_ids call _ ns self state st) as [st1 t1]. simpl.
  rewrite IH. destruct (fire_up call fuel _ self state st1) as [[st2 t2]|]; [|done].
  by rewrite unlogged_app.
Qed.

Lemma setState_mute fuel self state st :
  _setState (mute call) fuel self state st
  = match _setState call fuel self state st with
    | Some (st', t) => Some (st', unlogged t)
    | None => None
    end.
Proof.
  unfold _setState. rewrite fire_up_mute.
  by destruct (fire_up call fuel _ self state _) as [[st1 t]|].
Qed.

(** The chain of [ancestors] ends at the root. *)
Lemma getRoot_ancestors st fuel : forall cur N,
  wf st -> node st cur = Some N -> (length (_name N) < fuel)%nat ->
  exists r, getRoot fuel st cur = Some r /\
            In r (ancestors fuel st (Some cur)) /\ _parent (get st r) = None.
Proof.
  induction fuel as [|fuel IH]; intros cur N Hwf Hcur Hfuel; [lia|].
  simpl. rewrite (get_node _ _ _ Hcur).
  destruct (_parent N) as [p|] eqn:Hp.
  - destruct (Hwf cur N Hcur) as (Hpar & _).
    destruct (Hpar p Hp) as (P & c & HP & Hname).
    destruct (IH p P Hwf HP) as (r & Hr & Hin & Hroot).
    { rewrite Hname, length_app in Hfuel. simpl in Hfuel. lia. }
    exists r. auto.
  - exists cur. rewrite (get_node _ _ _ Hcur). auto.
Qed.

Lemma set_state_extends st self state : extends st (update st self (set_state state)).
Proof. apply extends_update. intros N. simpl. auto. Qed.

(** [_setState] returns, writes the state once, and then only dispatches. *)
Lemma setState_total st0 st self N0 state fuel :
  wf st0 -> extends st0 st -> preserves_tree call ->
  node st0 self = Some N0 -> (length (_name N0) < fuel)%nat ->
  exists st' t,
    _setState call fuel self state st = Some (st', EvSetState self state :: t) /\
    extends st st' /\
    Forall (on_chain (ancestors fuel st0 (Some self)) self state) t.
Proof.
  intros Hwf Hext Hcall Hself Hfuel. unfold _setState.
  pose proof (set_state_extends st self state) as Hs.
  destruct (fire_up_total st0 self state fuel (update st self (set_state state))
              self N0 Hwf) as (st' & t & Hrun & Hext' & Hev); try done.
  { eapply extends_trans; eauto. }
  rewrite Hrun. exists st', t. split; [done|]. split; [|done].
  eapply extends_trans; eauto.
Qed.

(** The names on the chain of [ancestors] are prefixes of the node's name:
    no descendant of the node is on it. *)
Lemma ancestors_prefix st fuel : forall cur N a,
  wf st -> node st cur = Some N -> In a (ancestors fuel st (Some cur)) ->
  exists k, _name N = _name (get st a) ++ k.
Proof.
  induction fuel as [|fuel IH]; intros cur N a Hwf Hcur; simpl; [done|].
  rewrite (get_node _ _ _ Hcur). intros [<- | Hin].
  - exists []. by rewrite (get_node _ _ _ Hcur), app_nil_r.
  - destruct (_parent N) as [p|] eqn:Hp; [|by destruct fuel].
    destruct (Hwf cur N Hcur) as (Hpar & _).
    destruct (Hpar p Hp) as (P & c & HP & Hname).
    destruct (IH p P a Hwf HP Hin) as [k Hk].
    exists (k ++ [c]). by rewrite Hname, Hk, app_assoc.
Qed.

Lemma get_update_callbacks st self state n :
  _onStateChangedCallbacks (get (update st self (set_state state)) n)
  = _onStateChangedCallbacks (get st n).
Proof.
  unfold get. rewrite node_update. destruct (decide (n = self)) as [->|]; [|done].
  by destruct (node st self).
Qed.

(** One more turn of the loop: the identifier is looked up in the store that
    the turns before it have left; if it is registered there its callback is
    called in that store, and the store it leaves is the one of the next
    turn. *)
Lemma fire_ids_turn ids id ns changed state st :
  fire_ids call (ids ++ [id]) ns changed state st
  = let s := (fire_ids call ids ns changed state st).1 in
    let t := (fire_ids call ids ns changed state st).2 in
    match dict_get (_onStateChangedCallbacks (get s ns)) id with
    | Some f =>
        ((call f ns changed state id s).1,
         t ++ EvCallback ns changed state id
              :: (if (call f ns changed state id s).2
                  then [EvLogException ns id] else []))
    | None => (s, t)
    end.
Proof.
  rewrite fire_ids_app.
  destruct (fire_ids call ids ns changed state st) as [s t]. cbn [fire_ids fst snd].
  destruct (dict_get (_onStateChangedCallbacks (get s ns)) id) as [f|].
  - destruct (call f ns changed state id s) as [s1 raised]. cbn [fst snd].
    by rewrite app_nil_r.
  - by rewrite app_nil_r.
Qed.

(** An identifier that is registered when its turn comes is called, and its
    exception, if it raises one, is logged. *)
Lemma fire_ids_called pre id post ns changed state st f :
  dict_get (_onStateChangedCallbacks
              (get (fire_ids call pre ns changed state st).1 ns)) id = Some f ->
  In (EvCallback ns changed state id)
     (fire_ids call (pre ++ id :: post) ns changed state st).2 /\
  ((call f ns changed state id (fire_ids call pre ns changed state st).1).2 = true ->
   In (EvLogException ns id)
      (fire_ids call (pre ++ id :: post) ns changed state st).2).
Proof.
  intros Hreg. rewrite fire_ids_app.
  destruct (fire_ids call pre ns changed state st) as [st1 t1]. simpl in *.
  rewrite Hreg. destruct (call f ns changed state id st1) as [st2 raised].
  destruct (fire_ids call post ns changed state st2) as [st3 t3]. simpl.
  split.
  - apply in_or_app. right. by left.
  - intros ->. apply in_or_app. right. right. by left.
Qed.

(** The calls of the loop are made in the order of the copied key list, each
    identifier at most once. *)
Lemma fire_ids_sublist ids ns changed state st :
  sublist (calls (fire_ids call ids ns changed state st).2)
          (map (EvCallback ns changed state) ids).
Proof.
  revert st. induction ids as [|id ids IH]; intros st; simpl; [constructor|].
  destruct (dict_get _ id) as [f|]; [|by apply sublist_cons].
  destruct (call f ns changed state id st) as [st1 raised].
  specialize (IH st1).
  destruct (fire_ids call ids ns changed state st1) as [st2 t]. simpl in *.
  apply sublist_skip. by destruct raised.
Qed.

Lemma ancestors_fuel st fuel : forall fuel' cur N,
  wf st -> node st cur = Some N ->
  (length (_name N) < fuel)%nat -> (length (_name N) < fuel')%nat ->
  ancestors fuel st (Some cur) = ancestors fuel' st (Some cur).
Proof.
  induction fuel as [|fuel IH]; intros fuel' cur N Hwf Hcur Hfuel Hfuel'; [lia|].
  destruct fuel' as [|fuel']; [lia|]. simpl. f_equal.
  rewrite (get_node _ _ _ Hcur).
  destruct (_parent N) as [p|] eqn:Hp; [|by destruct fuel, fuel'].
  destruct (Hwf cur N Hcur) as (Hpar & _). destruct (Hpar p Hp) as (P & c & HP & Hname).
  rewrite Hname, length_app in Hfuel, Hfuel'. simpl in Hfuel, Hfuel'.
  apply (IH fuel' p P); (done || lia).
Qed.

(** The walk up the parents is the dispatch to the ancestors that the node
    had before: the callbacks keep the tree, so the chain does not change
    under the walk. *)
Lemma fire_up_dispatch st0 self state fuel : forall st cur N0,
  wf st0 -> extends st0 st -> preserves_tree call ->
  node st0 cur = Some N0 -> (length (_name N0) < fuel)%nat ->
  fire_up call fuel (Some cur) self state st
  = Some (dispatch call (ancestors fuel st0 (Some cur)) self state st).
Proof.
  induction fuel as [|fuel IH]; intros st cur N0 Hwf Hext Hcall Hcur Hfuel; [lia|].
  simpl. unfold _fireOnStateChanged.
  pose proof (fire_ids_extends
    (dict_keys (_onStateChangedCallbacks (get st cur))) cur self state st Hcall) as Hext1.
  destruct (fire_ids call _ cur self state st) as [st1 t1]. simpl in *.
  assert (Hext01 : extends st0 st1) by (eapply extends_trans; eauto).
  destruct (Hext01 cur N0 Hcur) as (N1 & Hcur1 & _ & Hp1 & _).
  rewrite (get_node _ _ _ Hcur1), Hp1, (get_node _ _ _ Hcur).
  destruct (_parent N0) as [p|] eqn:Hp.
  - destruct (Hwf cur N0 Hcur) as (Hpar & _).
    destruct (Hpar p Hp) as (P & c & HP & Hname).
    rewrite (IH st1 p P Hwf Hext01 Hcall HP)
      by (rewrite Hname, length_app in Hfuel; simpl in Hfuel; lia).
    by destruct (dispatch call _ self state st1).
  - by destruct fuel.
Qed.

Lemma setState_dispatch st0 st self N0 state fuel :
  wf st0 -> extends st0 st -> preserves_tree call ->
  node st0 self = Some N0 -> (length (_name N0) < fuel)%nat ->
  _setState call fuel self state st
  = Some ((dispatch call (ancestors fuel st0 (Some self)) self state
             (update st self (set_state state))).1,
          EvSetState self state
            :: (dispatch call (ancestors fuel st0 (Some self)) self state
                  (update st self (set_state state))).2).
Proof.
  intros Hwf Hext Hcall Hself Hfuel. unfold _setState.
  rewrite (fire_up_dispatch st0 self state fuel _ self N0 Hwf
             (extends_trans _ _ _ Hext (set_state_extends st self state)) Hcall Hself Hfuel).
  by destruct (dispatch call _ self state _).
Qed.

Lemma fire_ids_observes_only ids ns changed state st :
  observes_only call -> (fire_ids call ids ns changed state st).1 = st.
Proof.
  intros Hcall. revert st. induction ids as [|id ids IH]; intros st; simpl; [done|].
  destruct (dict_get _ id) as [f|]; [|apply IH].
  pose proof (Hcall f ns changed state id st) as Hsame.
  destruct (call f ns changed state id st) as [st1 raised]. simpl in Hsame. subst st1.
  specialize (IH st). by destruct (fire_ids call ids ns changed state st).
Qed.

Lemma dispatch_observes_only chain self state st :
  observes_only call -> (dispatch call chain self state st).1 = st.
Proof.
  intros Hcall. revert st. induction chain as [|ns chain IH]; intros st; simpl; [done|].
  unfold _fireOnStateChanged.
  pose proof (fire_ids_observes_only
    (dict_keys (_onStateChangedCallbacks (get st ns))) ns self state st Hcall) as Hsame.
  destruct (fire_ids call _ ns self state st) as [st1 t1]. simpl in Hsame. subst st1.
  specialize (IH st). by destruct (dispatch call chain self state st).
Qed.

Lemma dispatch_deliver chain self state st :
  preserves_observers call ->
  calls (dispatch call chain self state st).2
  = flat_map (fun ns =>
        map (EvCallback ns self state)
            (dict_keys (_onStateChangedCallbacks (get st ns))))
      chain.
Proof.
  intros Hobs. revert st. induction chain as [|ns chain IH]; intros st; simpl; [done|].
  unfold _fireOnStateChanged.
  pose proof (fire_ids_deliver
    (dict_keys (_onStateChangedCallbacks (get st ns))) ns self state st Hobs) as Hd1.
  pose proof (fun n => fire_ids_observers
    (dict_keys (_onStateChangedCallbacks (get st ns))) ns self state st n Hobs) as Ho1.
  destruct (fire_ids call _ ns self state st) as [st1 t1]. simpl in *.
  specialize (IH st1). destruct (dispatch call chain self state st1) as [st2 t2].
  simpl in *. unfold calls in *. rewrite List.filter_app, IH, Hd1.
  - f_equal. apply flat_map_ext. intros n. by rewrite Ho1.
  - intros id Hin. apply dict_keys_get in Hin as [f Hf]. unfold dict_mem. by rewrite Hf.
Qed.

Lemma dispatch_observers chain self state st n :
  preserves_observers call ->
  _onStateChangedCallbacks (get (dispatch call chain self state st).1 n)
  = _onStateChangedCallbacks (get st n).
Proof.
  intros Hobs. revert st. induction chain as [|ns chain IH]; intros st; simpl; [done|].
  unfold _fireOnStateChanged.
  pose proof (fire_ids_observers
    (dict_keys (_onStateChangedCallbacks (get st ns))) ns self state st n Hobs) as Ho1.
  destruct (fire_ids call _ ns self state st) as [st1 t1]. simpl in *.
  specialize (IH st1). destruct (dispatch call chain self state st1) as [st2 t2].
  simpl in *. by rewrite IH.
Qed.

Lemma callbacks_update st ns f n :
  (forall N, _onStateChangedCallbacks (f N) = _onStateChangedCallbacks N) ->
  _onStateChangedCallbacks (get (update st ns f) n)
  = _onStateChangedCallbacks (get st n).
Proof.
  intros Hf. unfold get. rewrite node_update. destruct (decide (n = ns)) as [->|]; [|done].
  destruct (node st ns); simpl; [apply Hf | done].
Qed.

(** C5.  Setting the state of a node returns and calls observers only on the
    node and on its ancestors up to the root (their names are prefixes of the
    node's name, so no descendant is visited), each with the arguments
    (observer's namespace, changed node, new state, observer id).  The state
    is written first; then the loop of [_fireOnStateChanged] runs on the node
    and on each of its ancestors in turn, whatever the observers do to the
    registrations and whether or not they raise.  The loop runs over a copy
    of the keys: an identifier that a callback has removed before its turn is
    not called, an identifier that is registered when its turn comes is
    called, only identifiers of the copy are called, in the order of the
    copy and each at most once; each turn is taken in the store that the
    turns before it have left, and a callback that is called leaves its store
    to the next turn.  So when the observers leave the registrations alone,
    every registered observer of these nodes is called.
    An exception raised by an observer is logged and changes neither the
    calls made nor the resulting store. *)
Theorem setState_notifies_node_and_ancestors (st : Store) (self : NodeId)
    (N : Namespace) (state : Z) (fuel : nat) :
  wf st -> node st self = Some N -> (length (_name N) < fuel)%nat ->
  preserves_tree call ->
  exists st' t,
    _setState call fuel self state st = Some (st', EvSetState self state :: t) /\
    (exists root, getRoot fuel st self = Some root /\
                  In root (ancestors fuel st (Some self))) /\
    (forall a, In a (ancestors fuel st (Some self)) ->
               isPrefixOf (_name (get st a)) (_name N) = true) /\
    Forall (on_chain (ancestors fuel st (Some self)) self state) t /\
    (preserves_observers call -> calls t = deliveries fuel st self state) /\
    (forall ns changed state0 st0 pre id post,
       dict_keys (_onStateChangedCallbacks (get st0 ns)) = pre ++ id :: post ->
       NoDup (pre ++ id :: post) ->
       dict_get (_onStateChangedCallbacks
                   (get (fire_ids call pre ns changed state0 st0).1 ns)) id = None ->
       ~ In (EvCallback ns changed state0 id)
            (_fireOnStateChanged call ns changed state0 st0).2) /\
    (forall ns changed state0 st0 ns' changed' state' id,
       In (EvCallback ns' changed' state' id)
          (_fireOnStateChanged call ns changed state0 st0).2 ->
       In id (dict_keys (_onStateChangedCallbacks (get st0 ns)))) /\
    _setState (mute call) fuel self state st
    = Some (st', EvSetState self state :: unlogged t) /\
    (st', t) = dispatch call (ancestors fuel st (Some self)) self state
                 (update st self (set_state state)) /\
    (forall ns changed state0 st0 pre id post f,
       dict_keys (_onStateChangedCallbacks (get st0 ns)) = pre ++ id :: post ->
       dict_get (_onStateChangedCallbacks
                   (get (fire_ids call pre ns changed state0 st0).1 ns)) id = Some f ->
       In (EvCallback ns changed state0 id)
          (_fireOnStateChanged call ns changed state0 st0).2 /\
       ((call f ns changed state0 id (fire_ids call pre ns changed state0 st0).1).2 = true ->
        In (EvLogException ns id) (_fireOnStateChanged call ns changed state0 st0).2)) /\
    (forall ns changed state0 st0,
       sublist (calls (_fireOnStateChanged call ns changed state0 st0).2)
               (map (EvCallback ns changed state0)
                    (dict_keys (_onStateChangedCallbacks (get st0 ns))))) /\
    (forall ids id ns changed state0 st0,
       fire_ids call (ids ++ [id]) ns changed state0 st0
       = let s := (fire_ids call ids ns changed state0 st0).1 in
         let t0 := (fire_ids call ids ns changed state0 st0).2 in
         match dict_get (_onStateChangedCallbacks (get s ns)) id with
         | Some f =>
             ((call f ns changed state0 id s).1,
              t0 ++ EvCallback ns changed state0 id
                    :: (if (call f ns changed state0 id s).2
                        then [EvLogException ns id] else []))
         | None => (s, t0)
         end).
Proof.
  intros Hwf Hself Hfuel Hcall.
  destruct (setState_total st st self N state fuel Hwf (extends_refl st) Hcall Hself Hfuel)
    as (st' & t & Hrun & _ & Hev).
  exists st', t. split; [exact Hrun|].
  split; [|split; [|split; [exact Hev|split; [|split; [|split; [|split; [|split; [|split; [|split]]]]]]]]].
  - destruct (getRoot_ancestors st fuel self N Hwf Hself Hfuel) as (r & Hr & Hin & _).
    eauto.
  - intros a Hin. apply isPrefixOf_spec.
    eapply ancestors_prefix; eauto.
  - intros Hobs. unfold _setState in Hrun.
    destruct (fire_up call fuel (Some self) self state (update st self (set_state state)))
      as [[st1 t1]|] eqn:Hup; [|done].
    injection Hrun as <- <-.
    rewrite (fire_up_deliver st self state fuel _ self N Hwf
               (set_state_extends st self state) Hcall Hobs Hself Hfuel _ _ Hup).
    unfold deliveries. apply flat_map_ext. intros n.
    by rewrite get_update_callbacks.
  - intros ns changed state0 st0 pre id post Hkeys Hnd Hgone.
    unfold _fireOnStateChanged. rewrite Hkeys. by apply fire_ids_skip.
  - intros ns changed state0 st0 ns' changed' state' id Hin.
    unfold _fireOnStateChanged in Hin.
    pose proof (fire_ids_events
      (dict_keys (_onStateChangedCallbacks (get st0 ns))) ns changed state0 st0) as Hev0.
    rewrite Forall_forall in Hev0. apply list_elem_of_In, Hev0 in Hin.
    destruct Hin as [(i & [= _ _ _ ->] & Hi) | (i & [=] & _)]. done.
  - rewrite setState_mute, Hrun. reflexivity.
  - rewrite (setState_dispatch st st self N state fuel Hwf (extends_refl st) Hcall Hself
               Hfuel) in Hrun.
    injection Hrun as <- <-. by destruct (dispatch call _ self state _).
  - intros ns changed state0 st0 pre id post f Hkeys Hreg.
    unfold _fireOnStateChanged. rewrite Hkeys. by apply (fire_ids_called pre id post).
  - intros ns changed state0 st0. apply fire_ids_sublist.
  - intros ids id ns changed state0 st0. apply fire_ids_turn.
Qed.

End Dispatch.

(** ** The name tree: attaching a Data packet *)

Section Attach.
Variable call : Callback -> NodeId -> NodeId -> Z -> Z -> Store -> Store * bool.
Variable transform : TransformContent -> Data -> TransformResult.

Lemma setData_attached fuel self data st attached :
  _data (get st self) = Some attached ->
  setData call transform fuel self data st = Some (Returns tt, st, []).
Proof. intros H. unfold setData. rewrite H. by rewrite bool_decide_eq_true_2. Qed.

(** C10.  On a node that has a Data packet attached, [setData] returns
    without raising whatever packet it is given, also one with another name:
    the store is the same afterwards (so [_data], [_content] and [_state] are
    unchanged) and nothing is dispatched.  A call that raises has therefore
    found no Data packet attached. *)
Theorem setData_checks_attachment_before_name (fuel : nat) (self : NodeId)
    (data : Data) (st : Store) :
  (forall attached, _data (get st self) = Some attached ->
     setData call transform fuel self data st = Some (Returns tt, st, [])) /\
  (forall e st' t,
     setData call transform fuel self data st = Some (Raises e, st', t) ->
     _data (get st self) = None) /\
  (_data (get st self) = None -> data_name data <> _name (get st self) ->
   setData call transform fuel self data st = Some (Raises RuntimeError, st, [])).
Proof.
  split; [|split].
  - intros attached H. by apply setData_attached with attached.
  - intros e st' t H. destruct (_data (get st self)) as [attached|] eqn:E; [|done].
    by rewrite (setData_attached fuel self data st attached E) in H.
  - intros Hnone Hname. unfold setData. rewrite Hnone.
    rewrite bool_decide_eq_false_2 by (by intros H; apply H).
    unfold equals. by rewrite bool_decide_eq_false_2.
Qed.

Lemma state_writes_app t1 t2 : state_writes (t1 ++ t2) = state_writes t1 ++ state_writes t2.
Proof.
  induction t1 as [|e t1 IH]; simpl; [done|]. destruct e; simpl; by rewrite ?IH.
Qed.

Lemma state_writes_dispatch chain self state t :
  Forall (on_chain chain self state) t -> state_writes t = [].
Proof.
  induction 1 as [|e t He _ IH]; simpl; [done|]. destruct e; simpl in *; done.
Qed.

Lemma getTransformContent_total st0 st fuel : forall cur N0,
  wf st0 -> extends st0 st -> node st0 cur = Some N0 ->
  (length (_name N0) < fuel)%nat ->
  exists r, _getTransformContent fuel st (Some cur) = Some r.
Proof.
  induction fuel as [|fuel IH]; intros cur N0 Hwf Hext HN0 Hfuel; [lia|]. simpl.
  destruct (_transformContent (get st cur)); [eauto|].
  destruct (Hext cur N0 HN0) as (N' & HN' & _ & Hp & _).
  rewrite (get_node _ _ _ HN'), Hp.
  destruct (_parent N0) as [p|] eqn:Hparent; [|destruct fuel; simpl; eauto].
  destruct (Hwf cur N0 HN0) as (Hpar & _). destruct (Hpar p Hparent) as (P & c & HP & Hname).
  apply (IH p P); try done. rewrite Hname, length_app in Hfuel. simpl in Hfuel. lia.
Qed.

Lemma getTransformContent_extends st0 st fuel : forall cur N0,
  wf st0 -> extends st0 st -> node st0 cur = Some N0 ->
  _getTransformContent fuel st0 (Some cur) = Some None ->
  _getTransformContent fuel st (Some cur) = Some None.
Proof.
  induction fuel as [|fuel IH]; intros cur N0 Hwf Hext Hcur; simpl; [done|].
  destruct (Hext cur N0 Hcur) as (N1 & Hcur1 & _ & Hp1 & Ht1 & _).
  rewrite (get_node _ _ _ Hcur), (get_node _ _ _ Hcur1), Ht1, Hp1.
  destruct (_transformContent N0); [done|].
  destruct (_parent N0) as [p|] eqn:Hp; [|by destruct fuel].
  destruct (Hwf cur N0 Hcur) as (Hpar & _).
  destruct (Hpar p Hp) as (P & c & HP & _).
  by apply IH with P.
Qed.

Lemma set_data_extends st self N data :
  node st self = Some N -> _data N = None ->
  extends st (update st self (set_data (Some data))).
Proof.
  intros Hself Hnone n X H. rewrite node_update.
  destruct (decide (n = self)) as [->|Hne].
  - rewrite H. simpl. eexists. split; [done|]. simpl. repeat split; auto.
    intros d Hd. congruence.
  - exists X. repeat split; auto.
Qed.

Lemma set_content_extends st self content :
  extends st (update st self (set_content content)).
Proof. apply extends_update. intros N. simpl. auto. Qed.

(** C4.  On a node without attached data, [setData] with a packet of another
    name raises RuntimeError and leaves the store as it is.  With a packet of
    the node's name, and no transform hook on the node or above it, it
    returns: it attaches the packet and writes the state DATA_RECEIVED, which
    is dispatched to the node and its ancestors; then it sets the content to
    the content of the packet and writes the state CONTENT_READY, which is
    dispatched in the same way.  The resulting store and trace are exactly
    those of these two dispatches; when the observers leave the registrations
    alone, every observer of the node and of its ancestors is called for
    DATA_RECEIVED and then for CONTENT_READY; and when the observers only
    observe, the node ends in the state CONTENT_READY with this packet and
    its content, and the other nodes are as before.  A second [setData] on
    the node, with any packet, returns with the store unchanged and
    dispatches nothing.  Whether or not there is a transform hook, [setData]
    with a packet of the node's name attaches the packet, writes
    DATA_RECEIVED and dispatches it before anything else, and a later
    [setData] changes nothing. *)
Theorem setData_attaches_once (fuel : nat) (self : NodeId) (N : Namespace)
    (data : Data) (st : Store) :
  wf st -> node st self = Some N -> _data N = None ->
  (length (_name N) < fuel)%nat ->
  preserves_tree call ->
  (data_name data <> _name N ->
   setData call transform fuel self data st = Some (Raises RuntimeError, st, [])) /\
  (data_name data = _name N ->
   _getTransformContent fuel st (Some self) = Some None ->
   exists st' t,
     setData call transform fuel self data st = Some (Returns tt, st', t) /\
     _data (get st' self) = Some data /\
     state_writes t = [(self, NamespaceState.DATA_RECEIVED);
                       (self, NamespaceState.CONTENT_READY)] /\
     head t = Some (EvSetState self NamespaceState.DATA_RECEIVED) /\
     (forall data',
        setData call transform fuel self data' st' = Some (Returns tt, st', [])) /\
     (let chain := ancestors fuel st (Some self) in
      let r1 := dispatch call chain self NamespaceState.DATA_RECEIVED
                  (update (update st self (set_data (Some data))) self
                     (set_state NamespaceState.DATA_RECEIVED)) in
      let r2 := dispatch call chain self NamespaceState.CONTENT_READY
                  (update (update r1.1 self (set_content (Some (data_content data))))
                     self (set_state NamespaceState.CONTENT_READY)) in
      st' = r2.1 /\
      t = EvSetState self NamespaceState.DATA_RECEIVED :: r1.2
          ++ EvSetState self NamespaceState.CONTENT_READY :: r2.2) /\
     (preserves_observers call ->
      calls t = deliveries fuel st self NamespaceState.DATA_RECEIVED
                ++ deliveries fuel st self NamespaceState.CONTENT_READY) /\
     (observes_only call ->
      _state (get st' self) = NamespaceState.CONTENT_READY /\
      _data (get st' self) = Some data /\
      _content (get st' self) = Some (data_content data) /\
      forall n, n <> self -> node st' n = node st n)) /\
  (data_name data = _name N ->
   let r1 := dispatch call (ancestors fuel st (Some self)) self
               NamespaceState.DATA_RECEIVED
               (update (update st self (set_data (Some data))) self
                  (set_state NamespaceState.DATA_RECEIVED)) in
   exists r st' t2,
     setData call transform fuel self data st
     = Some (r, st', EvSetState self NamespaceState.DATA_RECEIVED :: r1.2 ++ t2) /\
     _data (get st' self) = Some data /\
     extends r1.1 st' /\
     (state_writes t2 = [] \/
      state_writes t2 = [(self, NamespaceState.CONTENT_READY)]) /\
     (preserves_observers call ->
      calls r1.2 = deliveries fuel st self NamespaceState.DATA_RECEIVED) /\
     (observes_only call ->
      _state (get r1.1 self) = NamespaceState.DATA_RECEIVED /\
      _data (get r1.1 self) = Some data) /\
     (forall data',
        setData call transform fuel self data' st' = Some (Returns tt, st', []))).
Proof.
  intros Hwf Hself Hnone Hfuel Hcall.
  pose proof (get_node _ _ _ Hself) as Hget. split; [|split].
  - intros Hname. unfold setData. rewrite Hget, Hnone.
    rewrite bool_decide_eq_false_2 by (by intros H; apply H).
    unfold equals. by rewrite bool_decide_eq_false_2.
  - intros Hname Hhook. unfold setData. rewrite Hget, Hnone.
    rewrite bool_decide_eq_false_2 by (by intros H; apply H).
    unfold equals. rewrite bool_decide_eq_true_2 by done. simpl.
    pose proof (set_data_extends st self N data Hself Hnone) as Hext1.
    set (st1 := update st self (set_data (Some data))) in *.
    destruct (setState_total call st st1 self N NamespaceState.DATA_RECEIVED fuel
                Hwf Hext1 Hcall Hself Hfuel) as (st2 & t1 & Hrun1 & Hext2 & Hev1).
    rewrite Hrun1.
    assert (Hext02 : extends st st2) by (eapply extends_trans; eauto).
    rewrite (getTransformContent_extends st st2 fuel self N Hwf Hext02 Hself Hhook).
    unfold _onContentTransformed.
    pose proof (set_content_extends st2 self (Some (data_content data))) as Hext3.
    set (st3 := update st2 self (set_content (Some (data_content data)))) in *.
    assert (Hext03 : extends st st3) by (eapply extends_trans; eauto).
    destruct (setState_total call st st3 self N NamespaceState.CONTENT_READY fuel
                Hwf Hext03 Hcall Hself Hfuel) as (st4 & t2 & Hrun2 & Hext4 & Hev2).
    rewrite Hrun2. eexists _, _. split; [reflexivity|].
    assert (Hdata : _data (get st4 self) = Some data).
    { assert (H1 : node st1 self = Some (set_data (Some data) N)).
      { subst st1. rewrite node_update, decide_True by done. by rewrite Hself. }
      assert (Hext14 : extends st1 st4).
      { eapply extends_trans; [exact Hext2|]. eapply extends_trans; eauto. }
      destruct (Hext14 self _ H1) as (N4 & H4 & _ & _ & _ & _ & Hd).
      rewrite (get_node _ _ _ H4). by apply Hd. }
    pose proof (setState_dispatch call st st1 self N NamespaceState.DATA_RECEIVED fuel
                  Hwf Hext1 Hcall Hself Hfuel) as Hd1.
    rewrite Hrun1 in Hd1. injection Hd1 as Hst2 Ht1.
    pose proof (setState_dispatch call st st3 self N NamespaceState.CONTENT_READY fuel
                  Hwf Hext03 Hcall Hself Hfuel) as Hd2.
    rewrite Hrun2 in Hd2. injection Hd2 as Hst4 Ht2.
    split; [exact Hdata|]. split; [|split; [done|split; [|split; [|split]]]].
    + simpl. rewrite state_writes_app. simpl.
      by rewrite (state_writes_dispatch _ _ _ _ Hev1), (state_writes_dispatch _ _ _ _ Hev2).
    + intros data'. by apply setData_attached with data.
    + simpl. subst st3. rewrite Hst2 in Hst4, Ht2. subst st1. split; [exact Hst4|].
      simpl. by rewrite <- Ht1, <- Ht2.
    + intros Hobs. unfold calls. simpl. rewrite List.filter_app. simpl.
      fold (calls t1). fold (calls t2). rewrite Ht1, Ht2.
      rewrite !(dispatch_deliver call) by done. unfold deliveries. f_equal.
      * apply flat_map_ext. intros n. rewrite get_update_callbacks.
        subst st1. by rewrite callbacks_update.
      * apply flat_map_ext. intros n. rewrite get_update_callbacks.
        subst st3. rewrite callbacks_update by done. rewrite Hst2.
        rewrite (dispatch_observers call) by done. rewrite get_update_callbacks.
        subst st1. by rewrite callbacks_update.
    + intros Honly. rewrite Hst4, (dispatch_observes_only call) by done.
      subst st3. rewrite Hst2, (dispatch_observes_only call) by done. subst st1.
      assert (Hnode : forall n,
        node (update (update (update (update st self (set_data (Some data))) self
                                (set_state NamespaceState.DATA_RECEIVED)) self
                        (set_content (Some (data_content data)))) self
                (set_state NamespaceState.CONTENT_READY)) n
        = if decide (n = self)
          then Some (set_state NamespaceState.CONTENT_READY
                       (set_content (Some (data_content data))
                          (set_state NamespaceState.DATA_RECEIVED
                             (set_data (Some data) N))))
          else node st n).
      { intros n. rewrite !node_update. destruct (decide (n = self)) as [->|]; [|done].
        by rewrite Hself. }
      unfold get. rewrite (Hnode self), decide_True by done. simpl.
      split; [done|]. split; [done|]. split; [done|].
      intros n Hne. by rewrite (Hnode n), decide_False.
  - intros Hname. cbv zeta. unfold setData. rewrite Hget, Hnone.
    rewrite bool_decide_eq_false_2 by (by intros H; apply H).
    unfold equals. rewrite bool_decide_eq_true_2 by done. simpl.
    pose proof (set_data_extends st self N data Hself Hnone) as Hext1.
    set (st1 := update st self (set_data (Some data))) in *.
    destruct (setState_total call st st1 self N NamespaceState.DATA_RECEIVED fuel
                Hwf Hext1 Hcall Hself Hfuel) as (st2 & t1 & Hrun1 & Hext2 & Hev1).
    pose proof (setState_dispatch call st st1 self N NamespaceState.DATA_RECEIVED fuel
                  Hwf Hext1 Hcall Hself Hfuel) as Hd1.
    rewrite Hrun1 in Hd1. injection Hd1 as Hst2 Ht1. rewrite Hrun1, <- Hst2, <- Ht1.
    assert (Hext02 : extends st st2) by (eapply extends_trans; eauto).
    assert (H1 : node st1 self = Some (set_data (Some data) N)).
    { subst st1. rewrite node_update, decide_True by done. by rewrite Hself. }
    assert (Hkeep : forall st', extends st2 st' -> _data (get st' self) = Some data).
    { intros st' Hext'.
      destruct (extends_trans _ _ _ Hext2 Hext' self _ H1) as (N4 & H4 & _ & _ & _ & _ & Hd).
      rewrite (get_node _ _ _ H4). by apply Hd. }
    assert (Hcalls : preserves_observers call ->
      calls t1 = deliveries fuel st self NamespaceState.DATA_RECEIVED).
    { intros Hobs. rewrite Ht1, (dispatch_deliver call) by done. unfold deliveries.
      apply flat_map_ext. intros n. rewrite get_update_callbacks.
      subst st1. by rewrite callbacks_update. }
    assert (Honly : observes_only call ->
      _state (get st2 self) = NamespaceState.DATA_RECEIVED /\
      _data (get st2 self) = Some data).
    { intros Honly. rewrite Hst2, (dispatch_observes_only call) by done.
      unfold get. rewrite node_update, decide_True by done. by rewrite H1. }
    assert (Hcontent : forall content,
      exists st3 t3,
        _onContentTransformed call fuel self content st2 = Some (st3, t3) /\
        extends st2 st3 /\ state_writes t3 = [(self, NamespaceState.CONTENT_READY)]).
    { intros content. unfold _onContentTransformed.
      pose proof (set_content_extends st2 self (Some content)) as Hext3.
      destruct (setState_total call st
                  (update st2 self (set_content (Some content))) self N
                  NamespaceState.CONTENT_READY fuel Hwf
                  (extends_trans _ _ _ Hext02 Hext3) Hcall Hself Hfuel)
        as (st4 & t4 & -> & Hext4 & Hev4).
      eexists _, _. split; [done|]. split; [by eapply extends_trans|].
      simpl. by rewrite (state_writes_dispatch _ _ _ _ Hev4). }
    assert (Hafter : forall st', extends st2 st' -> forall data',
      setData call transform fuel self data' st' = Some (Returns tt, st', [])).
    { intros st' Hext' data'. apply setData_attached with data. by apply Hkeep. }
    destruct (getTransformContent_total st st2 fuel self N Hwf Hext02 Hself Hfuel)
      as [hook ->].
    destruct hook as [f|]; [destruct (transform f data) as [content| |e]|].
    + destruct (Hcontent content) as (st3 & t3 & -> & Hext3 & Hw3).
      exists (Returns tt), st3, t3. split; [done|]. split; [by apply Hkeep|].
      split; [done|]. split; [by right|]. split; [done|]. split; [done|].
      by apply Hafter.
    + exists (Returns tt), st2, []. rewrite app_nil_r. split; [done|].
      split; [apply Hkeep, extends_refl|]. split; [apply extends_refl|].
      split; [by left|]. split; [done|]. split; [done|]. apply Hafter, extends_refl.
    + exists (Raises e), st2, []. rewrite app_nil_r. split; [done|].
      split; [apply Hkeep, extends_refl|]. split; [apply extends_refl|].
      split; [by left|]. split; [done|]. split; [done|]. apply Hafter, extends_refl.
    + destruct (Hcontent (data_content data)) as (st3 & t3 & -> & Hext3 & Hw3).
      exists (Returns tt), st3, t3. split; [done|]. split; [by apply Hkeep|].
      split; [done|]. split; [by right|]. split; [done|]. split; [done|].
      by apply Hafter.
Qed.

End Attach.

(** ** The name tree: creating children *)

Section Children.
Variable call : Callback -> NodeId -> NodeId -> Z -> Z -> Store -> Store * bool.
Variable component_lt : Component -> Component -> bool.

Lemma createChild_unfold fuel self component fireCallbacks st :
  _createChild call component_lt fuel self component fireCallbacks st
  = let '(child, st2) := attach_child component_lt st self component in
    if fireCallbacks then
      match _setState call fuel self NamespaceState.NAME_EXISTS st2 with
      | Some (st3, t) => Some (child, st3, t)
      | None => None
      end
    else Some (child, st2, []).
Proof. reflexivity. Qed.


Lemma In_insort (a : list Component) (x k : Component) :
  In k (insort component_lt a x) <-> k = x \/ In k a.
Proof.
  unfold insort. set (i := bisect_right _ _ _ _ _ _).
  assert (Ha : In k a <-> In k (take i a) \/ In k (drop i a))
    by (by rewrite <- in_app_iff, take_drop).
  rewrite in_app_iff. simpl. split; [intros [H | [H | H]] | intros [H | H]]; auto.
  - right. apply Ha. auto.
  - right. apply Ha. auto.
  - apply Ha in H as [H | H]; auto.
Qed.

Section Attached.
Variables (st : Store) (self : NodeId) (N : Namespace) (c : Component).
Hypothesis Hself : node st self = Some N.
Hypothesis Habsent : dict_get (_children N) c = None.

Local Abbreviation child := (attach_child component_lt st self c).1.
Local Abbreviation st2 := (attach_child component_lt st self c).2.
Local Abbreviation C :=
  (set_parent (Some self) (Namespace_init (append (_name N) c))).
Local Abbreviation N2 :=
  (set_children (dict_set (_children N) c child)
     (insort component_lt (_sortedChildrenKeys N) c) N).

Lemma attach_child_fresh : node st child = None.
Proof. unfold attach_child, node. simpl. apply lookup_ge_None. lia. Qed.

Lemma attach_child_ne : child <> self.
Proof. intros H. pose proof attach_child_fresh as Hf. rewrite H, Hself in Hf. done. Qed.

Lemma attach_child_nodes :
  nodes st2 = alter (fun n => set_children (dict_set (_children n) c child)
                                (insort component_lt (_sortedChildrenKeys n) c) n)
                self (nodes st ++ [C]) /\
  child = length (nodes st).
Proof. unfold attach_child. simpl. by rewrite (get_node _ _ _ Hself). Qed.

Lemma attach_child_new : node st2 child = Some C.
Proof.
  destruct attach_child_nodes as [Hn Hc]. unfold node. rewrite Hn.
  rewrite list_lookup_alter_ne by (pose proof attach_child_ne; congruence).
  rewrite Hc, lookup_app_r by lia. by rewrite Nat.sub_diag.
Qed.

Lemma attach_child_self : node st2 self = Some N2.
Proof.
  destruct attach_child_nodes as [Hn Hc]. unfold node. rewrite Hn.
  rewrite list_lookup_alter_eq.
  unfold node in Hself. by rewrite (lookup_app_l_Some _ _ _ _ Hself).
Qed.

Lemma attach_child_other n X :
  n <> self -> node st n = Some X -> node st2 n = Some X.
Proof.
  intros Hne H. destruct attach_child_nodes as [Hn Hc]. unfold node. rewrite Hn.
  rewrite list_lookup_alter_ne by congruence. by apply lookup_app_l_Some.
Qed.

Lemma attach_child_inv n X :
  node st2 n = Some X ->
  (n = child /\ X = C) \/ (n = self /\ X = N2) \/ (n <> self /\ node st n = Some X).
Proof.
  intros H. destruct (decide (n = self)) as [->|Hne].
  - right; left. rewrite attach_child_self in H. by injection H as <-.
  - destruct attach_child_nodes as [Hn Hc]. unfold node in H. rewrite Hn in H.
    rewrite list_lookup_alter_ne in H by congruence.
    apply lookup_app_Some in H as [H | [Hge H]]; [auto|].
    left. destruct (n - length (nodes st))%nat as [|k] eqn:E; simpl in H; [|done].
    injection H as <-. split; [lia | done].
Qed.

Lemma attach_child_callbacks n :
  is_Some (node st n) ->
  _onStateChangedCallbacks (get st2 n) = _onStateChangedCallbacks (get st n).
Proof.
  intros [X HX]. destruct (decide (n = self)) as [->|Hne].
  - by rewrite (get_node _ _ _ attach_child_self), (get_node _ _ _ Hself).
  - by rewrite (get_node _ _ _ (attach_child_other n X Hne HX)), (get_node _ _ _ HX).
Qed.

Lemma attach_child_extends : extends st st2.
Proof.
  intros n X H. destruct (decide (n = self)) as [->|Hne].
  - rewrite Hself in H. injection H as <-. exists N2. split; [apply attach_child_self|].
    simpl. repeat split; auto.
    intros c' m Hc'. rewrite dict_get_set_ne; [done|]. congruence.
  - exists X. split; [by apply attach_child_other|]. repeat split; auto.
Qed.

Lemma attach_child_wf : wf st -> wf st2.
Proof.
  intros Hwf n X H.
  pose proof attach_child_extends as Hext.
  assert (Hkeep : forall m M, node st m = Some M ->
            exists M', node st2 m = Some M' /\ _name M' = _name M /\ _parent M' = _parent M).
  { intros m M HM. destruct (Hext m M HM) as (M' & ? & ? & ? & _). eauto. }
  apply attach_child_inv in H as [[-> ->] | [[-> ->] | [Hne H]]].
  - simpl. repeat split; try done.
    intros p [= <-]. exists N2, c. split; [apply attach_child_self | done].
  - destruct (Hwf self N Hself) as (Hpar & Hch & Hkeys). simpl.
    repeat split.
    + intros p Hp. destruct (Hpar p Hp) as (P & c' & HP & Hname).
      destruct (Hkeep p P HP) as (P' & HP' & Hn' & _).
      exists P', c'. split; [done | congruence].
    + intros c' m Hm. destruct (decide (c' = c)) as [->|Hne].
      * rewrite dict_get_set_eq in Hm. injection Hm as <-.
        exists C. split; [apply attach_child_new | done].
      * rewrite dict_get_set_ne in Hm by done.
        destruct (Hch c' m Hm) as (M & HM & Hn & Hp).
        destruct (Hkeep m M HM) as (M' & HM' & Hn' & Hp').
        exists M'. split; [done|]. split; congruence.
    + intros c' Hin. apply In_insort in Hin as [-> | Hin]; unfold dict_mem.
      * by rewrite dict_get_set_eq.
      * destruct (decide (c' = c)) as [->|Hne]; [by rewrite dict_get_set_eq|].
        rewrite dict_get_set_ne by done. by apply Hkeys.
  - destruct (Hwf n X H) as (Hpar & Hch & Hkeys). repeat split; [| |done].
    + intros p Hp. destruct (Hpar p Hp) as (P & c' & HP & Hname).
      destruct (Hkeep p P HP) as (P' & HP' & Hn' & _).
      exists P', c'. split; [done | congruence].
    + intros c' m Hm. destruct (Hch c' m Hm) as (M & HM & Hn & Hp).
      destruct (Hkeep m M HM) as (M' & HM' & Hn' & Hp').
      exists M'. split; [done|]. split; congruence.
Qed.

End Attached.

Lemma anc_extends st st' a d : extends st st' -> anc st a d -> anc st' a d.
Proof.
  intros Hext. induction 1 as [|d D p HD Hp _ IH]; [constructor|].
  destruct (Hext d D HD) as (D' & HD' & _ & Hp' & _).
  apply anc_parent with D' p; [done | congruence | done].
Qed.

Lemma anc_up st a d A p :
  anc st a d -> node st a = Some A -> _parent A = Some p -> anc st p d.
Proof.
  intros H HA Hp. induction H as [|d D q HD Hq _ IH].
  - apply anc_parent with A p; [done | done | constructor].
  - apply anc_parent with D q; auto.
Qed.

Lemma reach_extends st st' B k cur d :
  extends st st' -> reach st B k cur d -> reach st' B k cur d.
Proof.
  intros Hext. induction 1 as [cur N HN Hlen | k cur N c m d HN Hlen Hc Hm _ IH].
  - destruct (Hext cur N HN) as (N' & HN' & Hn' & _).
    apply reach_here with N'; [done | by rewrite Hn'].
  - destruct (Hext cur N HN) as (N' & HN' & Hn' & _ & _ & Hch & _).
    apply reach_step with N' c m; rewrite ?Hn'; auto.
Qed.

Lemma reach_valid st B k cur d : reach st B k cur d -> is_Some (node st d).
Proof. induction 1; eauto. Qed.

Lemma size_lt (a b : Name) : (size a <? size b) = true <-> (length a < length b)%nat.
Proof. unfold size. rewrite Z.ltb_lt. lia. Qed.

Lemma size_ge (a b : Name) : (size a <? size b) = false <-> (length b <= length a)%nat.
Proof. unfold size. rewrite Z.ltb_ge. lia. Qed.

Lemma reach_childless st B k cur d N :
  reach st B k cur d -> node st cur = Some N -> _children N = [] ->
  (length (_name N) < length B)%nat -> False.
Proof.
  intros H HN Hch Hlen. inversion H as [? X HX HlenX | ? ? X ? ? ? HX _ _ HchX _]; subst;
    rewrite HN in HX; injection HX as <-.
  - lia.
  - by rewrite Hch in HchX.
Qed.

(** A walk that finds every node creates nothing and dispatches nothing. *)
Lemma reach_run st B k cur d fuel :
  reach st B k cur d -> (k < fuel)%nat ->
  getChild_loop call component_lt fuel cur B st = Some (Returns d, st, []).
Proof.
  intros H. revert fuel.
  induction H as [cur N HN Hlen | k cur N c m d HN Hlen Hc Hm _ IH]; intros fuel Hfuel.
  - destruct fuel as [|fuel]; [lia|]. simpl.
    rewrite (get_node _ _ _ HN). by rewrite (proj2 (size_ge _ _) Hlen).
  - destruct fuel as [|fuel]; [lia|]. simpl.
    rewrite (get_node _ _ _ HN). rewrite (proj2 (size_lt _ _) Hlen).
    rewrite Hc, Hm. apply IH. lia.
Qed.

Lemma on_chain_dispatch chain self state t :
  Forall (on_chain chain self state) t -> Forall (dispatch_of self state) t.
Proof.
  intros H. eapply Forall_impl; [exact H|]. intros e. destruct e; simpl; intuition.
Qed.

Lemma attach_path_step fuel st cur N c (B : Name) :
  node st cur = Some N -> (length (_name N) < length B)%nat ->
  B !! length (_name N) = Some c ->
  attach_path component_lt (S fuel) cur B st
  = match dict_get (_children N) c with
    | Some child => attach_path component_lt fuel child B st
    | None =>
        attach_path component_lt fuel (attach_child component_lt st cur c).1 B
          (attach_child component_lt st cur c).2
    end.
Proof.
  intros Hcur Hlt Hc. cbn [attach_path]. rewrite (get_node _ _ _ Hcur).
  rewrite (proj2 (size_lt _ _)) by done. rewrite Hc.
  destruct (dict_get (_children N) c); [done|].
  by destruct (attach_child component_lt st cur c).
Qed.

Lemma attach_path_here fuel st d D (B : Name) :
  node st d = Some D -> (length B <= length (_name D))%nat ->
  attach_path component_lt fuel d B st = (d, st).
Proof.
  intros HD Hlen. destruct fuel as [|fuel]; [done|]. cbn [attach_path].
  rewrite (get_node _ _ _ HD). by rewrite (proj2 (size_ge _ _)).
Qed.

Lemma getChild_loop_spec (B : Name) : forall fuel st cur N,
  wf st -> preserves_tree call ->
  node st cur = Some N -> (exists k, B = _name N ++ k) ->
  (2 * length B - length (_name N) + 1 <= fuel)%nat ->
  exists d st' t steps,
    getChild_loop call component_lt fuel cur B st = Some (Returns d, st', t) /\
    extends st st' /\
    _name (get st' d) = B /\
    anc st' cur d /\
    reach st' B steps cur d /\
    (steps <= length B - length (_name N))%nat /\
    ((st' = st /\ t = []) \/
     (node st d = None /\ leaf_created call component_lt fuel cur B st st' d t)).
Proof.
  induction fuel as [|fuel IH]; intros st cur N Hwf Hcall Hcur [k Hk] Hfuel; [lia|].
  assert (HlenB : length B = (length (_name N) + length k)%nat)
    by (by rewrite Hk, length_app).
  simpl. rewrite (get_node _ _ _ Hcur).
  destruct (size (_name N) <? size B) eqn:Hsz.
  - apply size_lt in Hsz.
    destruct k as [|c k']; [simpl in HlenB; lia|].
    assert (Hc : B !! length (_name N) = Some c).
    { rewrite Hk. unfold Name. rewrite lookup_app_r by lia. by rewrite Nat.sub_diag. }
    rewrite Hc.
    assert (HkB : B = (_name N ++ [c]) ++ k') by (by rewrite <- app_assoc).
    destruct (dict_get (_children N) c) as [m|] eqn:Hm.
    + (* the child exists *)
      destruct (Hwf cur N Hcur) as (_ & Hch & _).
      destruct (Hch c m Hm) as (M & HM & HnM & HpM).
      destruct (IH st m M Hwf Hcall HM) as (d & st' & t & steps & Hrun & Hext & Hname & Hanc & Hreach & Hsteps & Ht).
      { exists k'. by rewrite HnM. }
      { rewrite HnM, length_app. simpl. simpl in HlenB. lia. }
      rewrite Hrun. exists d, st', t, (S steps).
      destruct (Hext cur N Hcur) as (N' & Hcur' & Hn' & _ & _ & Hch' & _).
      destruct (Hext m M HM) as (M' & HM' & _ & HpM' & _).
      assert (Hpath : forall f1, f1 = S fuel ->
        attach_path component_lt f1 cur B st = attach_path component_lt fuel m B st).
      { intros f1 ->. by rewrite (attach_path_step fuel st cur N c B Hcur Hsz Hc), Hm. }
      split; [done|]. split; [done|]. split; [done|].
      split; [apply anc_up with m M'; [done | done | congruence]|].
      split; [apply reach_step with N' c m; rewrite ?Hn'; auto|].
      split; [rewrite HnM, length_app in Hsteps; simpl in Hsteps; lia|].
      destruct Ht as [Hsame | [Hnone (p & created & Hp & Hrest)]]; [by left|].
      right. split; [done|]. exists p, created.
      split; [by rewrite (Hpath _ eq_refl)|exact Hrest].
    + (* the child is created *)
      rewrite createChild_unfold.
      assert (Hpath : forall f1, f1 = S fuel ->
        attach_path component_lt f1 cur B st
        = attach_path component_lt fuel (attach_child component_lt st cur c).1 B
            (attach_child component_lt st cur c).2).
      { intros f1 ->. by rewrite (attach_path_step fuel st cur N c B Hcur Hsz Hc), Hm. }
      pose proof (attach_child_fresh st cur c) as Hfresh.
      pose proof (attach_child_new st cur N c Hcur) as Hnew.
      pose proof (attach_child_self st cur N c Hcur) as Hself2.
      pose proof (attach_child_extends st cur N c Hcur Hm) as Hext2.
      pose proof (attach_child_wf st cur N c Hcur Hm Hwf) as Hwf2.
      pose proof (attach_child_callbacks st cur N c Hcur) as Hcb2.
      destruct (attach_child component_lt st cur c) as [child st2]. simpl in *.
      set (C := set_parent (Some cur) (Namespace_init (append (_name N) c))) in *.
      destruct (size (_name N) =? size B - 1) eqn:Hleaf.
      * (* the leaf: callbacks are fired *)
        apply Z.eqb_eq in Hleaf. unfold size in Hleaf.
        assert (Hk' : k' = []) by (destruct k'; [done | simpl in HlenB; lia]).
        subst k'. rewrite app_nil_r in HkB.
        destruct (setState_total call st2 st2 cur _ NamespaceState.NAME_EXISTS fuel
                    Hwf2 (extends_refl _) Hcall Hself2)
          as (st3 & t' & Hrun & Hext3 & Hev).
        { simpl. simpl in HlenB. lia. }
        rewrite Hrun.
        destruct (Hext3 child C Hnew) as (C3 & HC3 & HnC3 & HpC3 & _).
        destruct (Hext3 cur _ Hself2) as (N3 & HN3 & HnN3 & _ & _ & HchN3 & _).
        assert (HnameC3 : _name C3 = B) by (rewrite HnC3, HkB; reflexivity).
        assert (Hret : getChild_loop call component_lt fuel child B st3
                       = Some (Returns child, st3, [])).
        { apply reach_run with 0%nat; [|simpl in HlenB; lia].
          apply reach_here with C3; [done | by rewrite HnameC3]. }
        rewrite Hret. exists child, st3, ((EvSetState cur NamespaceState.NAME_EXISTS :: t') ++ []), 1%nat.
        split; [done|]. split; [eapply extends_trans; eauto|].
        split; [by rewrite (get_node _ _ _ HC3)|].
        split; [apply anc_parent with C3 cur; [done | by rewrite HpC3 | constructor]|].
        split.
        -- apply reach_step with N3 c child; rewrite ?HnN3; simpl; auto.
           ++ apply HchN3. simpl. apply dict_get_set_eq.
           ++ apply reach_here with C3; [done | by rewrite HnameC3].
        -- split; [simpl in HlenB; lia|].
           right. split; [done|]. exists cur, st2.
           assert (Hfuel2 : (length (_name N) < fuel)%nat) by (simpl in HlenB; lia).
           pose proof (setState_dispatch call st2 st2 cur _ NamespaceState.NAME_EXISTS fuel
                         Hwf2 (extends_refl _) Hcall Hself2 Hfuel2) as Hdispatch.
           rewrite (ancestors_fuel st2 fuel (length B) cur _ Hwf2 Hself2 Hfuel2 Hsz)
             in Hdispatch.
           rewrite Hrun in Hdispatch. injection Hdispatch as Hst3 Ht3.
           rewrite (get_node _ _ _ HC3), (get_node _ _ _ Hnew), HpC3, app_nil_r.
           split.
           { rewrite (Hpath _ eq_refl). symmetry.
             apply attach_path_here with C; [done|]. rewrite HkB. done. }
           split; [done|]. split; [done|]. split; [done|].
           split; [by rewrite HkB|]. split; [done|]. split; [done|].
           split; [done|]. split; [by rewrite Ht3|].
           split; [rewrite <- Ht3; eapply on_chain_dispatch, Hev|].
           intros Hobs. rewrite (dispatch_deliver call) by done.
           unfold deliveries. apply flat_map_ext. intros n.
           by rewrite get_update_callbacks.
      * (* an intermediate node: nothing is fired *)
        apply Z.eqb_neq in Hleaf. unfold size in Hleaf.
        destruct (IH st2 child C Hwf2 Hcall Hnew)
          as (d & st' & t & steps & Hrun & Hext & Hname & Hanc & Hreach & Hsteps & Ht).
        { exists k'. exact HkB. }
        { simpl. unfold append. rewrite length_app. simpl. simpl in HlenB. lia. }
        rewrite Hrun. exists d, st', ([] ++ t), (S steps).
        destruct (Hext child C Hnew) as (C' & HC' & _ & HpC' & _).
        destruct (Hext _ _ Hself2) as (N' & HN' & HnN' & _ & _ & HchN' & _).
        split; [done|]. split; [eapply extends_trans; eauto|].
        split; [done|].
        split; [apply anc_up with child C'; [done | done | by rewrite HpC']|].
        split.
        -- apply reach_step with N' c child; rewrite ?HnN'; simpl; auto.
           apply HchN'. simpl. apply dict_get_set_eq.
        -- split.
           { simpl in Hsteps. unfold append in Hsteps. rewrite length_app in Hsteps.
             simpl in Hsteps. simpl in HlenB. lia. }
           right. destruct Ht as [[-> ->] | [Hnone Hleafc]].
           ++ exfalso. apply (reach_childless _ _ _ _ _ C Hreach Hnew); [done|].
              simpl. unfold append. rewrite length_app. simpl. simpl in HlenB. lia.
           ++ split.
              { destruct (node st d) as [D|] eqn:HD; [|done].
                destruct (Hext2 d D HD) as (D2 & HD2 & _). congruence. }
              destruct Hleafc as (p & created & Hpc & Hextc & Hwfc & Hcbc & Hrest).
              exists p, created. split; [by rewrite (Hpath _ eq_refl)|].
              split; [by eapply extends_trans|]. split; [done|].
              split; [|exact Hrest].
              intros n [X HX]. destruct (Hext2 n X HX) as (X2 & HX2 & _).
              rewrite Hcbc by eauto. apply Hcb2. eauto.
  - apply size_ge in Hsz.
    assert (Hk0 : k = []) by (destruct k; [done | simpl in HlenB; lia]).
    subst k. rewrite app_nil_r in Hk.
    exists cur, st, [], 0%nat. split; [done|]. split; [apply extends_refl|].
    split; [by rewrite (get_node _ _ _ Hcur)|].
    split; [constructor|]. split; [apply reach_here with N; [done | lia]|].
    split; [lia|]. left. done.
Qed.


End Children.

(** ** The sorted list of keys *)

Section Insort.
Variable component_lt : Component -> Component -> bool.

Lemma midpoint (lo hi : nat) :
  (lo < hi)%nat -> (lo <= (lo + hi) `div` 2 < hi)%nat.
Proof.
  intros H. split.
  - apply Nat.div_le_lower_bound; lia.
  - apply Nat.Div0.div_lt_upper_bound; lia.
Qed.

(** The fuel [insort] gives to the binary search is enough: the result of
    the search does not depend on the fuel once it exceeds [hi - lo]. *)
Lemma bisect_right_fuel a x : forall fuel fuel' lo hi,
  (hi - lo < fuel)%nat -> (hi - lo < fuel')%nat ->
  bisect_right component_lt fuel a x lo hi
  = bisect_right component_lt fuel' a x lo hi.
Proof.
  induction fuel as [|fuel IH]; intros fuel' lo hi H H'; [lia|].
  destruct fuel' as [|fuel']; [lia|]. cbn [bisect_right].
  destruct (Nat.ltb_spec lo hi) as [Hlt|]; [|done].
  pose proof (midpoint lo hi Hlt) as Hmid.
  destruct (a !! ((lo + hi) `div` 2)%nat) as [y|]; [|done].
  destruct (component_lt x y); apply IH; lia.
Qed.

Hypothesis lt_trans : forall x y z,
  component_lt x y = true -> component_lt y z = true -> component_lt x z = true.
Hypothesis lt_total : forall x y,
  component_lt x y = false -> x = y \/ component_lt y x = true.

(** The binary search in an ascending list finds the place after the
    elements that are not above [x]. *)
Lemma bisect_right_spec a x : keys_ascending component_lt a ->
  forall fuel lo hi,
    (hi - lo < fuel)%nat -> (lo <= hi <= length a)%nat ->
    (forall k y, (k < lo)%nat -> a !! k = Some y -> component_lt x y = false) ->
    (forall k y, (hi <= k)%nat -> a !! k = Some y -> component_lt x y = true) ->
    let i := bisect_right component_lt fuel a x lo hi in
    (lo <= i <= hi)%nat /\
    (forall k y, (k < i)%nat -> a !! k = Some y -> component_lt x y = false) /\
    (forall k y, (i <= k)%nat -> a !! k = Some y -> component_lt x y = true).
Proof.
  intros Hasc. induction fuel as [|fuel IH]; intros lo hi Hfuel Hrange Hlo Hhi; [lia|].
  cbn [bisect_right]. destruct (Nat.ltb_spec lo hi) as [Hlt|Hge].
  - pose proof (midpoint lo hi Hlt) as Hmid.
    set (mid := ((lo + hi) `div` 2)%nat) in *.
    destruct (a !! mid) as [y|] eqn:Hy.
    + destruct (component_lt x y) eqn:Hxy.
      * destruct (IH lo mid) as (Hi & Hb & Ha); [lia | lia | done | | ].
        { intros k z Hk Hz. destruct (decide (k = mid)) as [->|Hne]; [congruence|].
          apply lt_trans with y; [done|]. apply (Hasc mid k); [lia | done | done]. }
        split; [lia | done].
      * destruct (IH (S mid) hi) as (Hi & Hb & Ha); [lia | lia | | done | ].
        { intros k z Hk Hz. destruct (decide (k = mid)) as [->|Hne]; [congruence|].
          destruct (component_lt x z) eqn:Hxz; [|done].
          assert (component_lt x y = true); [|congruence].
          apply lt_trans with z; [done|].
          apply (Hasc k mid); [lia | done | done]. }
        split; [lia | done].
    + apply lookup_ge_None in Hy. lia.
  - assert (lo = hi) by lia. subst. split; [lia | done].
Qed.

(** [insort] of a new key keeps the keys in ascending order. *)
Lemma insort_ascending a x :
  keys_ascending component_lt a -> ~ In x a ->
  keys_ascending component_lt (insort component_lt a x).
Proof.
  intros Hasc Hnew. unfold insort.
  destruct (bisect_right_spec a x Hasc (S (length a)) 0 (length a))
    as (Hi & Hbefore & Hafter); [lia | lia | intros; lia | |].
  { intros k y Hk Hy. apply lookup_lt_Some in Hy. lia. }
  set (i := bisect_right component_lt (S (length a)) a x 0 (length a)) in *.
  assert (Hlow : forall k y, (k < i)%nat -> a !! k = Some y -> component_lt y x = true).
  { intros k y Hk Hy. destruct (lt_total x y (Hbefore k y Hk Hy)) as [->|]; [|done].
    exfalso. apply Hnew, list_elem_of_In, list_elem_of_lookup. eauto. }
  assert (Hlook : forall k y,
    (take i a ++ x :: drop i a) !! k = Some y ->
    ((k < i)%nat /\ a !! k = Some y) \/ (k = i /\ y = x) \/
    ((i < k)%nat /\ a !! (k - 1)%nat = Some y)).
  { intros k y Hk. apply lookup_app_Some in Hk as [Hk | [Hge Hk]].
    - apply lookup_take_Some in Hk as [Hk Hlt]. auto.
    - rewrite length_take in Hge, Hk. rewrite Nat.min_l in Hge, Hk by lia.
      destruct (k - i)%nat as [|d] eqn:E; simpl in Hk.
      + injection Hk as <-. right; left. split; [lia | done].
      + rewrite lookup_drop in Hk. right; right. split; [lia|].
        replace (k - 1)%nat with (i + d)%nat by lia. done. }
  intros k1 k2 y1 y2 Hk H1 H2.
  apply Hlook in H1 as [[Hl1 H1] | [[-> ->] | [Hl1 H1]]];
    apply Hlook in H2 as [[Hl2 H2] | [[-> ->] | [Hl2 H2]]]; try lia.
  - apply (Hasc k1 k2); done.
  - by apply Hlow with k1.
  - apply (Hasc k1 (k2 - 1)%nat); [lia | done | done].
  - apply Hafter with (k2 - 1)%nat; [lia | done].
  - apply (Hasc (k1 - 1)%nat (k2 - 1)%nat); [lia | done | done].
Qed.

(** Creating a child keeps the keys of every node in ascending order. *)
Lemma attach_child_sorted st self N c :
  wf st -> node st self = Some N -> dict_get (_children N) c = None ->
  sorted_store component_lt st ->
  sorted_store component_lt (attach_child component_lt st self c).2.
Proof.
  intros Hwf Hself Habsent Hsorted n X H.
  apply (attach_child_inv component_lt st self N c Hself) in H
    as [[-> ->] | [[-> ->] | [Hne H]]].
  - simpl. intros i j x y _ Hi. done.
  - simpl. apply insort_ascending; [by apply (Hsorted self)|].
    intros Hin. destruct (Hwf self N Hself) as (_ & _ & Hkeys).
    specialize (Hkeys c Hin). unfold dict_mem in Hkeys. by rewrite Habsent in Hkeys.
  - by apply (Hsorted n).
Qed.

End Insort.

(** ** The name tree: longest-prefix match *)

Lemma depth_bound_node st n N : node st n = Some N -> (length (_name N) <= depth_bound st)%nat.
Proof.
  unfold node, depth_bound. revert n.
  induction (nodes st) as [|X l IH]; intros n H; [done|].
  destruct n as [|n]; simpl in *.
  - injection H as ->. lia.
  - specialize (IH n H). lia.
Qed.

Lemma best_None results : best results = None -> forall r, In r results -> r = None.
Proof.
  induction results as [|r results IH]; simpl; [done|].
  intros H. destruct r as [c|]; simpl in H.
  - exfalso. destruct (best results) as [b0|]; [destruct (size c >=? size b0)|]; done.
  - intros r' [<- | Hin]; [done | by apply IH].
Qed.

(** The loop returns a longest match, and among the longest the one of the
    first key. *)
Lemma best_Some results b :
  best results = Some b ->
  exists j, results !! j = Some (Some b) /\
    forall i m, results !! i = Some (Some m) ->
      size m <= size b /\ (size m = size b -> (j <= i)%nat).
Proof.
  revert b. induction results as [|r results IH]; intros b; simpl; [done|].
  destruct r as [c|]; simpl.
  - destruct (best results) as [b0|] eqn:Hb.
    + destruct (IH b0 eq_refl) as (j & Hj & Hmax).
      destruct (Z.geb_spec (size c) (size b0)) as [Hge|Hlt]; intros [= <-].
      * exists 0%nat. split; [done|]. intros [|i] m; simpl.
        -- intros [= <-]. lia.
        -- intros Hi. destruct (Hmax i m Hi). lia.
      * exists (S j). split; [done|]. intros [|i] m; simpl.
        -- intros [= <-]. lia.
        -- intros Hi. destruct (Hmax i m Hi). split; [lia|]. intros. 
           assert (j <= i)%nat by auto. lia.
    + intros [= <-]. exists 0%nat. split; [done|]. intros [|i] m; simpl.
      * intros [= <-]. lia.
      * intros Hi. pose proof (best_None results Hb (Some m)) as Hn.
        discriminate Hn. apply list_elem_of_In, list_elem_of_lookup. eauto.
  - intros Hb. destruct (IH b Hb) as (j & Hj & Hmax).
    exists (S j). split; [done|]. intros [|i] m; simpl; [done|].
    intros Hi. destruct (Hmax i m Hi). split; [lia|]. intros.
    assert (j <= i)%nat by auto. lia.
Qed.

Lemma fold_pick_rev results : fold_left pick (rev results) None = best results.
Proof.
  induction results as [|r results IH]; simpl; [done|].
  rewrite fold_left_app. simpl. by rewrite IH.
Qed.

Section Match.
Variable matchesData : Interest -> Data -> bool.

Local Abbreviation child_result := (child_result matchesData).
Local Abbreviation own_match := (own_match matchesData).

Lemma best_of_children_spec find children keys results : forall bestMatch,
  Forall2 (fun key r => exists child, dict_get children key = Some child /\
                                      find child = Some (Returns r)) keys results ->
  best_of_children find children keys bestMatch
  = Some (Returns (fold_left pick results bestMatch)).
Proof.
  intros bestMatch H. revert bestMatch.
  induction H as [|key r keys results (child & Hc & Hr) _ IH]; intros bestMatch; simpl.
  - done.
  - rewrite Hc, Hr. apply IH.
Qed.

Lemma Forall2_rev {A B} (P : A -> B -> Prop) l k :
  Forall2 P l k -> Forall2 P (rev l) (rev k).
Proof.
  induction 1; simpl; [constructor|]. apply Forall2_app; [done|]. by constructor.
Qed.

Lemma findBestMatchName_step fuel st ns N interest results :
  node st ns = Some N ->
  Forall2 (child_result fuel st interest N) (_sortedChildrenKeys N) results ->
  _findBestMatchName matchesData (S fuel) st ns interest
  = Some (Returns (match best results with
                   | Some b => Some b
                   | None => own_match interest N
                   end)).
Proof.
  intros HN Hres. simpl. rewrite (get_node _ _ _ HN).
  rewrite (best_of_children_spec _ _ _ (rev results)) by (by apply Forall2_rev).
  rewrite fold_pick_rev.
  destruct (best results); [done|]. unfold own_match.
  destruct (_data N) as [d|]; [|done]. by destruct (matchesData interest d).
Qed.

Lemma child_results_exist fuel st interest N keys :
  (forall key, In key keys -> exists r, child_result fuel st interest N key r) ->
  exists results, Forall2 (child_result fuel st interest N) keys results.
Proof.
  induction keys as [|key keys IH]; intros H.
  - exists []. constructor.
  - destruct (H key (or_introl eq_refl)) as [r Hr].
    destruct IH as [results Hres]; [intros k Hk; apply H; by right|].
    exists (r :: results). by constructor.
Qed.

(** The search returns in a well-formed store. *)
Lemma findBestMatchName_total interest st : forall fuel ns N,
  wf st -> node st ns = Some N -> (depth_bound st - length (_name N) < fuel)%nat ->
  exists r, _findBestMatchName matchesData fuel st ns interest = Some (Returns r).
Proof.
  induction fuel as [|fuel IH]; intros ns N Hwf HN Hfuel; [lia|].
  destruct (child_results_exist fuel st interest N (_sortedChildrenKeys N)) as [results Hres].
  { intros key Hin. destruct (Hwf ns N HN) as (_ & Hch & Hkeys).
    specialize (Hkeys key Hin). unfold dict_mem in Hkeys.
    destruct (dict_get (_children N) key) as [m|] eqn:Hm; [|done].
    destruct (Hch key m Hm) as (M & HM & HnM & _).
    pose proof (depth_bound_node st m M HM) as Hb.
    destruct (IH m M Hwf HM) as [r Hr].
    { rewrite HnM, length_app in *. simpl in *. lia. }
    exists r, m. done. }
  rewrite (findBestMatchName_step fuel st ns N interest results HN Hres). eauto.
Qed.

(** A match is the name of a node below the one searched. *)
Lemma findBestMatchName_below interest st : forall fuel ns N m,
  wf st -> node st ns = Some N ->
  _findBestMatchName matchesData fuel st ns interest = Some (Returns (Some m)) ->
  exists k, m = _name N ++ k.
Proof.
  induction fuel as [|fuel IH]; intros ns N m Hwf HN; simpl; [done|].
  rewrite (get_node _ _ _ HN).
  assert (Hloop : forall keys bestMatch r,
    (forall b, bestMatch = Some b -> exists k, b = _name N ++ k) ->
    best_of_children
      (fun child => _findBestMatchName matchesData fuel st child interest)
      (_children N) keys bestMatch = Some (Returns (Some r)) ->
    exists k, r = _name N ++ k).
  { induction keys as [|key keys IHk]; intros bestMatch r Hbest; simpl.
    - intros [= ->]. by apply Hbest.
    - destruct (dict_get (_children N) key) as [child|] eqn:Hc; [|done].
      destruct (_findBestMatchName matchesData fuel st child interest)
        as [[childBest|]|] eqn:Hr; [|done|done].
      apply IHk. intros b Hb.
      destruct (Hwf ns N HN) as (_ & Hch & _).
      destruct (Hch key child Hc) as (M & HM & HnM & _).
      destruct childBest as [c|]; [|by apply Hbest, Hb].
      destruct (IH child M c Hwf HM Hr) as [k Hk].
      assert (Hcn : exists k0, c = _name N ++ k0)
        by (exists ([key] ++ k); by rewrite Hk, HnM, <- app_assoc).
      destruct bestMatch as [b0|]; [|by injection Hb as <-].
      destruct (_ >=? _); injection Hb as <-; [done | by apply Hbest]. }
  destruct (best_of_children _ _ _ None) as [[[b|]|]|] eqn:Hb; try done.
  - intros [= <-]. eapply Hloop; [|exact Hb]. done.
  - destruct (_data N) as [d|]; [|done].
    destruct (matchesData interest d); [|done].
    intros [= <-]. exists []. by rewrite app_nil_r.
Qed.

(** C1, as the code has it.  The search below a node returns.  With
    [results] the matches found below its children, in the order of
    [_sortedChildrenKeys]: the node's own name is returned only when no child
    has a match; a match below a child is the name of a proper descendant, and
    when there is one the result is such a match, of the greatest length, and
    among the matches of that length the one below the first key of
    [_sortedChildrenKeys].  That key is the smallest in the order by which the
    keys are sorted, the order [<] of [Name.Component]; this is not the
    lexicographic order of the components. *)
Theorem findBestMatchName_prefers_children_then_smallest
    (component_lt : Component -> Component -> bool) (st : Store) (ns : NodeId)
    (N : Namespace) (interest : Interest) (fuel : nat) :
  wf st -> node st ns = Some N ->
  (depth_bound st - length (_name N) <= fuel)%nat ->
  exists results res,
    Forall2 (child_result fuel st interest N) (_sortedChildrenKeys N) results /\
    _findBestMatchName matchesData (S fuel) st ns interest = Some (Returns res) /\
    ((forall r, In r results -> r = None) -> res = own_match interest N) /\
    (forall m, In (Some m) results -> (length (_name N) < length m)%nat) /\
    (forall i m, results !! i = Some (Some m) ->
       exists j m', results !! j = Some (Some m') /\ res = Some m' /\
         size m <= size m' /\ (size m = size m' -> (j <= i)%nat)) /\
    (keys_ascending component_lt (_sortedChildrenKeys N) ->
     forall i ki m,
       _sortedChildrenKeys N !! i = Some ki -> results !! i = Some (Some m) ->
       exists j kj m',
         _sortedChildrenKeys N !! j = Some kj /\ results !! j = Some (Some m') /\
         res = Some m' /\ size m <= size m' /\
         (size m = size m' -> kj = ki \/ component_lt kj ki = true)).
Proof.
  intros Hwf HN Hfuel.
  destruct (child_results_exist fuel st interest N (_sortedChildrenKeys N)) as [results Hres].
  { intros key Hin. destruct (Hwf ns N HN) as (_ & Hch & Hkeys).
    specialize (Hkeys key Hin). unfold dict_mem in Hkeys.
    destruct (dict_get (_children N) key) as [m|] eqn:Hm; [|done].
    destruct (Hch key m Hm) as (M & HM & HnM & _).
    pose proof (depth_bound_node st m M HM) as Hb.
    destruct (findBestMatchName_total interest st fuel m M Hwf HM) as [r Hr].
    { rewrite HnM, length_app in *. simpl in *. lia. }
    exists r, m. done. }
  exists results. eexists. split; [exact Hres|].
  split; [exact (findBestMatchName_step fuel st ns N interest results HN Hres)|].
  assert (Hindex : forall i m, results !! i = Some (Some m) ->
    exists j m', results !! j = Some (Some m') /\
      match best results with Some b => Some b | None => own_match interest N end
        = Some m' /\
      size m <= size m' /\ (size m = size m' -> (j <= i)%nat)).
  { intros i m Hi. destruct (best results) as [b|] eqn:Hb.
    - destruct (best_Some results b Hb) as (j & Hj & Hmax).
      destruct (Hmax i m Hi). exists j, b. auto.
    - pose proof (best_None results Hb (Some m)) as Hn. discriminate Hn.
      apply list_elem_of_In, list_elem_of_lookup. eauto. }
  split; [|split; [|split; [exact Hindex|]]].
  - intros Hnone. destruct (best results) as [b|] eqn:Hb; [|done].
    destruct (best_Some results b Hb) as (j & Hj & _).
    discriminate (Hnone (Some b)). apply list_elem_of_In, list_elem_of_lookup. eauto.
  - intros m Hin. apply list_elem_of_In, list_elem_of_lookup in Hin as [i Hi].
    destruct (Forall2_lookup_r _ _ _ _ _ Hres Hi) as (key & Hkey & child & Hc & Hr).
    destruct (Hwf ns N HN) as (_ & Hch & _).
    destruct (Hch key child Hc) as (M & HM & HnM & _).
    destruct (findBestMatchName_below interest st fuel child M m Hwf HM Hr) as [k ->].
    rewrite HnM, !length_app. simpl. lia.
  - intros Hasc i ki m Hki Hi.
    destruct (Hindex i m Hi) as (j & m' & Hj & Hres' & Hle & Htie).
    destruct (Forall2_lookup_r _ _ _ _ _ Hres Hj) as (kj & Hkj & _).
    exists j, kj, m'. repeat split; try done.
    intros Heq. specialize (Htie Heq).
    destruct (decide (j = i)) as [->|Hne].
    + left. congruence.
    + right. apply (Hasc j i); [lia | done | done].
Qed.

End Match.

(** ** The scenarios satisfy the assumptions *)

Lemma wfb_sound st : wfb st = true -> wf st.
Proof.
  unfold wfb. rewrite forallb_forall. intros H n N HN.
  assert (Hn : In n (seq 0 (length (nodes st)))).
  { apply in_seq. apply lookup_lt_Some in HN. lia. }
  specialize (H n Hn). rewrite HN in H. unfold wf_node in H.
  apply andb_true_iff in H as [H Hkeys]. apply andb_true_iff in H as [Hpar Hch].
  split; [|split].
  - intros p Hp. rewrite Hp in Hpar.
    destruct (node st p) as [P|]; [|done].
    destruct (rev (_name N)) as [|c r] eqn:Hrev; [done|].
    apply bool_decide_eq_true in Hpar. exists P, c. split; [done|].
    rewrite <- Hpar. rewrite <- (rev_involutive (_name N)), Hrev. reflexivity.
  - intros c m Hm. apply dict_get_Some_In in Hm.
    rewrite forallb_forall in Hch. specialize (Hch (c, m) Hm). simpl in Hch.
    destruct (node st m) as [M|]; [|done].
    apply andb_true_iff in Hch as [H1 H2].
    apply bool_decide_eq_true in H1. apply bool_decide_eq_true in H2. eauto.
  - rewrite forallb_forall in Hkeys. exact Hkeys.
Qed.

Lemma demo_call_preserves_tree : preserves_tree demo_call.
Proof.
  intros f ns changed state id st. unfold demo_call.
  destruct f as [|[|[|f]]]; simpl; try apply extends_refl.
  unfold removeCallback. apply extends_update. intros N. simpl. auto.
Qed.

Lemma length_strokes n : String.length (strokes n) = n.
Proof. induction n as [|n IH]; simpl; [done | by rewrite IH]. Qed.

Lemma demo_sequence_number_roundtrip n :
  0 <= n -> demo_toSequenceNumber (demo_fromSequenceNumber n) = n.
Proof.
  intros Hn. unfold demo_toSequenceNumber, demo_fromSequenceNumber.
  simpl String.length. rewrite length_strokes. lia.
Qed.

(** ** Witnesses and counterexamples *)

(** The longest-prefix search in the tree with data at /a, /a/b and /a/c. *)
Lemma findBestMatchName_witness :
  exists res,
    _findBestMatchName demo_matchesData 6 demo_tree 0%nat (mkInterest ["a"%string])
    = Some (Returns res).
Proof.
  destruct (findBestMatchName_prefers_children_then_smallest demo_matchesData demo_lt
              demo_tree 0%nat (get demo_tree 0%nat) (mkInterest ["a"%string]) 5)
    as (results & res & _ & Hrun & _).
  - apply wfb_sound. vm_compute. reflexivity.
  - reflexivity.
  - vm_compute. lia.
  - exists res. exact Hrun.
Defined.

(** Both /a/b and /a/c match an interest for /a; the match below the smaller
    component is returned, not the data of /a. *)
Example findBestMatchName_demo :
  _findBestMatchName demo_matchesData 6 demo_tree 0%nat (mkInterest ["a"%string])
  = Some (Returns (Some ["a"; "b"]%string)).
Proof. vm_compute. reflexivity. Qed.

(** C1 (2), as stated, fails: the keys are sorted by the order of
    [Name.Component], in which the shorter component b is smaller than aa.
    With equal-length matches at /a/b and /a/aa the search visits aa, then b,
    and returns /a/b, the match under the first key of [_sortedChildrenKeys];
    the lexicographically smallest component is aa. *)
Lemma findBestMatchName_tie_is_not_lexicographic :
  let st := canonical_tree in
  let interest := mkInterest ["a"%string] in
  getChildComponents st 0%nat = ["b"; "aa"]%string /\
  keys_ascending canonical_lt (getChildComponents st 0%nat) /\
  child_result demo_matchesData 5 st interest (get st 0%nat) "b"%string
    (Some ["a"; "b"]%string) /\
  child_result demo_matchesData 5 st interest (get st 0%nat) "aa"%string
    (Some ["a"; "aa"]%string) /\
  size ["a"; "b"]%string = size ["a"; "aa"]%string /\
  _findBestMatchName demo_matchesData 6 st 0%nat interest
    = Some (Returns (Some ["a"; "b"]%string)) /\
  String.ltb "aa" "b" = true /\
  _findBestMatchName demo_matchesData 6 st 0%nat interest
    <> Some (Returns (Some ["a"; "aa"]%string)).
Proof.
  cbv zeta. split; [vm_compute; reflexivity|].
  split.
  { assert (Hk : getChildComponents canonical_tree 0%nat = ["b"; "aa"]%string)
      by (vm_compute; reflexivity).
    rewrite Hk. intros i j x y Hij Hi Hj.
    destruct i as [|[|i]]; destruct j as [|[|j]]; simpl in Hi, Hj; try lia;
      try discriminate.
    injection Hi as <-. injection Hj as <-. vm_compute. reflexivity. }
  split; [exists 1%nat; split; vm_compute; reflexivity|].
  split; [exists 2%nat; split; vm_compute; reflexivity|].
  split; [reflexivity|].
  split; [vm_compute; reflexivity|].
  split; [vm_compute; reflexivity|].
  vm_compute. discriminate.
Qed.

(** C2, as stated, fails: with a pipeline of 3 that has requested 5, 6 and
    7, the completions of 6 and 7 leave [_maxReportedSequenceNumber] at 7 but
    three requests in flight (5, 8 and 9), not one. *)
Lemma pipeline_window_is_refilled :
  match demo_complete_all 9 [6; 7] demo_pipelined.1 demo_pipelined.2 with
  | Some (h, _) =>
      _maxReportedSequenceNumber h = 7 /\ outstanding h = 3 /\ outstanding h <> 1
  | None => False
  end.
Proof. vm_compute. repeat split; discriminate. Qed.

Lemma pipeline_accounting_witness :
  exists fuel0 h1 w1 h2 w2,
    (forall fuel, (fuel0 <= fuel)%nat ->
       demo_complete_all fuel [6; 7] demo_pipelined.1 demo_pipelined.2 = Some (h1, w1) /\
       demo_complete_all fuel [7; 6] demo_pipelined.1 demo_pipelined.2 = Some (h2, w2)) /\
    _maxReportedSequenceNumber h1 = 7 /\ _maxReportedSequenceNumber h2 = 7 /\
    outstanding h1 = 3 /\ outstanding h2 = 3.
Proof.
  destruct (pipeline_accounting_is_order_independent demo_META demo_fromSequenceNumber
              demo_toSequenceNumber demo_report_raises demo_sequence_number_roundtrip
              ["stream"%string] demo_pipelined.1 demo_pipelined.2 [6; 7] [7; 6])
    as (fuel0 & h1 & w1 & h2 & w2 & Hrun & _ & _ & Hmax1 & Hmax2 & Hout).
  - reflexivity.
  - vm_compute. discriminate.
  - apply perm_swap.
  - exists fuel0, h1, w1, h2, w2. split; [exact Hrun|].
    destruct Hout as [Hout1 Hout2]; [vm_compute; reflexivity | vm_compute; discriminate | done |].
    rewrite Hmax2, Hmax1, Hout1, Hout2. vm_compute. auto.
Defined.


(** Creating /a/x/y below /a: the only dispatch is for the creation of the
    leaf, and it writes NAME_EXISTS on the node /a/x in which the leaf is
    created. *)
Example getChild_demo :
  (fun r => match r with Some (d, _, t) => Some (d, t) | None => None end)
    (getChild demo_call demo_lt 9 0%nat (IsName ["a"; "x"; "y"]%string) demo_tree)
  = Some (Returns 4%nat, [EvSetState 3%nat NamespaceState.NAME_EXISTS]).
Proof. vm_compute. reflexivity. Qed.

Lemma setData_witness :
  exists st' t,
    setData demo_call demo_transform 9 0%nat (mkData ["a"%string] "A") demo_observed
    = Some (Returns tt, st', t) /\
    state_writes t = [(0%nat, NamespaceState.DATA_RECEIVED);
                      (0%nat, NamespaceState.CONTENT_READY)].
Proof.
  destruct (setData_attaches_once demo_call demo_transform 9 0%nat
              (get demo_observed 0%nat) (mkData ["a"%string] "A") demo_observed)
    as (_ & Hattach & _).
  - apply wfb_sound. vm_compute. reflexivity.
  - reflexivity.
  - reflexivity.
  - simpl. lia.
  - exact demo_call_preserves_tree.
  - destruct Hattach as (st' & t & Hrun & _ & Hwrites & _); [reflexivity | reflexivity |].
    exists st', t. auto.
Defined.

Lemma setState_witness :
  exists st' t,
    _setState demo_call 5 1%nat NamespaceState.DATA_RECEIVED demo_observed
    = Some (st', EvSetState 1%nat NamespaceState.DATA_RECEIVED :: t) /\
    Forall (on_chain (ancestors 5 demo_observed (Some 1%nat)) 1%nat
              NamespaceState.DATA_RECEIVED) t.
Proof.
  destruct (setState_notifies_node_and_ancestors demo_call demo_observed 1%nat
              (get demo_observed 1%nat) NamespaceState.DATA_RECEIVED 5)
    as (st' & t & Hrun & _ & _ & Hchain & _).
  - apply wfb_sound. vm_compute. reflexivity.
  - reflexivity.
  - simpl. lia.
  - exact demo_call_preserves_tree.
  - exists st', t. auto.
Defined.

(** A change of /a/b calls its observer 4, then on the root the observer 1,
    which removes 2; 2 is skipped; 3 raises, which is logged. *)
Example setState_demo :
  (fun r => match r with Some (_, t) => Some t | None => None end)
    (_setState demo_call 5 1%nat NamespaceState.DATA_RECEIVED demo_observed)
  = Some [EvSetState 1%nat 3; EvCallback 1%nat 1%nat 3 4; EvCallback 0%nat 1%nat 3 1;
          EvCallback 0%nat 1%nat 3 3; EvLogException 0%nat 3].
Proof. vm_compute. reflexivity. Qed.

(** C7, as stated, fails: [setObject] with a smaller sequence number lowers
    the value of [getProducedSequenceNumber]. *)
Lemma producedSequenceNumber_can_decrease :
  ~ never_decreases (getProducedSequenceNumber demo_handler)
      (produced_after demo_fromSequenceNumber
         [SetObject 5 "five" "text" None; SetObject 2 "two" "text" None]
         demo_handler).
Proof. vm_compute. intros (_ & H & _). apply H. reflexivity. Qed.

Lemma latest_timeout_witness :
  demo_onStateChanged 9 demo_latest NamespaceState.INTEREST_TIMEOUT demo_handler
    (demo_world "x")
  = Some (Returns tt, demo_handler, demo_world "x",
          [LogInfo; CallLater 0%nat (Some (1000 # 1)%Q) demo_latest]).
Proof.
  apply (latest_timeout_defers_one_pull demo_NACK demo_OBJECT_READY demo_META
           demo_fromSequenceNumber demo_isSequenceNumber demo_toSequenceNumber
           demo_isVersion demo_wireDecode 9 demo_handler (demo_world "x")
           ["stream"%string] demo_latest 0%nat NamespaceState.INTEREST_TIMEOUT).
  - reflexivity.
  - reflexivity.
  - reflexivity.
  - left. reflexivity.
Defined.

Lemma malformed_redirect_witness :
  demo_onStateChanged 9 (append demo_latest "v1") demo_OBJECT_READY demo_handler
    (demo_world "x")
  = Some (Returns tt, demo_handler, demo_world "x", []).
Proof.
  apply (malformed_redirect_is_ignored demo_NACK demo_OBJECT_READY demo_META
           demo_fromSequenceNumber demo_isSequenceNumber demo_toSequenceNumber
           demo_isVersion demo_wireDecode 9 demo_handler (demo_world "x")
           ["stream"%string] demo_latest "v1"%string "x"%string
           [["stream"; "x"]%string]).
  - reflexivity.
  - reflexivity.
  - vm_compute. discriminate.
  - vm_compute. discriminate.
  - reflexivity.
  - reflexivity.
  - reflexivity.
  - right. exists ["stream"; "x"]%string, []. split; [reflexivity|].
    intros (_ & _ & c & Hc & Hseq). vm_compute in Hc. injection Hc as <-.
    vm_compute in Hseq. discriminate.
Defined.

(** The keys of the root of the scenario, inserted as c then b, are in
    ascending order. *)
Example demo_tree_keys_ascending :
  keys_ascending demo_lt (_sortedChildrenKeys (get demo_tree 0%nat)).
Proof.
  intros i j x y Hij Hi Hj.
  destruct i as [|[|i]], j as [|[|j]]; try lia; vm_compute in Hi, Hj;
    try discriminate.
  injection Hi as <-. injection Hj as <-. reflexivity.
Qed.

(** A second packet, whatever its name, leaves a node with data as it is. *)
Example setData_twice_demo :
  setData demo_call demo_transform 9 0%nat (mkData ["other"%string] "X") demo_tree
  = Some (Returns tt, demo_tree, []).
Proof. vm_compute. reflexivity. Qed.

(** The pipeline size of a pipelined consumer cannot be set to zero, and a
    negative size counts as zero. *)
Example setPipelineSize_demo :
  setPipelineSize 0 demo_handler = (Raises RuntimeError, demo_handler) /\
  setPipelineSize (-4) demo_handler = (Raises RuntimeError, demo_handler) /\
  getPipelineSize (setPipelineSize 5 demo_handler).2 = 5.
Proof. vm_compute. auto. Qed.

(** With observers that only observe (the third one raises), every observer
    of /a/b and of the root is called. *)
Example setState_delivers_demo :
  let call := fun (f : Callback) (_ _ : NodeId) (_ _ : Z) (st : Store) =>
                (st, Nat.eqb f 2) in
  (fun r => match r with Some (_, t) => Some (calls t) | None => None end)
    (_setState call 5 1%nat NamespaceState.DATA_RECEIVED demo_observed)
  = Some (deliveries 5 demo_observed 1%nat NamespaceState.DATA_RECEIVED) /\
  deliveries 5 demo_observed 1%nat NamespaceState.DATA_RECEIVED
  = [EvCallback 1%nat 1%nat 3 4; EvCallback 0%nat 1%nat 3 1;
     EvCallback 0%nat 1%nat 3 2; EvCallback 0%nat 1%nat 3 3].
Proof. vm_compute. auto. Qed.

(** A name outside the tree is refused, and a second request for a node
    returns the node of the first. *)
Example getChild_again_demo :
  getChild demo_call demo_lt 9 0%nat (IsName ["b"; "x"]%string) demo_tree
  = Some (Raises RuntimeError, demo_tree, []) /\
  (let st1 := ok (getChild demo_call demo_lt 9 0%nat
                    (IsName ["a"; "x"; "y"]%string) demo_tree) in
   getChild demo_call demo_lt 9 0%nat (IsName ["a"; "x"; "y"]%string) st1
   = Some (Returns 4%nat, st1, [])).
Proof. vm_compute. auto. Qed.

(** * Further properties of the code *)

(** ** Registration of observers *)

Lemma dict_set_fresh {K V} `{EqDecision K} (d : list (K * V)) k v :
  ~ In k (dict_keys d) -> dict_set d k v = d ++ [(k, v)].
Proof.
  induction d as [|[k0 v0] d IH]; simpl; [done|].
  intros Hnotin. destruct (decide (k = k0)) as [->|Hne]; [tauto|].
  rewrite IH; [done | tauto].
Qed.

Lemma dict_pop_absent {K V} `{EqDecision K} (d : list (K * V)) k :
  dict_get d k = None -> dict_pop d k = d.
Proof.
  induction d as [|[k0 v0] d IH]; simpl; [done|].
  destruct (decide (k = k0)); [done|]. intros H. by rewrite IH.
Qed.

Lemma dict_pop_snoc {K V} `{EqDecision K} (d : list (K * V)) k v :
  ~ In k (dict_keys d) -> dict_pop (d ++ [(k, v)]) k = d.
Proof.
  induction d as [|[k0 v0] d IH]; simpl.
  - by rewrite decide_True.
  - intros Hnotin. destruct (decide (k = k0)) as [->|Hne]; [tauto|].
    rewrite IH; [done | tauto].
Qed.

Lemma dict_keys_pop {K V} `{EqDecision K} (d : list (K * V)) k :
  NoDup (dict_keys d) ->
  dict_keys (dict_pop d k) = List.filter (fun k' => negb (bool_decide (k' = k))) (dict_keys d).
Proof.
  induction d as [|[k0 v0] d IH]; simpl; [done|].
  intros Hnd. apply NoDup_cons in Hnd as [Hnotin Hnd].
  destruct (decide (k = k0)) as [->|Hne]; simpl.
  - rewrite bool_decide_eq_true_2 by done. simpl.
    clear IH. induction d as [|[k1 v1] d IHd]; simpl; [done|].
    simpl in Hnotin, Hnd.
    apply not_elem_of_cons in Hnotin as [Hne Hnotin]. apply NoDup_cons in Hnd as [_ Hnd].
    rewrite bool_decide_eq_false_2 by (intros ->; by apply Hne). simpl. f_equal. auto.
  - rewrite bool_decide_eq_false_2 by congruence. simpl. f_equal. auto.
Qed.

Lemma alter_fixed {A} (f : A -> A) (l : list A) (i : nat) :
  (forall x, l !! i = Some x -> f x = x) -> alter f i l = l.
Proof.
  revert i. induction l as [|y l IH]; intros i H; [done|].
  destruct i as [|i]; simpl.
  - f_equal. by apply H.
  - f_equal. apply IH. intros x Hx. by apply H.
Qed.

Lemma update_fixed st ns f :
  (forall N, node st ns = Some N -> f N = N) -> update st ns f = st.
Proof.
  intros H. unfold update. rewrite alter_fixed by exact H. by destruct st.
Qed.

Lemma set_callbacks_same N : set_callbacks (_onStateChangedCallbacks N) N = N.
Proof. by destruct N. Qed.

(** The identifiers returned by a sequence of registrations, on whatever
    nodes, are the successors of the counter in order: no identifier is
    returned twice, in one tree or across trees that share the store. *)
Theorem callback_ids_are_unique (rs : list (NodeId * Callback)) (st : Store) :
  (register_all rs st).1
  = map (fun i => _lastCallbackId st + 1 + Z.of_nat i) (seq 0 (length rs)) /\
  NoDup (register_all rs st).1 /\
  _lastCallbackId (register_all rs st).2 = _lastCallbackId st + Z.of_nat (length rs).
Proof.
  assert (Hids : forall rs st,
    (register_all rs st).1
    = map (fun i => _lastCallbackId st + 1 + Z.of_nat i) (seq 0 (length rs)) /\
    _lastCallbackId (register_all rs st).2 = _lastCallbackId st + Z.of_nat (length rs)).
  { clear. induction rs as [|[ns f] rs IH]; intros st; simpl; [split; [done | lia]|].
    specialize (IH (update
      {| nodes := nodes st; _lastCallbackId := _lastCallbackId st + 1 |} ns
      (fun n => set_callbacks
         (dict_set (_onStateChangedCallbacks n) (_lastCallbackId st + 1) f) n))).
    destruct (register_all rs _) as [ids st2]. simpl in *.
    destruct IH as [-> ->]. split; [|lia].
    f_equal; [lia|]. rewrite <- seq_shift, map_map. apply map_ext. intros i. lia. }
  destruct (Hids rs st) as [H1 H2]. split; [done|]. split; [|done].
  rewrite H1. apply NoDup_ListNoDup, Finite.Injective_map_NoDup; [|apply List.seq_NoDup].
  intros i j Hij. lia.
Qed.

(** A new observer is appended to the observers of its node, which are
    called in this order; the other nodes are as before. *)
Theorem addOnStateChanged_appends (self : NodeId) (N : Namespace) (f : Callback)
    (st : Store) :
  ids_issued st -> node st self = Some N ->
  let id := (addOnStateChanged self f st).1 in
  let st' := (addOnStateChanged self f st).2 in
  id = _lastCallbackId st + 1 /\
  _onStateChangedCallbacks (get st' self)
  = _onStateChangedCallbacks N ++ [(id, f)] /\
  (forall n, n <> self -> node st' n = node st n) /\
  ids_issued st'.
Proof.
  intros Hissued Hself. simpl.
  destruct (Hissued self N Hself) as [Hnd Hbound].
  assert (Hfresh : ~ In (_lastCallbackId st + 1) (dict_keys (_onStateChangedCallbacks N))).
  { intros Hin. specialize (Hbound _ Hin). lia. }
  split; [done|]. split; [|split].
  - unfold get. rewrite node_update, decide_True by done.
    change (node {| nodes := nodes st; _lastCallbackId := _lastCallbackId st + 1 |} self)
      with (node st self).
    rewrite Hself. simpl. by apply dict_set_fresh.
  - intros n Hne. by rewrite node_update, decide_False.
  - intros n X HX. rewrite node_update in HX. simpl.
    change (node {| nodes := nodes st; _lastCallbackId := _lastCallbackId st + 1 |} n)
      with (node st n) in HX.
    destruct (decide (n = self)) as [->|Hne].
    + rewrite Hself in HX. injection HX as <-. simpl.
      rewrite dict_set_fresh by done. unfold dict_keys. rewrite map_app. simpl.
      split.
      * apply NoDup_app. split; [done|]. split; [|apply NoDup_singleton].
        intros x Hx Hx'. apply list_elem_of_singleton in Hx'. subst.
        apply Hfresh. by apply list_elem_of_In.
      * intros id Hin. apply in_app_or in Hin as [Hin | [<- | []]]; [|lia].
        specialize (Hbound id Hin). lia.
    + destruct (Hissued n X HX) as [Hnd' Hbound']. split; [done|].
      intros id Hin. specialize (Hbound' id Hin). lia.
Qed.

(** [removeCallback] of an identifier that is not registered on the node
    changes nothing; otherwise it removes that observer from that node only,
    and the other observers of the node stay in their order.  Removing an
    observer just added gives back the nodes as they were. *)
Theorem removeCallback_removes_one (self : NodeId) (N : Namespace)
    (callbackId : Z) (st : Store) :
  ids_issued st -> node st self = Some N ->
  (dict_get (_onStateChangedCallbacks N) callbackId = None ->
   removeCallback self callbackId st = st) /\
  dict_get (_onStateChangedCallbacks (get (removeCallback self callbackId st) self))
    callbackId = None /\
  dict_keys (_onStateChangedCallbacks (get (removeCallback self callbackId st) self))
  = List.filter (fun id => negb (bool_decide (id = callbackId)))
      (dict_keys (_onStateChangedCallbacks N)) /\
  (forall id, id <> callbackId ->
     dict_get (_onStateChangedCallbacks (get (removeCallback self callbackId st) self)) id
     = dict_get (_onStateChangedCallbacks N) id) /\
  (forall n, n <> self -> node (removeCallback self callbackId st) n = node st n) /\
  (forall f,
     nodes (removeCallback self (addOnStateChanged self f st).1
              (addOnStateChanged self f st).2) = nodes st).
Proof.
  intros Hissued Hself. destruct (Hissued self N Hself) as [Hnd Hbound].
  assert (Hget : get (removeCallback self callbackId st) self
                 = set_callbacks (dict_pop (_onStateChangedCallbacks N) callbackId) N).
  { unfold get, removeCallback. rewrite node_update, decide_True by done.
    by rewrite Hself. }
  split; [|split; [|split; [|split; [|split]]]].
  - intros Habsent. unfold removeCallback. apply update_fixed.
    intros X HX. rewrite Hself in HX. injection HX as <-.
    rewrite dict_pop_absent by done. apply set_callbacks_same.
  - rewrite Hget. simpl. by apply dict_get_pop_eq.
  - rewrite Hget. simpl. by apply dict_keys_pop.
  - intros id Hne. rewrite Hget. simpl. by apply dict_get_pop_ne.
  - intros n Hne. unfold removeCallback. by rewrite node_update, decide_False.
  - intros f. unfold removeCallback, addOnStateChanged, update. simpl.
    rewrite list_alter_alter_eq. apply alter_fixed.
    intros X HX. unfold node in Hself.
    assert (X = N) as ->
      by (apply (inj Some); etransitivity; [symmetry; exact HX | exact Hself]).
    assert (Hfresh : ~ In (_lastCallbackId st + 1)
                         (dict_keys (_onStateChangedCallbacks N))).
    { intros Hin. specialize (Hbound _ Hin). lia. }
    simpl. rewrite dict_set_fresh by done. simpl.
    rewrite dict_pop_snoc by done. by destruct N.
Qed.

Lemma distinct_NoDup (l : list Z) : distinct l = true -> NoDup l.
Proof.
  induction l as [|x l IH]; simpl; [constructor|].
  intros H. apply andb_true_iff in H as [Hx Hl]. apply NoDup_cons. split; [|auto].
  intros Hin. apply negb_true_iff in Hx.
  assert (existsb (Z.eqb x) l = true); [|congruence].
  apply existsb_exists. exists x. split; [by apply list_elem_of_In | apply Z.eqb_refl].
Qed.

Lemma ids_issuedb_sound st : ids_issuedb st = true -> ids_issued st.
Proof.
  unfold ids_issuedb. rewrite forallb_forall. intros H n N HN.
  assert (Hin : In N (nodes st)).
  { apply list_elem_of_In, list_elem_of_lookup. by exists n. }
  specialize (H N Hin). apply andb_true_iff in H as [Hd Hb].
  split; [by apply distinct_NoDup|].
  rewrite forallb_forall in Hb. intros id Hid. specialize (Hb id Hid). lia.
Qed.

(** A fifth observer on the root of the observed tree comes after the three
    that are there. *)
Lemma addOnStateChanged_witness :
  (addOnStateChanged 0%nat 0%nat demo_observed).1 = 5 /\
  dict_keys (_onStateChangedCallbacks
               (get (addOnStateChanged 0%nat 0%nat demo_observed).2 0%nat))
  = [1; 2; 3; 5].
Proof.
  destruct (addOnStateChanged_appends 0%nat (get demo_observed 0%nat) 0%nat demo_observed)
    as (Hid & Hreg & _).
  - apply ids_issuedb_sound. vm_compute. reflexivity.
  - reflexivity.
  - split; [exact Hid|]. rewrite Hreg. vm_compute. reflexivity.
Defined.

Lemma removeCallback_witness :
  dict_keys (_onStateChangedCallbacks (get (removeCallback 0%nat 2 demo_observed) 0%nat))
  = [1; 3] /\
  removeCallback 0%nat 9 demo_observed = demo_observed.
Proof.
  destruct (removeCallback_removes_one 0%nat (get demo_observed 0%nat) 2 demo_observed)
    as (_ & _ & Hkeys & _).
  - apply ids_issuedb_sound. vm_compute. reflexivity.
  - reflexivity.
  - split; [rewrite Hkeys; vm_compute; reflexivity|].
    vm_compute. reflexivity.
Defined.

(** ** Updates of one node that leave the tree alone *)

Lemma get_update st ns f n :
  get (update st ns f) n
  = if decide (n = ns) then
      match node st n with Some N => f N | None => Namespace_init [] end
    else get st n.
Proof.
  unfold get. rewrite node_update. destruct (decide (n = ns)); [|done].
  by destruct (node st n).
Qed.

Lemma parent_update st ns f n :
  (forall N, _parent (f N) = _parent N) ->
  _parent (get (update st ns f) n) = _parent (get st n).
Proof.
  intros Hf. rewrite get_update. destruct (decide (n = ns)); [|done].
  unfold get. destruct (node st n); simpl; [apply Hf | done].
Qed.

Lemma ancestors_update st ns f fuel : forall o,
  (forall N, _parent (f N) = _parent N) ->
  ancestors fuel (update st ns f) o = ancestors fuel st o.
Proof.
  induction fuel as [|fuel IH]; intros o Hf; destruct o as [n|]; simpl; try done.
  rewrite parent_update by done. f_equal. by apply IH.
Qed.

Lemma wf_update st ns f :
  (forall N, _name (f N) = _name N /\ _parent (f N) = _parent N /\
             _children (f N) = _children N /\
             _sortedChildrenKeys (f N) = _sortedChildrenKeys N) ->
  wf st -> wf (update st ns f).
Proof.
  intros Hf Hwf n N' HN'. rewrite node_update in HN'.
  assert (Hlook : forall m M, node st m = Some M ->
            exists M', node (update st ns f) m = Some M' /\
                       _name M' = _name M /\ _parent M' = _parent M).
  { intros m M HM. rewrite node_update. destruct (decide (m = ns)).
    - rewrite HM. simpl. exists (f M). destruct (Hf M) as (? & ? & _). auto.
    - eauto. }
  assert (Hold : exists N, node st n = Some N /\ _name N' = _name N /\
            _parent N' = _parent N /\ _children N' = _children N /\
            _sortedChildrenKeys N' = _sortedChildrenKeys N).
  { destruct (decide (n = ns)).
    - destruct (node st n) as [N|]; [|done]. injection HN' as <-.
      exists N. split; [done|]. apply Hf.
    - exists N'. auto. }
  destruct Hold as (N & HN & Hname & Hpar & Hch & Hkeys).
  destruct (Hwf n N HN) as (H1 & H2 & H3).
  rewrite Hname, Hpar, Hch, Hkeys. split; [|split].
  - intros p Hp. destruct (H1 p Hp) as (P & c & HP & Hc).
    destruct (Hlook p P HP) as (P' & HP' & HnP & _).
    exists P', c. split; [done|]. congruence.
  - intros c m Hm. destruct (H2 c m Hm) as (M & HM & HnM & HpM).
    destruct (Hlook m M HM) as (M' & HM' & HnM' & HpM').
    exists M'. split; [done|]. split; congruence.
  - exact H3.
Qed.

(** ** The root and the Face of a node *)

Lemma getRoot_fuel st fuel : forall fuel' cur r,
  getRoot fuel st cur = Some r -> (fuel <= fuel')%nat -> getRoot fuel' st cur = Some r.
Proof.
  induction fuel as [|fuel IH]; intros fuel' cur r; simpl; [done|].
  intros H Hle. destruct fuel' as [|fuel']; [lia|]. simpl.
  destruct (_parent (get st cur)); [|done]. apply IH; [done | lia].
Qed.

Lemma ancestors_anc st fuel : forall cur N a,
  wf st -> node st cur = Some N -> In a (ancestors fuel st (Some cur)) ->
  anc st a cur /\ is_Some (node st a).
Proof.
  induction fuel as [|fuel IH]; intros cur N a Hwf HN; simpl; [done|].
  rewrite (get_node _ _ _ HN). intros [<- | Hin].
  - split; [constructor | eauto].
  - destruct (_parent N) as [p|] eqn:Hp; [|by destruct fuel].
    destruct (Hwf cur N HN) as (Hpar & _). destruct (Hpar p Hp) as (P & c & HP & _).
    destruct (IH p P a Hwf HP Hin) as [Hanc Hsome]. split; [|done].
    by apply (anc_parent st a cur N p).
Qed.

Lemma getFace_nearest st fuel : forall cur root,
  getRoot fuel st cur = Some root ->
  _getFace fuel st (Some cur) = Some (nearest_face fuel st cur).
Proof.
  unfold nearest_face.
  induction fuel as [|fuel IH]; intros cur root; simpl; [done|].
  destruct (_face (get st cur)) as [f|]; simpl; [done|].
  destruct (_parent (get st cur)) as [p|].
  - intros H. exact (IH p root H).
  - intros _. by destruct fuel.
Qed.

(** In a well-formed tree [getRoot] returns: the node it returns has no
    parent, is the node itself or one of its ancestors, and has a name that
    is a prefix of the node's name; and it is the root that [getRoot] returns
    for every node below. *)
Theorem getRoot_is_the_parentless_ancestor (st : Store) (self : NodeId)
    (N : Namespace) (fuel : nat) :
  wf st -> node st self = Some N -> (length (_name N) < fuel)%nat ->
  exists root R,
    getRoot fuel st self = Some root /\
    node st root = Some R /\ _parent R = None /\
    anc st root self /\
    isPrefixOf (_name R) (_name N) = true /\
    getRoot fuel st root = Some root /\
    (forall d D, node st d = Some D -> anc st self d ->
       getRoot (S (length (_name D))) st d = Some root).
Proof.
  intros Hwf HN Hfuel.
  destruct (getRoot_ancestors st fuel self N Hwf HN Hfuel) as (root & Hrun & Hin & Hpar).
  destruct (ancestors_anc st fuel self N root Hwf HN Hin) as [Hanc [R HR]].
  rewrite (get_node _ _ _ HR) in Hpar.
  assert (Hroot : forall fuel', getRoot (S fuel') st root = Some root).
  { intros fuel'. simpl. by rewrite (get_node _ _ _ HR), Hpar. }
  exists root, R. split; [done|]. split; [done|]. split; [done|]. split; [done|].
  split; [|split].
  - destruct (ancestors_prefix st fuel self N root Hwf HN Hin) as [k Hk].
    rewrite (get_node _ _ _ HR) in Hk. apply isPrefixOf_spec. eauto.
  - destruct fuel; [lia | apply Hroot].
  - intros d D HD Hd. revert D HD. induction Hd as [|d D0 p HD0 Hp Hd IH]; intros D HD.
    + assert (D = N) as -> by congruence.
      destruct (getRoot_ancestors st (S (length (_name N))) self N Hwf HN ltac:(lia))
        as (root' & Hrun' & _).
      pose proof (getRoot_fuel st _ (fuel + S (length (_name N))) self root Hrun ltac:(lia)).
      pose proof (getRoot_fuel st _ (fuel + S (length (_name N))) self root' Hrun' ltac:(lia)).
      congruence.
    + assert (D0 = D) as -> by congruence.
      destruct (Hwf d D HD) as (Hparent & _).
      destruct (Hparent p Hp) as (P & c & HP & Hname).
      specialize (IH P HP). simpl. rewrite (get_node _ _ _ HD), Hp.
      apply (getRoot_fuel st _ _ p root IH).
      rewrite Hname, length_app. simpl. lia.
Qed.

Lemma expressInterest_nearest st self N interestTemplate fuel :
  wf st -> node st self = Some N -> (length (_name N) < fuel)%nat ->
  expressInterest fuel self interestTemplate st
  = Some match nearest_face fuel st self with
         | Some face =>
             (Returns tt,
              [ExpressInterest face (_name N)
                 (default {| interestLifetimeMilliseconds := 4000 |} interestTemplate)])
         | None => (Raises ValueError, [])
         end.
Proof.
  intros Hwf HN Hfuel.
  destruct (getRoot_ancestors st fuel self N Hwf HN Hfuel) as (root & Hrun & _).
  unfold expressInterest. rewrite (getFace_nearest st fuel self root Hrun).
  destruct (nearest_face fuel st self); [|done].
  rewrite (get_node _ _ _ HN). by destruct interestTemplate.
Qed.

(** [expressInterest] uses the Face of the nearest node, from the node
    upwards, that has one, and expresses one interest with the name of the
    node itself, by default with a lifetime of 4000 milliseconds; when
    neither the node nor an ancestor has a Face it raises ValueError and
    nothing is asked of any Face. *)
Theorem expressInterest_uses_the_nearest_face (st : Store) (self : NodeId)
    (N : Namespace) (interestTemplate : option InterestTemplate) (fuel : nat) :
  wf st -> node st self = Some N -> (length (_name N) < fuel)%nat ->
  expressInterest fuel self interestTemplate st
  = Some match nearest_face fuel st self with
         | Some face =>
             (Returns tt,
              [ExpressInterest face (_name N)
                 (default {| interestLifetimeMilliseconds := 4000 |} interestTemplate)])
         | None => (Raises ValueError, [])
         end.
Proof. apply expressInterest_nearest. Qed.

(** [setFace] registers the prefix of the node when [onRegisterFailed] is
    given, and not otherwise.  Afterwards an interest expressed on a node
    below, with no Face of its own or on the nodes in between, goes to the
    new Face, whatever Face the node had before; and the tree is as before. *)
Theorem setFace_serves_the_nodes_below (st : Store) (self d : NodeId)
    (S0 D : Namespace) (face : Face) (onRegisterFailed : bool)
    (interestTemplate : option InterestTemplate) (fuel : nat)
    (pre post : list NodeId) :
  wf st -> node st self = Some S0 -> node st d = Some D ->
  (length (_name D) < fuel)%nat ->
  ancestors fuel st (Some d) = pre ++ self :: post ->
  (forall n, In n pre -> _face (get st n) = None) ->
  (setFace self face onRegisterFailed st).2
  = (if onRegisterFailed then [RegisterPrefix face (_name S0)] else []) /\
  wf (setFace self face onRegisterFailed st).1 /\
  expressInterest fuel d interestTemplate (setFace self face onRegisterFailed st).1
  = Some (Returns tt,
          [ExpressInterest face (_name D)
             (default {| interestLifetimeMilliseconds := 4000 |} interestTemplate)]).
Proof.
  intros Hwf HS HD Hfuel Hchain Hnone.
  set (st' := update st self (set_face (Some face))).
  assert (Hst' : (setFace self face onRegisterFailed st).1 = st')
    by (unfold setFace; fold st'; by destruct onRegisterFailed).
  assert (Hwf' : wf st') by (apply wf_update; [by intros [] | done]).
  split; [|split].
  - unfold setFace. fold st'. destruct onRegisterFailed; [|done]. simpl.
    subst st'. rewrite get_update, decide_True by done. by rewrite HS.
  - by rewrite Hst'.
  - rewrite Hst'.
    assert (HD' : exists D', node st' d = Some D' /\ _name D' = _name D).
    { subst st'. rewrite node_update. destruct (decide (d = self)); [|eauto].
      rewrite HD. simpl. eauto. }
    destruct HD' as (D' & HD' & Hname).
    rewrite (expressInterest_nearest st' d D' interestTemplate fuel Hwf' HD')
      by (rewrite Hname; lia).
    unfold nearest_face. subst st'. rewrite ancestors_update by (by intros []).
    rewrite Hchain, Hname.
    assert (Hhead : head (omap (fun n => _face (get (update st self (set_face (Some face))) n))
                            (pre ++ self :: post)) = Some face).
    { clear Hchain. induction pre as [|n pre IH]; simpl.
      - rewrite get_update, decide_True by done. by rewrite HS.
      - rewrite get_update. destruct (decide (n = self)) as [->|Hne].
        + by rewrite HS.
        + rewrite (Hnone n) by (by left). apply IH. intros m Hm. apply Hnone. by right. }
    by rewrite Hhead.
Qed.

(** ** The longest-prefix search over the whole subtree *)

Lemma below_name st ns x N :
  wf st -> node st ns = Some N -> below st ns x ->
  exists X k, node st x = Some X /\ _name X = _name N ++ k.
Proof.
  intros Hwf HN Hbelow. revert N HN.
  induction Hbelow as [ns | ns N0 key child x HN0 Hkey Hchild Hbelow IH]; intros N HN.
  - exists N, []. by rewrite app_nil_r.
  - assert (N0 = N) as -> by congruence.
    destruct (Hwf ns N HN) as (_ & Hch & _).
    destruct (Hch key child Hchild) as (M & HM & HnM & _).
    destruct (IH M HM) as (X & k & HX & Hk).
    exists X, ([key] ++ k). split; [done|]. by rewrite Hk, HnM, <- app_assoc.
Qed.

Section MatchBelow.
Variable matchesData : Interest -> Data -> bool.

Lemma findBestMatchName_sound_and_longest interest st : forall fuel ns N res,
  wf st -> node st ns = Some N ->
  _findBestMatchName matchesData fuel st ns interest = Some (Returns res) ->
  (forall m, res = Some m ->
     exists x, below st ns x /\ holds_match matchesData st interest x /\
               _name (get st x) = m) /\
  (forall x, below st ns x -> holds_match matchesData st interest x ->
     exists m, res = Some m /\ (length (_name (get st x)) <= length m)%nat).
Proof.
  induction fuel as [|fuel IH]; intros ns N res Hwf HN Hrun; [done|].
  destruct (Hwf ns N HN) as (_ & Hch & Hkeys).
  (* every key leads to a child whose search returned *)
  assert (Hres : exists results,
    Forall2 (child_result matchesData fuel st interest N) (_sortedChildrenKeys N) results).
  { apply child_results_exist. intros key Hin.
    pose proof (Hkeys key Hin) as Hkey. unfold dict_mem in Hkey.
    destruct (dict_get (_children N) key) as [m|] eqn:Hm; [|done].
    revert Hrun. simpl. rewrite (get_node _ _ _ HN).
    apply list_elem_of_In, list_elem_of_lookup in Hin as [i Hi].
    assert (Hall : forall keys bestMatch,
      (forall k, In k keys -> exists c, dict_get (_children N) k = Some c) ->
      (exists r, best_of_children
         (fun child => _findBestMatchName matchesData fuel st child interest)
         (_children N) keys bestMatch = Some (Returns r)) ->
      forall k c, In k keys -> dict_get (_children N) k = Some c ->
        exists r, _findBestMatchName matchesData fuel st c interest = Some (Returns r)).
    { induction keys as [|k0 keys IHk]; intros bestMatch Hdom [r Hr] k c Hk Hc; [done|].
      simpl in Hr. destruct (dict_get (_children N) k0) as [c0|] eqn:Hc0; [|done].
      destruct (_findBestMatchName matchesData fuel st c0 interest)
        as [[r0|]|] eqn:Hr0; [|done|done].
      destruct Hk as [<- | Hk].
      - assert (c = c0) as -> by congruence. eauto.
      - eapply IHk; [intros k1 Hk1; apply Hdom; by right | eauto | done | done]. }
    intros Hrun.
    destruct (Hall (rev (_sortedChildrenKeys N)) None) with (k := key) (c := m) as [r Hr].
    - intros k Hk. apply in_rev in Hk. pose proof (Hkeys k Hk) as Hk'.
      unfold dict_mem in Hk'. destruct (dict_get (_children N) k); [eauto | done].
    - destruct (best_of_children _ _ _ None) as [[[b|]|]|]; try done; eauto.
    - apply in_rev. rewrite rev_involutive.
      apply list_elem_of_In, list_elem_of_lookup. eauto.
    - done.
    - exists r, m. done. }
  destruct Hres as [results Hres].
  rewrite (findBestMatchName_step matchesData fuel st ns N interest results HN Hres) in Hrun.
  injection Hrun as <-.
  (* the subtree of each key *)
  assert (Hsub : forall i key r, _sortedChildrenKeys N !! i = Some key ->
    results !! i = Some r ->
    exists child M, dict_get (_children N) key = Some child /\ node st child = Some M /\
      _name M = _name N ++ [key] /\
      (forall m, r = Some m ->
         exists x, below st child x /\ holds_match matchesData st interest x /\
                   _name (get st x) = m) /\
      (forall x, below st child x -> holds_match matchesData st interest x ->
         exists m, r = Some m /\ (length (_name (get st x)) <= length m)%nat)).
  { intros i key r Hi Hr.
    destruct (Forall2_lookup_lr _ _ _ _ _ _ Hres Hi Hr) as (child & Hc & Hrun).
    destruct (Hch key child Hc) as (M & HM & HnM & _).
    destruct (IH child M r Hwf HM Hrun) as [Hs Hl]. exists child, M. auto. }
  split.
  - intros m Hm. destruct (best results) as [b|] eqn:Hb.
    + injection Hm as ->. destruct (best_Some results m Hb) as (j & Hj & _).
      destruct (Forall2_lookup_r _ _ _ _ _ Hres Hj) as (key & Hkey & _).
      destruct (Hsub j key (Some m) Hkey Hj) as (child & M & Hc & HM & _ & Hs & _).
      destruct (Hs m eq_refl) as (x & Hx & Hmatch & Hname).
      exists x. split; [|done].
      apply (below_child st ns N key child x); try done.
      apply list_elem_of_In, list_elem_of_lookup. eauto.
    + exists ns. split; [constructor|]. rewrite (get_node _ _ _ HN).
      unfold own_match in Hm. unfold holds_match. rewrite (get_node _ _ _ HN).
      destruct (_data N) as [d|]; [|done].
      destruct (matchesData interest d) eqn:Hd; [|done].
      injection Hm as <-. eauto.
  - intros x Hx Hmatch.
    inversion Hx as [ns0 | ns0 N0 key child x0 HN0 Hkey Hchild Hbelow]; subst.
    + (* the node itself *)
      rewrite (get_node _ _ _ HN).
      destruct (best results) as [b|] eqn:Hb.
      * exists b. split; [done|]. destruct (best_Some results b Hb) as (j & Hj & _).
        destruct (Forall2_lookup_r _ _ _ _ _ Hres Hj) as (key & Hkey & _).
        destruct (Hsub j key (Some b) Hkey Hj) as (child & M & Hc & HM & HnM & Hs & _).
        destruct (Hs b eq_refl) as (y & Hy & _ & Hname).
        destruct (below_name st child y M Hwf HM Hy) as (Y & k & HY & Hk).
        rewrite (get_node _ _ _ HY) in Hname. subst b.
        rewrite Hk, HnM, !length_app. lia.
      * destruct Hmatch as (d & Hd & Hyes). rewrite (get_node _ _ _ HN) in Hd.
        unfold own_match. rewrite Hd, Hyes. eauto.
    + (* a node below a child *)
      assert (N0 = N) as -> by congruence.
      apply list_elem_of_In, list_elem_of_lookup in Hkey as [i Hi].
      destruct (Forall2_lookup_l _ _ _ _ _ Hres Hi) as (r & Hr & _).
      destruct (Hsub i key r Hi Hr) as (child' & M & Hc & HM & _ & _ & Hl).
      assert (child' = child) as -> by congruence.
      destruct (Hl x Hbelow Hmatch) as (m & -> & Hlen).
      destruct (best results) as [b|] eqn:Hb.
      * exists b. split; [done|]. destruct (best_Some results b Hb) as (j & _ & Hmax).
        destruct (Hmax i m Hr) as [Hle _]. unfold size in Hle. lia.
      * pose proof (best_None results Hb (Some m)) as Hn. discriminate Hn.
        apply list_elem_of_In, list_elem_of_lookup. eauto.
Qed.

(** The search below a node of a well-formed tree returns.  A name it
    returns is the name of a node of the subtree whose Data packet the
    interest matches, and no node of the subtree with such a packet has a
    longer name; it returns None only when no node of the subtree has a
    packet that the interest matches. *)
Theorem findBestMatchName_finds_a_longest_match (st : Store) (ns : NodeId)
    (N : Namespace) (interest : Interest) (fuel : nat) :
  wf st -> node st ns = Some N -> (depth_bound st - length (_name N) < fuel)%nat ->
  exists res,
    _findBestMatchName matchesData fuel st ns interest = Some (Returns res) /\
    (forall m, res = Some m ->
       exists x, below st ns x /\ holds_match matchesData st interest x /\
                 _name (get st x) = m) /\
    (forall x, below st ns x -> holds_match matchesData st interest x ->
       exists m, res = Some m /\ (length (_name (get st x)) <= length m)%nat) /\
    (res = None <->
     forall x, below st ns x -> ~ holds_match matchesData st interest x).
Proof.
  intros Hwf HN Hfuel.
  destruct (findBestMatchName_total matchesData interest st fuel ns N Hwf HN Hfuel)
    as [res Hrun].
  destruct (findBestMatchName_sound_and_longest interest st fuel ns N res Hwf HN Hrun)
    as [Hsound Hlongest].
  exists res. split; [done|]. split; [done|]. split; [done|]. split.
  - intros -> x Hx Hmatch. by destruct (Hlongest x Hx Hmatch) as (m & Hm & _).
  - intros Hnone. destruct res as [m|]; [|done].
    destruct (Hsound m eq_refl) as (x & Hx & Hmatch & _). by destruct (Hnone x Hx).
Qed.

End MatchBelow.

(** ** The stream handler: what is requested *)

Section StreamRequests.
Variable INTEREST_NETWORK_NACK : Z.
Variable OBJECT_READY : Z.
Variable NAME_COMPONENT_META : Component.
Variable fromSequenceNumber : Z -> Component.
Variable isSequenceNumber : Component -> bool.
Variable toSequenceNumber : Component -> Z.
Variable isVersion : Component -> bool.
Variable wireDecode : Obj -> Outcome (list Name).
Variable report_raises : Callback -> Z -> bool.

Local Abbreviation metaName := (metaName NAME_COMPONENT_META fromSequenceNumber).
Local Abbreviation requests := (requests NAME_COMPONENT_META fromSequenceNumber).
Local Abbreviation idle := (idle NAME_COMPONENT_META fromSequenceNumber).
Local Abbreviation pending :=
  (pending NAME_COMPONENT_META fromSequenceNumber toSequenceNumber).
Local Abbreviation request_loop' :=
  (request_loop NAME_COMPONENT_META fromSequenceNumber).
Local Abbreviation _requestNewSequenceNumbers' :=
  (_requestNewSequenceNumbers NAME_COMPONENT_META fromSequenceNumber).
Local Abbreviation _onStateChanged' :=
  (_onStateChanged INTEREST_NETWORK_NACK OBJECT_READY NAME_COMPONENT_META
     fromSequenceNumber isSequenceNumber toSequenceNumber isVersion wireDecode).

Hypothesis sequence_number_roundtrip :
  forall n, 0 <= n -> toSequenceNumber (fromSequenceNumber n) = n.

Lemma metaName_inj ns s s' : 0 <= s -> 0 <= s' -> metaName ns s = metaName ns s' -> s = s'.
Proof.
  intros Hs Hs' H.
  rewrite <- (seq_of_metaName NAME_COMPONENT_META fromSequenceNumber toSequenceNumber
                sequence_number_roundtrip ns s Hs).
  rewrite H. by apply seq_of_metaName.
Qed.

Lemma view_objectNeeded n w m :
  view (objectNeeded n w) m
  = if decide (m = n) then
      {| nv_state := NamespaceState.INTEREST_EXPRESSED;
         nv_data := nv_data (view w n); nv_obj := nv_obj (view w n) |}
    else view w m.
Proof.
  unfold view at 1, objectNeeded. simpl. destruct (decide (m = n)) as [->|Hne].
  - by rewrite dict_get_set_eq.
  - by rewrite dict_get_set_ne.
Qed.

Lemma increasing_above c ss s : increasing c ss -> In s ss -> c < s.
Proof.
  revert c. induction ss as [|x ss IH]; intros c; simpl; [done|].
  intros [Hc Hinc] [<- | Hin]; [done|]. specialize (IH x Hinc Hin). lia.
Qed.

(** The loop requests the first idle sequence numbers after the cursor, as
    many as there are free places in the window. *)
Lemma request_loop_requests ns fuel : forall out c h w h' w' e,
  -1 <= c ->
  request_loop' fuel ns out c h w = Some (h', w', e) ->
  exists ss,
    e = requests ns ss /\
    Z.of_nat (length ss) = Z.max out (_pipelineSize h) - out /\
    increasing c ss /\
    (forall s, In s ss -> idle ns w s) /\
    (forall s s', In s ss -> c < s' < s -> idle ns w s' -> In s' ss) /\
    (forall s, In s ss ->
       nv_state (view w' (metaName ns s)) = NamespaceState.INTEREST_EXPRESSED) /\
    (forall n, (forall s, In s ss -> n <> metaName ns s) -> view w' n = view w n) /\
    _maxRequestedSequenceNumber h' = fold_left Z.max ss (_maxRequestedSequenceNumber h).
Proof.
  induction fuel as [|fuel IH]; intros out c h w h' w' e Hc; simpl.
  - destruct (Z.ltb_spec out (_pipelineSize h)); [done|].
    intros [= <- <- <-]. exists []. simpl. repeat split; try done. lia.
  - destruct (Z.ltb_spec out (_pipelineSize h)) as [Hlt|Hge].
    2:{ intros [= <- <- <-]. exists []. simpl. repeat split; try done. lia. }
    fold (metaName ns (c + 1)).
    change (bool_decide (nv_data (view w (metaName ns (c + 1))) <> None)
            || (nv_state (view w (metaName ns (c + 1))) >=? NamespaceState.INTEREST_EXPRESSED))
      with (busy (view w (metaName ns (c + 1)))).
    destruct (busy (view w (metaName ns (c + 1)))) eqn:Hbusy.
    + intros Hrun.
      destruct (IH out (c + 1) h w h' w' e ltac:(lia) Hrun)
        as (ss & He & Hlen & Hinc & Hidle & Hfirst & Hstate & Hframe & Hmax).
      exists ss. repeat split; try done.
      * destruct ss as [|s ss]; [done|]. simpl in *. split; [lia | tauto].
      * intros s s' Hs Hs' Hidle'.
        destruct (decide (s' = c + 1)) as [->|Hne].
        -- unfold idle in Hidle'. congruence.
        -- apply (Hfirst s s'); [done | lia | done].
    + set (h1 := set_nRequested (_nRequestedSequenceNumbers h + 1) h).
      match goal with
      | |- context [request_loop' fuel ns (out + 1) (c + 1) ?a ?b] =>
          set (h2 := a); set (w1 := b)
      end.
      destruct (request_loop' fuel ns (out + 1) (c + 1) h2 w1)
        as [[[h3 w3] e3]|] eqn:Hrun; [|done].
      intros [= <- <- <-].
      destruct (IH (out + 1) (c + 1) h2 w1 h3 w3 e3 ltac:(lia) Hrun)
        as (ss & He & Hlen & Hinc & Hidle & Hfirst & Hstate & Hframe & Hmax).
      assert (Hp2 : _pipelineSize h2 = _pipelineSize h)
        by (subst h2 h1; by destruct (_ >? _)).
      assert (Hm2 : _maxRequestedSequenceNumber h2
                    = Z.max (_maxRequestedSequenceNumber h) (c + 1)).
      { subst h2 h1. simpl.
        destruct (Z.gtb_spec (c + 1) (_maxRequestedSequenceNumber h)); simpl; lia. }
      assert (Hother : forall s, In s ss -> metaName ns s <> metaName ns (c + 1)).
      { intros s Hs Heq. pose proof (increasing_above _ _ _ Hinc Hs).
        apply metaName_inj in Heq; lia. }
      assert (Hview : forall s, c + 1 < s ->
                view w1 (metaName ns s) = view w (metaName ns s)).
      { intros s Hs. subst w1. rewrite view_objectNeeded.
        destruct (decide _) as [Heq|]; [|done]. apply metaName_inj in Heq; lia. }
      exists ((c + 1) :: ss).
      split; [|split; [|split; [|split; [|split; [|split; [|split]]]]]].
      * by rewrite He.
      * simpl length. rewrite Hp2 in Hlen. lia.
      * simpl. split; [lia | done].
      * intros s [<- | Hs]; [exact Hbusy|].
        unfold idle. rewrite <- Hview; [by apply Hidle|].
        by apply (increasing_above (c + 1) ss).
      * intros s s' [<- | Hs] Hs' Hidle'; [lia|].
        destruct (decide (s' = c + 1)) as [->|Hne]; [by left|]. right.
        apply (Hfirst s s'); [done | lia|].
        unfold idle. rewrite Hview by lia. exact Hidle'.
      * intros s [<- | Hs]; [|by apply Hstate].
        rewrite Hframe by (intros s Hs Heq; by apply (Hother s Hs)).
        subst w1. rewrite view_objectNeeded, decide_True by done. done.
      * intros n Hn. rewrite Hframe by (intros s Hs; apply Hn; by right).
        subst w1. rewrite view_objectNeeded, decide_False; [done|].
        apply Hn. by left.
      * simpl. by rewrite Hmax, Hm2.
Qed.

Lemma requestNewSequenceNumbers_spec (ns : Name) (h : Handler) (w : World) :
  namespace h = Some ns ->
  -1 <= _maxReportedSequenceNumber h ->
  exists fuel0 h' w' ss,
    (forall fuel, (fuel0 <= fuel)%nat ->
       _requestNewSequenceNumbers' fuel h w = Some (Returns tt, h', w', requests ns ss) /\
       _requestNewSequenceNumbers' fuel h' w' = Some (Returns tt, h', w', [])) /\
    Z.of_nat (length ss) = Z.max (outstanding h) (_pipelineSize h) - outstanding h /\
    outstanding h' = Z.max (outstanding h) (_pipelineSize h) /\
    increasing (_maxReportedSequenceNumber h) ss /\
    (forall s, In s ss -> idle ns w s) /\
    (forall s s', In s ss -> _maxReportedSequenceNumber h < s' < s -> idle ns w s' ->
       In s' ss) /\
    (forall s, In s ss ->
       nv_state (view w' (metaName ns s)) = NamespaceState.INTEREST_EXPRESSED) /\
    (forall n, (forall s, In s ss -> n <> metaName ns s) -> view w' n = view w n) /\
    _maxRequestedSequenceNumber h' = fold_left Z.max ss (_maxRequestedSequenceNumber h) /\
    _nReportedSequenceNumbers h' = _nReportedSequenceNumbers h /\
    _maxReportedSequenceNumber h' = _maxReportedSequenceNumber h /\
    _pipelineSize h' = _pipelineSize h /\
    namespace h' = namespace h /\
    face w' = face w.
Proof.
  intros Hns Hmax.
  destruct (request_loop_total NAME_COMPONENT_META fromSequenceNumber toSequenceNumber
              sequence_number_roundtrip _ ns (outstanding h)
              (_maxReportedSequenceNumber h) h w Hmax (Nat.le_refl _))
    as [[[h' w'] e] Hloop].
  destruct (request_loop_requests ns _ _ _ _ _ _ _ _ Hmax Hloop)
    as (ss & -> & Hlen & Hinc & Hidle & Hfirst & Hstate & Hframe & Hmaxreq).
  pose proof (request_loop_frame NAME_COMPONENT_META fromSequenceNumber _ _ _ _ _ _ _ _ _
                Hloop) as (Hns' & Hp' & _ & Hrep' & Hmax' & Hreq' & Hface').
  assert (Hout : outstanding h' = Z.max (outstanding h) (_pipelineSize h))
    by (unfold outstanding in *; lia).
  eexists _, h', w', ss. split; [|repeat split; done].
  intros fuel Hfuel. split.
  - unfold _requestNewSequenceNumbers. rewrite Hns.
    apply (request_loop_fuel NAME_COMPONENT_META fromSequenceNumber _ fuel) in Hloop;
      [|exact Hfuel].
    unfold outstanding in Hloop. by rewrite Hloop.
  - unfold _requestNewSequenceNumbers. rewrite Hns', Hns.
    fold (outstanding h').
    assert (Hdone : (outstanding h' <? _pipelineSize h') = false)
      by (apply Z.ltb_ge; lia).
    destruct fuel; simpl; by rewrite Hdone.
Qed.

(** [_requestNewSequenceNumbers] returns, and fills the window: it requests
    as many sequence numbers as the pipeline has free places, in ascending
    order, the first ones above [_maxReportedSequenceNumber] whose [_meta]
    node has no Data packet and is not already requested; it leaves these
    nodes requested and the other nodes as they are; and a second call
    requests nothing. *)
Theorem requestNewSequenceNumbers_fills_the_window (ns : Name) (h : Handler)
    (w : World) :
  namespace h = Some ns ->
  -1 <= _maxReportedSequenceNumber h ->
  exists fuel0 h' w' ss,
    (forall fuel, (fuel0 <= fuel)%nat ->
       _requestNewSequenceNumbers' fuel h w = Some (Returns tt, h', w', requests ns ss) /\
       _requestNewSequenceNumbers' fuel h' w' = Some (Returns tt, h', w', [])) /\
    Z.of_nat (length ss) = Z.max (outstanding h) (_pipelineSize h) - outstanding h /\
    outstanding h' = Z.max (outstanding h) (_pipelineSize h) /\
    increasing (_maxReportedSequenceNumber h) ss /\
    (forall s, In s ss -> idle ns w s) /\
    (forall s s', In s ss -> _maxReportedSequenceNumber h < s' < s -> idle ns w s' ->
       In s' ss) /\
    (forall s, In s ss ->
       nv_state (view w' (metaName ns s)) = NamespaceState.INTEREST_EXPRESSED) /\
    (forall n, (forall s, In s ss -> n <> metaName ns s) -> view w' n = view w n) /\
    _maxRequestedSequenceNumber h' = fold_left Z.max ss (_maxRequestedSequenceNumber h) /\
    _nReportedSequenceNumbers h' = _nReportedSequenceNumbers h /\
    _maxReportedSequenceNumber h' = _maxReportedSequenceNumber h /\
    _pipelineSize h' = _pipelineSize h /\
    namespace h' = namespace h /\
    face w' = face w.
Proof. apply requestNewSequenceNumbers_spec. Qed.

End StreamRequests.

(** ** The stream handler: state changes *)

Lemma last_two (l : Name) (c a : Component) :
  name_last l = Some a /\ name_last2 l = Some c <-> exists p, l = p ++ [c; a].
Proof.
  unfold name_last, name_last2. split.
  - intros [Ha Hc]. destruct (rev l) as [|a' [|c' r]] eqn:Hrev; simpl in *; try done.
    injection Ha as ->. injection Hc as ->. exists (rev r).
    rewrite <- (rev_involutive l), Hrev. simpl. by rewrite <- app_assoc.
  - intros [p ->]. by rewrite rev_app_distr.
Qed.

Lemma last_one (l : Name) (a : Component) :
  name_last l = Some a <-> exists p, l = p ++ [a].
Proof.
  unfold name_last. split.
  - intros Ha. destruct (rev l) as [|a' r] eqn:Hrev; simpl in *; [done|].
    injection Ha as ->. exists (rev r). by rewrite <- (rev_involutive l), Hrev.
  - intros [p ->]. by rewrite rev_app_distr.
Qed.

Section StreamEvents.
Variable INTEREST_NETWORK_NACK : Z.
Variable OBJECT_READY : Z.
Variable NAME_COMPONENT_META : Component.
Variable fromSequenceNumber : Z -> Component.
Variable isSequenceNumber : Component -> bool.
Variable toSequenceNumber : Component -> Z.
Variable isVersion : Component -> bool.
Variable wireDecode : Obj -> Outcome (list Name).

Local Abbreviation metaName := (metaName NAME_COMPONENT_META fromSequenceNumber).
Local Abbreviation requests := (requests NAME_COMPONENT_META fromSequenceNumber).
Local Abbreviation idle := (idle NAME_COMPONENT_META fromSequenceNumber).
Local Abbreviation _onStateChanged' :=
  (_onStateChanged INTEREST_NETWORK_NACK OBJECT_READY NAME_COMPONENT_META
     fromSequenceNumber isSequenceNumber toSequenceNumber isVersion wireDecode).

(** The test for a versioned child of [_latest]. *)
Lemma versioned_latest_spec (latest changed : Name) :
  (size changed =? size latest + 1) && isPrefixOf latest changed
  && test (name_last changed) isVersion = true
  <-> exists version, changed = latest ++ [version] /\ isVersion version = true.
Proof.
  split.
  - intros H. apply andb_true_iff in H as [H Hver]. apply andb_true_iff in H as [Hsize Hpre].
    apply Z.eqb_eq in Hsize. apply isPrefixOf_spec in Hpre as [k ->].
    rewrite size_app in Hsize. unfold size in Hsize.
    destruct k as [|v [|? ?]]; simpl in Hsize; try lia.
    rewrite name_last_snoc in Hver. eauto.
  - intros (version & -> & Hver).
    rewrite size_app, isPrefixOf_app, name_last_snoc. simpl. rewrite Hver.
    rewrite !andb_true_r. apply Z.eqb_eq. reflexivity.
Qed.

(** The test for the [_meta] node of the highest pipelined request. *)
Lemma highest_request_spec (ns changed : Name) (h : Handler) :
  (size changed =? size ns + 2)
  && test (name_last changed) (fun c => bool_decide (c = NAME_COMPONENT_META))
  && test (name_last2 changed) isSequenceNumber
  && test (name_last2 changed)
       (fun c => toSequenceNumber c =? _maxRequestedSequenceNumber h) = true
  <-> exists p c, changed = p ++ [c; NAME_COMPONENT_META] /\ length p = length ns /\
        isSequenceNumber c = true /\
        toSequenceNumber c = _maxRequestedSequenceNumber h.
Proof.
  split.
  - intros H. apply andb_true_iff in H as [H Hmax]. apply andb_true_iff in H as [H Hseq].
    apply andb_true_iff in H as [Hsize Hmeta]. apply Z.eqb_eq in Hsize.
    destruct (name_last changed) as [a|] eqn:Ha; [|done].
    destruct (name_last2 changed) as [c|] eqn:Hc; [|done]. simpl in *.
    apply bool_decide_eq_true in Hmeta. subst a. apply Z.eqb_eq in Hmax.
    destruct (proj1 (last_two changed c NAME_COMPONENT_META) (conj Ha Hc)) as [p ->].
    exists p, c. repeat split; try done.
    rewrite size_app in Hsize. unfold size in Hsize. simpl in Hsize. lia.
  - intros (p & c & -> & Hlen & Hseq & Hmax).
    destruct (proj2 (last_two (p ++ [c; NAME_COMPONENT_META]) c NAME_COMPONENT_META))
      as [-> ->]; [eauto|].
    simpl. rewrite Hseq, bool_decide_eq_true_2 by done.
    rewrite size_app. unfold size. simpl length.
    repeat (apply andb_true_iff; split); try done; apply Z.eqb_eq; lia.
Qed.

(** A state change that is neither a timeout, a network NACK nor
    OBJECT_READY of a versioned child of [_latest] is ignored: the handler
    is as before and nothing is logged, scheduled or requested. *)
Theorem onStateChanged_ignores_other_events (fuel : nat) (h : Handler) (w : World)
    (ns latest changed : Name) (state : Z) :
  namespace h = Some ns ->
  _latestNamespace h = Some latest ->
  state <> NamespaceState.INTEREST_TIMEOUT ->
  state <> INTEREST_NETWORK_NACK ->
  state <> OBJECT_READY \/
    ~ (exists version, changed = latest ++ [version] /\ isVersion version = true) ->
  _onStateChanged' fuel changed state h w = Some (Returns tt, h, w, []).
Proof.
  intros Hns Hlatest Hto Hnack Hother. unfold _onStateChanged.
  rewrite Hns, Hlatest.
  assert (Ht : (state =? NamespaceState.INTEREST_TIMEOUT)
               || (state =? INTEREST_NETWORK_NACK) = false).
  { apply orb_false_iff. split; by apply Z.eqb_neq. }
  rewrite Ht. simpl.
  assert (Hv : (state =? OBJECT_READY)
               && (size changed =? size latest + 1)
               && isPrefixOf latest changed
               && test (name_last changed) isVersion = false).
  { destruct (Z.eqb_spec state OBJECT_READY) as [Heq|Hne]; [|done]. simpl.
    destruct Hother as [Hne | Hnot]; [done|].
    apply not_true_is_false. intros Hyes. apply Hnot.
    by apply versioned_latest_spec. }
  by rewrite Hv.
Qed.

(** A timeout or a network NACK never changes the handler and never
    requests a sequence number.  It is logged; for [_latest] itself one
    fetch of [_latest] is scheduled after [_latestPacketFreshnessPeriod];
    for another node [_latest] is fetched at once exactly when the handler is
    pipelined and the node is the [_meta] node, two levels below a name as
    long as the handler's, of the sequence number
    [_maxRequestedSequenceNumber]; otherwise nothing more is done. *)
Theorem timeout_only_refetches_latest (fuel : nat) (h : Handler) (w : World)
    (ns latest changed : Name) (state : Z) :
  namespace h = Some ns ->
  _latestNamespace h = Some latest ->
  state = NamespaceState.INTEREST_TIMEOUT \/ state = INTEREST_NETWORK_NACK ->
  OBJECT_READY <> NamespaceState.INTEREST_TIMEOUT ->
  OBJECT_READY <> INTEREST_NETWORK_NACK ->
  exists r w' e,
    _onStateChanged' fuel changed state h w = Some (r, h, w', LogInfo :: e) /\
    (changed = latest ->
       match face w with
       | Some f => r = Returns tt /\
                   e = [CallLater f (_latestPacketFreshnessPeriod h) latest]
       | None => r = Raises AttributeError /\ e = []
       end) /\
    (changed <> latest ->
       r = Returns tt /\
       ((0 < _pipelineSize h /\
         exists p c, changed = p ++ [c; NAME_COMPONENT_META] /\ length p = length ns /\
           isSequenceNumber c = true /\
           toSequenceNumber c = _maxRequestedSequenceNumber h) ->
        e = [LogInfo; ObjectNeeded latest true]) /\
       (~ (0 < _pipelineSize h /\
           exists p c, changed = p ++ [c; NAME_COMPONENT_META] /\ length p = length ns /\
             isSequenceNumber c = true /\
             toSequenceNumber c = _maxRequestedSequenceNumber h) ->
        e = [])).
Proof.
  intros Hns Hlatest Hstate Hto Hnack. unfold _onStateChanged.
  rewrite Hns, Hlatest.
  assert (Ht : (state =? NamespaceState.INTEREST_TIMEOUT)
               || (state =? INTEREST_NETWORK_NACK) = true).
  { destruct Hstate as [-> | ->]; rewrite Z.eqb_refl; [done | apply orb_true_r]. }
  rewrite Ht. simpl.
  destruct (decide (changed = latest)) as [->|Hne].
  - rewrite bool_decide_eq_true_2 by done.
    destruct (face w) as [f|]; eexists _, _, _; (split; [reflexivity|]); split; done.
  - rewrite bool_decide_eq_false_2 by done.
    pose proof (highest_request_spec ns changed h) as Hspec.
    rewrite <- !andb_assoc.
    rewrite <- !andb_assoc in Hspec.
    destruct (Z.gtb_spec (_pipelineSize h) 0) as [Hpos|Hzero]; simpl.
    + destruct ((size changed =? size ns + 2) && _) eqn:Hhigh.
      * eexists _, _, _. split; [reflexivity|]. split; [done|]. intros _.
        split; [done|]. split; [done|]. intros Hnot. exfalso. apply Hnot.
        split; [lia|]. by apply Hspec.
      * assert (Hs : (state =? OBJECT_READY) = false).
        { apply Z.eqb_neq. destruct Hstate as [-> | ->]; congruence. }
        rewrite Hs. simpl.
        eexists _, _, _. split; [reflexivity|]. split; [done|]. intros _.
        split; [done|]. split; [|done]. intros [_ Hyes].
        apply Hspec in Hyes. congruence.
    + assert (Hs : (state =? OBJECT_READY) = false).
      { apply Z.eqb_neq. destruct Hstate as [-> | ->]; congruence. }
      rewrite Hs. simpl.
      eexists _, _, _. split; [reflexivity|]. split; [done|]. intros _.
      split; [done|]. split; [|done]. intros [Hpos _]. lia.
Qed.

End StreamEvents.

(** ** The stream handler: redirects of [_latest] *)

Lemma nv_data_objectNeeded n w m :
  nv_data (view (objectNeeded n w) m) = nv_data (view w m).
Proof. rewrite view_objectNeeded. by destruct (decide (m = n)) as [->|]. Qed.

Lemma nv_obj_objectNeeded n w m :
  nv_obj (view (objectNeeded n w) m) = nv_obj (view w m).
Proof. rewrite view_objectNeeded. by destruct (decide (m = n)) as [->|]. Qed.

Section StreamRedirect.
Variable INTEREST_NETWORK_NACK : Z.
Variable OBJECT_READY : Z.
Variable NAME_COMPONENT_META : Component.
Variable fromSequenceNumber : Z -> Component.
Variable isSequenceNumber : Component -> bool.
Variable toSequenceNumber : Component -> Z.
Variable isVersion : Component -> bool.
Variable wireDecode : Obj -> Outcome (list Name).

Local Abbreviation metaName := (metaName NAME_COMPONENT_META fromSequenceNumber).
Local Abbreviation requests := (requests NAME_COMPONENT_META fromSequenceNumber).
Local Abbreviation idle := (idle NAME_COMPONENT_META fromSequenceNumber).
Local Abbreviation _requestNewSequenceNumbers' :=
  (_requestNewSequenceNumbers NAME_COMPONENT_META fromSequenceNumber).
Local Abbreviation _onStateChanged' :=
  (_onStateChanged INTEREST_NETWORK_NACK OBJECT_READY NAME_COMPONENT_META
     fromSequenceNumber isSequenceNumber toSequenceNumber isVersion wireDecode).

Variables (ns latest : Name) (version c : Component) (blob : Obj) (rest : list Name).
Hypothesis ready_is_no_timeout : OBJECT_READY <> NamespaceState.INTEREST_TIMEOUT.
Hypothesis ready_is_no_nack : OBJECT_READY <> INTEREST_NETWORK_NACK.
Hypothesis version_is_version : isVersion version = true.
Hypothesis blob_decodes : wireDecode blob = Returns ((ns ++ [c]) :: rest).
Hypothesis target_is_sequence_number : isSequenceNumber c = true.

(** The fetch that a redirect to the sequence number of [c] leads to. *)
Lemma redirect_run fuel h w :
  namespace h = Some ns -> _latestNamespace h = Some latest ->
  nv_obj (view w (latest ++ [version])) = Some blob ->
  _onStateChanged' fuel (latest ++ [version]) OBJECT_READY h w
  = match
      match nv_obj (view w (ns ++ [c])) with
      | Some _ => Some (h, w, [])
      | None =>
          if _pipelineSize h =? 0 then
            if nv_state (view w ((ns ++ [c]) ++ [NAME_COMPONENT_META]))
               <? NamespaceState.INTEREST_EXPRESSED
            then Some (h, objectNeeded ((ns ++ [c]) ++ [NAME_COMPONENT_META]) w,
                       [AttachObjectHandler (ns ++ [c]) (toSequenceNumber c);
                        ObjectNeeded ((ns ++ [c]) ++ [NAME_COMPONENT_META]) false])
            else Some (h, w, [])
          else
            match _requestNewSequenceNumbers' fuel
                    (set_nRequested (_nReportedSequenceNumbers h)
                       (set_maxReported (toSequenceNumber c - 1) h)) w with
            | Some (_, h3, w3, e) => Some (h3, w3, e)
            | None => None
            end
      end
    with
    | None => None
    | Some (h', w', e1) =>
        if _pipelineSize h' =? 0 then
          match nv_data (view w' (latest ++ [version])) with
          | None => Some (Raises AttributeError, h', w', e1)
          | Some None => Some (Returns tt, h', w', e1)
          | Some (Some freshnessPeriod) =>
              if Qlt_le_dec freshnessPeriod 0 then Some (Returns tt, h', w', e1)
              else
                match face w' with
                | Some f =>
                    Some (Returns tt, h', w',
                          e1 ++ [CallLater f (Some (freshnessPeriod / (2 # 1))%Q) latest])
                | None => Some (Raises AttributeError, h', w', e1)
                end
          end
        else Some (Returns tt, h', w', e1)
    end.
Proof.
  intros Hns Hlatest Hobj. unfold _onStateChanged. rewrite Hns, Hlatest.
  assert (Ht : (OBJECT_READY =? NamespaceState.INTEREST_TIMEOUT)
               || (OBJECT_READY =? INTEREST_NETWORK_NACK) = false).
  { apply orb_false_iff. split; by apply Z.eqb_neq. }
  rewrite Ht. simpl.
  assert (Hv : (OBJECT_READY =? OBJECT_READY)
               && (size (latest ++ [version]) =? size latest + 1)
               && isPrefixOf latest (latest ++ [version])
               && test (name_last (latest ++ [version])) isVersion = true).
  { rewrite Z.eqb_refl. simpl.
    apply (versioned_latest_spec isVersion). eauto. }
  rewrite Hv. simpl. rewrite Hobj, blob_decodes.
  assert (Htarget : isPrefixOf ns (ns ++ [c]) && (size (ns ++ [c]) =? size ns + 1)
                    && test (name_last (ns ++ [c])) isSequenceNumber = true).
  { rewrite isPrefixOf_app, name_last_snoc, size_app. simpl.
    rewrite target_is_sequence_number, andb_true_r. apply Z.eqb_eq. reflexivity. }
  rewrite Htarget. simpl. rewrite name_last_snoc. unfold append.
  reflexivity.
Qed.

(** In polling mode (a pipeline size of 0) a redirect to a sequence number
    fetches its [_meta] packet unless the object is there or the packet is
    already requested, and schedules the next fetch of [_latest] after half
    the freshness period of the [_latest] packet; the handler is as before,
    and the same redirect received again fetches nothing more. *)
Theorem polling_redirect_fetches_once (fuel : nat) (h : Handler) (w : World)
    (freshnessPeriod : Q) (f : Face) :
  namespace h = Some ns -> _latestNamespace h = Some latest ->
  nv_obj (view w (latest ++ [version])) = Some blob ->
  _pipelineSize h = 0 ->
  nv_data (view w (latest ++ [version])) = Some (Some freshnessPeriod) ->
  (0 <= freshnessPeriod)%Q ->
  face w = Some f ->
  let sequenceMeta := (ns ++ [c]) ++ [NAME_COMPONENT_META] in
  let poll := CallLater f (Some (freshnessPeriod / (2 # 1))%Q) latest in
  exists w' e,
    _onStateChanged' fuel (latest ++ [version]) OBJECT_READY h w
    = Some (Returns tt, h, w', e ++ [poll]) /\
    (if bool_decide (nv_obj (view w (ns ++ [c])) = None)
        && (nv_state (view w sequenceMeta) <? NamespaceState.INTEREST_EXPRESSED)
     then w' = objectNeeded sequenceMeta w /\
          e = [AttachObjectHandler (ns ++ [c]) (toSequenceNumber c);
               ObjectNeeded sequenceMeta false]
     else w' = w /\ e = []) /\
    _onStateChanged' fuel (latest ++ [version]) OBJECT_READY h w'
    = Some (Returns tt, h, w', [poll]).
Proof.
  intros Hns Hlatest Hobj Hp Hdata Hfresh Hface sequenceMeta poll.
  assert (Hrun : forall w0,
    nv_obj (view w0 (latest ++ [version])) = Some blob ->
    nv_data (view w0 (latest ++ [version])) = Some (Some freshnessPeriod) ->
    face w0 = Some f ->
    _onStateChanged' fuel (latest ++ [version]) OBJECT_READY h w0
    = if bool_decide (nv_obj (view w0 (ns ++ [c])) = None)
         && (nv_state (view w0 sequenceMeta) <? NamespaceState.INTEREST_EXPRESSED)
      then Some (Returns tt, h, objectNeeded sequenceMeta w0,
                 [AttachObjectHandler (ns ++ [c]) (toSequenceNumber c);
                  ObjectNeeded sequenceMeta false] ++ [poll])
      else Some (Returns tt, h, w0, [poll])).
  { intros w0 Hobj0 Hdata0 Hface0. rewrite (redirect_run fuel h w0 Hns Hlatest Hobj0).
    rewrite Hp. simpl. fold sequenceMeta.
    assert (Hq : forall A (x y : A), (if Qlt_le_dec freshnessPeriod 0 then x else y) = y).
    { intros A x y. destruct (Qlt_le_dec freshnessPeriod 0) as [Hlt|]; [|done].
      exfalso. exact (Qlt_not_le _ _ Hlt Hfresh). }
    destruct (nv_obj (view w0 (ns ++ [c]))) as [o|] eqn:Ho; simpl.
    - rewrite Hp. simpl. by rewrite Hdata0, Hq, Hface0.
    - destruct (_ <? _); rewrite Hp; simpl.
      + rewrite nv_data_objectNeeded, Hdata0, Hq. simpl. by rewrite Hface0.
      + by rewrite Hdata0, Hq, Hface0. }
  rewrite (Hrun w Hobj Hdata Hface).
  destruct (bool_decide (nv_obj (view w (ns ++ [c])) = None)
            && (nv_state (view w sequenceMeta) <? NamespaceState.INTEREST_EXPRESSED))
    eqn:Hfetch.
  - eexists _, _. split; [reflexivity|]. split; [done|].
    rewrite Hrun; [| by rewrite nv_obj_objectNeeded | by rewrite nv_data_objectNeeded | done].
    rewrite (view_objectNeeded sequenceMeta w sequenceMeta), decide_True by done.
    simpl. by rewrite andb_false_r.
  - exists w, []. split; [reflexivity|]. split; [done|].
    by rewrite (Hrun w Hobj Hdata Hface), Hfetch.
Qed.

Hypothesis sequence_number_roundtrip :
  forall n, 0 <= n -> toSequenceNumber (fromSequenceNumber n) = n.

(** In pipelined mode a redirect to the sequence number [n] of an object that
    is not there restarts the window at [n]: the requests in flight are
    forgotten, [_maxReportedSequenceNumber] becomes [n - 1], and the first
    [_pipelineSize] idle sequence numbers from [n] on are requested, in
    ascending order; no later fetch of [_latest] is scheduled.  When the
    object is there, nothing is done. *)
Theorem pipelined_redirect_restarts_the_window (h : Handler) (w : World) :
  namespace h = Some ns -> _latestNamespace h = Some latest ->
  nv_obj (view w (latest ++ [version])) = Some blob ->
  0 < _pipelineSize h ->
  0 <= toSequenceNumber c ->
  (nv_obj (view w (ns ++ [c])) <> None ->
   forall fuel,
     _onStateChanged' fuel (latest ++ [version]) OBJECT_READY h w
     = Some (Returns tt, h, w, [])) /\
  (nv_obj (view w (ns ++ [c])) = None ->
   exists fuel0 h' w' ss,
     (forall fuel, (fuel0 <= fuel)%nat ->
        _onStateChanged' fuel (latest ++ [version]) OBJECT_READY h w
        = Some (Returns tt, h', w', requests ns ss)) /\
     Z.of_nat (length ss) = _pipelineSize h /\
     increasing (toSequenceNumber c - 1) ss /\
     (forall s, In s ss -> idle ns w s) /\
     (forall s s', In s ss -> toSequenceNumber c - 1 < s' < s -> idle ns w s' ->
        In s' ss) /\
     _maxReportedSequenceNumber h' = toSequenceNumber c - 1 /\
     _nReportedSequenceNumbers h' = _nReportedSequenceNumbers h /\
     outstanding h' = _pipelineSize h /\
     _maxRequestedSequenceNumber h' = fold_left Z.max ss (_maxRequestedSequenceNumber h) /\
     _pipelineSize h' = _pipelineSize h).
Proof.
  intros Hns Hlatest Hobj Hp Hseq.
  assert (Hnz : (_pipelineSize h =? 0) = false) by (apply Z.eqb_neq; lia).
  split.
  - intros Hthere fuel. rewrite (redirect_run fuel h w Hns Hlatest Hobj).
    destruct (nv_obj (view w (ns ++ [c]))); [|done]. by rewrite Hnz.
  - intros Habsent.
    set (h2 := set_nRequested (_nReportedSequenceNumbers h)
                 (set_maxReported (toSequenceNumber c - 1) h)).
    destruct (requestNewSequenceNumbers_spec INTEREST_NETWORK_NACK NAME_COMPONENT_META
                fromSequenceNumber isSequenceNumber toSequenceNumber isVersion wireDecode
                (fun _ _ => false) sequence_number_roundtrip ns h2 w)
      as (fuel0 & h' & w' & ss & Hrun & Hlen & Hout & Hinc & Hidle & Hfirst & _ & _
          & Hmaxreq & Hrep & Hmaxrep & Hp' & _).
    { done. }
    { subst h2. simpl. lia. }
    assert (Hout2 : outstanding h2 = 0) by (subst h2; unfold outstanding; simpl; lia).
    rewrite Hout2 in *. subst h2. simpl in *.
    exists fuel0, h', w', ss. split; [|repeat split; (done || lia)].
    intros fuel Hfuel. rewrite (redirect_run fuel h w Hns Hlatest Hobj).
    rewrite Habsent, Hnz. destruct (Hrun fuel Hfuel) as [-> _].
    assert (Hnz' : (_pipelineSize h' =? 0) = false) by (apply Z.eqb_neq; lia).
    by rewrite Hnz'.
Qed.

End StreamRedirect.

(** ** The stream handler: the mode of the pipeline *)

Lemma last_cons {A} (x d : A) (l : list A) : List.last (x :: l) d = List.last l x.
Proof.
  revert x d. induction l as [|y l IH]; intros x d; [done|].
  change (List.last (x :: y :: l) d) with (List.last (y :: l) d).
  by rewrite !IH.
Qed.

Lemma setPipelineSize_all_cons p ps h :
  setPipelineSize_all (p :: ps) h = setPipelineSize_all ps (setPipelineSize p h).2.
Proof. reflexivity. Qed.

Lemma setPipelineSize_all_polling ps : forall h,
  _pipelineSize h = 0 -> setPipelineSize_all ps h = h.
Proof.
  induction ps as [|p ps IH]; intros h Hp; [done|].
  rewrite setPipelineSize_all_cons.
  assert (Hstep : (setPipelineSize p h).2 = h).
  { unfold setPipelineSize. rewrite Hp. simpl.
    destruct (Z.ltb_spec p 0); simpl.
    - destruct h. simpl in *. by subst.
    - destruct (Z.eqb_spec p 0) as [->|Hne]; simpl.
      + destruct h. simpl in *. by subst.
      + destruct (Z.gtb_spec p 0); [done | lia]. }
  rewrite Hstep. by apply IH.
Qed.

Lemma setPipelineSize_all_pipelined ps : forall h,
  0 < _pipelineSize h ->
  _pipelineSize (setPipelineSize_all ps h)
  = List.last (List.filter (fun p => 0 <? p) ps) (_pipelineSize h) /\
  0 < _pipelineSize (setPipelineSize_all ps h).
Proof.
  induction ps as [|p ps IH]; intros h Hp; [done|].
  rewrite setPipelineSize_all_cons. simpl List.filter.
  destruct (Z.ltb_spec 0 p) as [Hpos|Hneg].
  - assert (Hstep : _pipelineSize (setPipelineSize p h).2 = p).
    { unfold setPipelineSize.
      destruct (Z.ltb_spec p 0); [lia|].
      destruct (Z.eqb_spec p 0); [lia|]. simpl.
      destruct (Z.eqb_spec (_pipelineSize h) 0); [lia|]. by rewrite andb_false_r. }
    destruct (IH (setPipelineSize p h).2) as [Hlast Hpos']; [lia|].
    rewrite Hstep in Hlast. split; [|done]. rewrite Hlast. by rewrite last_cons.
  - assert (Hstep : (setPipelineSize p h).2 = h).
    { unfold setPipelineSize.
      assert ((if p <? 0 then 0 else p) = 0) as -> by (destruct (Z.ltb_spec p 0); lia).
      simpl. destruct (Z.gtb_spec (_pipelineSize h) 0); [done | lia]. }
    rewrite Hstep. by apply IH.
Qed.

(** The mode of a handler is fixed when it is constructed, whatever calls of
    [setPipelineSize] follow.  Constructed with a pipeline size of 0 or less
    it polls, and no call changes it; constructed with a positive size it is
    pipelined, and its pipeline size is the last positive size it was given. *)
Theorem pipeline_mode_is_fixed_at_construction (pipelineSize : Z)
    (onSequencedGeneralizedObject : option Callback) (ps : list Z) :
  let h0 := Handler_init pipelineSize onSequencedGeneralizedObject in
  let h := setPipelineSize_all ps h0 in
  (pipelineSize <= 0 -> h = h0 /\ getPipelineSize h = 0) /\
  (0 < pipelineSize ->
   getPipelineSize h = List.last (List.filter (fun p => 0 <? p) ps) pipelineSize /\
   0 < getPipelineSize h).
Proof.
  simpl. split.
  - intros Hp.
    assert (H0 : _pipelineSize (Handler_init pipelineSize onSequencedGeneralizedObject) = 0)
      by (simpl; destruct (Z.ltb_spec pipelineSize 0); lia).
    rewrite setPipelineSize_all_polling by done. done.
  - intros Hp.
    assert (H0 : _pipelineSize (Handler_init pipelineSize onSequencedGeneralizedObject)
                 = pipelineSize)
      by (simpl; destruct (Z.ltb_spec pipelineSize 0); lia).
    unfold getPipelineSize.
    destruct (setPipelineSize_all_pipelined ps
                (Handler_init pipelineSize onSequencedGeneralizedObject)) as [Hlast Hpos];
      [lia|].
    rewrite H0 in Hlast. done.
Qed.

(** ** The name tree: the invariant *)

Lemma dict_get_None_keys {K V} `{EqDecision K} (d : list (K * V)) k :
  dict_get d k = None -> ~ In k (dict_keys d).
Proof. intros H Hin. apply dict_keys_get in Hin as [v Hv]. congruence. Qed.

Lemma dict_mem_keys {K V} `{EqDecision K} (d : list (K * V)) k :
  dict_mem d k = true <-> In k (dict_keys d).
Proof.
  unfold dict_mem. split.
  - destruct (dict_get d k) as [v|] eqn:Hv; [|done]. intros _.
    by apply (dict_get_Some_keys d k v).
  - intros Hin. apply dict_keys_get in Hin as [v ->]. done.
Qed.

Section Invariant.
Variable call : Callback -> NodeId -> NodeId -> Z -> Z -> Store -> Store * bool.
Variable component_lt : Component -> Component -> bool.

Lemma insort_Permutation a x : Permutation (insort component_lt a x) (x :: a).
Proof.
  unfold insort. set (i := bisect_right _ _ _ _ _ _).
  etransitivity; [symmetry; apply Permutation_middle|]. by rewrite take_drop.
Qed.

Lemma tree_ok_update st ns f :
  (forall N, _name (f N) = _name N /\ _parent (f N) = _parent N /\
             _children (f N) = _children N /\
             _sortedChildrenKeys (f N) = _sortedChildrenKeys N) ->
  tree_ok component_lt st -> tree_ok component_lt (update st ns f).
Proof.
  intros Hf (Hwf & Hsorted & Hsynced).
  assert (Hold : forall n N', node (update st ns f) n = Some N' ->
            exists N, node st n = Some N /\ _children N' = _children N /\
                      _sortedChildrenKeys N' = _sortedChildrenKeys N).
  { intros n N' HN'. rewrite node_update in HN'. destruct (decide (n = ns)).
    - destruct (node st n) as [N|]; [|done]. injection HN' as <-.
      exists N. destruct (Hf N) as (_ & _ & ? & ?). auto.
    - eauto. }
  split; [by apply wf_update|]. split.
  - intros n N' HN'. destruct (Hold n N' HN') as (N & HN & _ & ->). by apply (Hsorted n).
  - intros n N' HN'. destruct (Hold n N' HN') as (N & HN & Hc & Hk).
    unfold synced. rewrite Hc, Hk. by apply (Hsynced n).
Qed.

Lemma fire_ids_keeps (I : Store -> Prop) ids ns changed state st :
  preserves I call -> I st -> I (fire_ids call ids ns changed state st).1.
Proof.
  intros Hcall. revert st. induction ids as [|id ids IH]; intros st HI; simpl; [done|].
  destruct (dict_get _ id) as [f|]; [|by apply IH].
  pose proof (Hcall f ns changed state id st HI) as HI1.
  destruct (call f ns changed state id st) as [st1 raised].
  specialize (IH st1 HI1).
  by destruct (fire_ids call ids ns changed state st1) as [st2 t].
Qed.

Lemma fire_up_keeps (I : Store -> Prop) fuel : forall o self state st st' t,
  preserves I call ->
  fire_up call fuel o self state st = Some (st', t) -> I st -> I st'.
Proof.
  induction fuel as [|fuel IH]; intros o self state st st' t Hcall;
    destruct o as [ns|]; simpl; try done; try (by intros [= <- <-]).
  unfold _fireOnStateChanged.
  pose proof (fire_ids_keeps I (dict_keys (_onStateChangedCallbacks (get st ns)))
                ns self state st Hcall) as Hids.
  destruct (fire_ids call _ ns self state st) as [st1 t1].
  destruct (fire_up call fuel _ self state st1) as [[st2 t2]|] eqn:Hup; [|done].
  intros [= <- <-] HI. eapply IH; [done | exact Hup | by apply Hids].
Qed.

Lemma fire_up_extends fuel : forall o self state st st' t,
  preserves_tree call ->
  fire_up call fuel o self state st = Some (st', t) -> extends st st'.
Proof.
  induction fuel as [|fuel IH]; intros o self state st st' t Hcall;
    destruct o as [ns|]; simpl; try done;
    try (intros [= <- <-]; apply extends_refl).
  unfold _fireOnStateChanged.
  pose proof (fire_ids_extends call (dict_keys (_onStateChangedCallbacks (get st ns)))
                ns self state st Hcall) as Hids.
  destruct (fire_ids call _ ns self state st) as [st1 t1].
  destruct (fire_up call fuel _ self state st1) as [[st2 t2]|] eqn:Hup; [|done].
  intros [= <- <-]. eapply extends_trans; [exact Hids | by eapply IH].
Qed.

Lemma setState_keeps fuel self state st st' t :
  preserves (tree_ok component_lt) call -> preserves_tree call ->
  _setState call fuel self state st = Some (st', t) ->
  tree_ok component_lt st -> tree_ok component_lt st' /\ extends st st'.
Proof.
  intros Hcall Htree. unfold _setState.
  destruct (fire_up call fuel (Some self) self state _) as [[st1 t1]|] eqn:Hup; [|done].
  intros [= <- <-] Hok. split.
  - eapply (fire_up_keeps (tree_ok component_lt)); [done | exact Hup|].
    apply tree_ok_update; [by intros [] | done].
  - eapply extends_trans; [apply set_state_extends | by eapply fire_up_extends].
Qed.

Hypothesis lt_trans : forall x y z,
  component_lt x y = true -> component_lt y z = true -> component_lt x z = true.
Hypothesis lt_total : forall x y,
  component_lt x y = false -> x = y \/ component_lt y x = true.

Lemma tree_ok_attach st self N c :
  tree_ok component_lt st -> node st self = Some N ->
  dict_get (_children N) c = None ->
  tree_ok component_lt (attach_child component_lt st self c).2.
Proof.
  intros (Hwf & Hsorted & Hsynced) Hself Habsent. split; [|split].
  - by apply (attach_child_wf component_lt st self N c).
  - by apply (attach_child_sorted component_lt lt_trans lt_total st self N c).
  - intros n X HX.
    destruct (attach_child_inv component_lt st self N c Hself n X HX)
      as [[_ ->] | [[_ ->] | [_ Hold]]].
    + unfold synced. simpl. constructor.
    + unfold synced. simpl.
      rewrite dict_set_fresh by (by apply dict_get_None_keys).
      unfold dict_keys. rewrite map_app. simpl.
      etransitivity; [apply insort_Permutation|].
      etransitivity; [|apply Permutation_cons_append].
      constructor. by apply (Hsynced self).
    + by apply (Hsynced n).
Qed.

Lemma createChild_keeps fuel self N c fireCallbacks st child st' t :
  tree_ok component_lt st -> node st self = Some N ->
  dict_get (_children N) c = None ->
  preserves (tree_ok component_lt) call -> preserves_tree call ->
  _createChild call component_lt fuel self c fireCallbacks st = Some (child, st', t) ->
  tree_ok component_lt st' /\ extends st st' /\ is_Some (node st' child).
Proof.
  intros Hok Hself Habsent Hcall Htree. rewrite createChild_unfold.
  pose proof (tree_ok_attach st self N c Hok Hself Habsent) as Hok2.
  pose proof (attach_child_extends component_lt st self N c Hself Habsent) as Hext2.
  pose proof (attach_child_new component_lt st self N c Hself) as Hnew.
  destruct (attach_child component_lt st self c) as [child2 st2]. simpl in *.
  destruct fireCallbacks.
  - destruct (_setState call fuel self NamespaceState.NAME_EXISTS st2)
      as [[st3 t3]|] eqn:Hset; [|done].
    intros [= <- <- <-].
    destruct (setState_keeps fuel self _ st2 st3 t3 Hcall Htree Hset Hok2) as [Hok3 Hext3].
    split; [done|]. split; [by eapply extends_trans|].
    destruct (Hext3 child2 _ Hnew) as (X & HX & _). eauto.
  - intros [= <- <- <-]. split; [done|]. split; [done|]. eauto.
Qed.

Lemma getChild_loop_keeps B : forall fuel cur st r st' t,
  tree_ok component_lt st -> is_Some (node st cur) ->
  preserves (tree_ok component_lt) call -> preserves_tree call ->
  getChild_loop call component_lt fuel cur B st = Some (r, st', t) ->
  tree_ok component_lt st' /\ extends st st'.
Proof.
  induction fuel as [|fuel IH]; intros cur st r st' t Hok [N HN] Hcall Htree; simpl; [done|].
  rewrite (get_node _ _ _ HN).
  destruct (size (_name N) <? size B).
  2:{ intros [= <- <- <-]. split; [done | apply extends_refl]. }
  destruct (B !! length (_name N)) as [c|].
  2:{ intros [= <- <- <-]. split; [done | apply extends_refl]. }
  destruct (dict_get (_children N) c) as [m|] eqn:Hm.
  - intros Hrun. destruct Hok as (Hwf & Hrest).
    destruct (Hwf cur N HN) as (_ & Hch & _). destruct (Hch c m Hm) as (M & HM & _).
    eapply IH; [by split | eauto | done | done | exact Hrun].
  - destruct (_createChild call component_lt fuel cur c _ st)
      as [[[child st1] t1]|] eqn:Hcreate; [|done].
    destruct (createChild_keeps fuel cur N c _ st child st1 t1 Hok HN Hm Hcall Htree Hcreate)
      as (Hok1 & Hext1 & Hchild).
    destruct (getChild_loop call component_lt fuel child B st1)
      as [[[r2 st2] t2]|] eqn:Hrun; [|done].
    intros [= <- <- <-].
    destruct (IH child st1 r2 st2 t2 Hok1 Hchild Hcall Htree Hrun) as [Hok2 Hext2].
    split; [done | by eapply extends_trans].
Qed.

Lemma getChild_keeps fuel a noc st r st' t :
  tree_ok component_lt st -> is_Some (node st a) ->
  preserves (tree_ok component_lt) call -> preserves_tree call ->
  getChild call component_lt fuel a noc st = Some (r, st', t) ->
  tree_ok component_lt st' /\ extends st st'.
Proof.
  intros Hok [A HA] Hcall Htree. destruct noc as [B|c]; simpl.
  - destruct (negb _).
    + intros [= <- <- <-]. split; [done | apply extends_refl].
    + apply getChild_loop_keeps; eauto.
  - rewrite (get_node _ _ _ HA).
    destruct (dict_get (_children A) c) as [m|] eqn:Hm.
    + intros [= <- <- <-]. split; [done | apply extends_refl].
    + destruct (_createChild call component_lt fuel a c true st)
        as [[[child st1] t1]|] eqn:Hcreate; [|done].
      intros [= <- <- <-].
      destruct (createChild_keeps fuel a A c true st child st1 t1 Hok HA Hm Hcall Htree
                  Hcreate) as (Hok1 & Hext1 & _).
      done.
Qed.

Lemma getChild_returns fuel a A noc st :
  wf st -> node st a = Some A -> preserves_tree call ->
  (match noc with
   | IsName B => 2 * length B + 1
   | IsComponent _ => length (_name A) + 1
   end <= fuel)%nat ->
  exists r st' t, getChild call component_lt fuel a noc st = Some (r, st', t).
Proof.
  intros Hwf HA Htree Hfuel. destruct noc as [B|c]; simpl.
  - destruct (isPrefixOf (_name (get st a)) B) eqn:Hpre; simpl; [|eauto].
    rewrite (get_node _ _ _ HA) in Hpre. apply isPrefixOf_spec in Hpre.
    destruct (getChild_loop_spec call component_lt B fuel st a A Hwf Htree HA Hpre)
      as (d & st' & t & steps & Hrun & _); [lia|]. eauto.
  - rewrite (get_node _ _ _ HA).
    destruct (dict_get (_children A) c) as [m|] eqn:Hm; [eauto|].
    rewrite createChild_unfold.
    pose proof (attach_child_wf component_lt st a A c HA Hm Hwf) as Hwf2.
    pose proof (attach_child_self component_lt st a A c HA) as Hself2.
    destruct (attach_child component_lt st a c) as [child st2]. simpl in *.
    destruct (setState_total call st2 st2 a _ NamespaceState.NAME_EXISTS fuel Hwf2
                (extends_refl st2) Htree Hself2) as (st3 & t3 & -> & _).
    + simpl. lia.
    + eauto.
Qed.

(** [getChild], by name or by component, returns and keeps the tree in
    order, given callbacks that do: the tree stays well-formed, no node is
    lost, and of every node the list that [getChildComponents] returns is in
    ascending order and holds exactly the components for which [hasChild] is
    true. *)
Theorem getChild_keeps_the_tree_in_order (st : Store) (a : NodeId) (A : Namespace)
    (nameOrComponent : NameOrComponent) (fuel : nat) :
  tree_ok component_lt st -> node st a = Some A ->
  preserves_tree call -> preserves (tree_ok component_lt) call ->
  (match nameOrComponent with
   | IsName B => 2 * length B + 1
   | IsComponent _ => length (_name A) + 1
   end <= fuel)%nat ->
  exists r st' t,
    getChild call component_lt fuel a nameOrComponent st = Some (r, st', t) /\
    wf st' /\ extends st st' /\
    forall n, is_Some (node st' n) ->
      keys_ascending component_lt (getChildComponents st' n) /\
      forall c, hasChild st' n c = true <-> In c (getChildComponents st' n).
Proof.
  intros Hok HA Htree Hcall Hfuel.
  destruct (getChild_returns fuel a A nameOrComponent st (proj1 Hok) HA Htree Hfuel)
    as (r & st' & t & Hrun).
  destruct (getChild_keeps fuel a nameOrComponent st r st' t Hok (ex_intro _ A HA)
              Hcall Htree Hrun) as [(Hwf' & Hsorted' & Hsynced') Hext].
  exists r, st', t. split; [done|]. split; [done|]. split; [done|].
  intros n [N' HN']. unfold getChildComponents, hasChild. rewrite (get_node _ _ _ HN').
  split; [by apply (Hsorted' n)|].
  intros c. rewrite dict_mem_keys. specialize (Hsynced' n N' HN'). unfold synced in Hsynced'.
  split; intros Hin.
  - apply list_elem_of_In. rewrite Hsynced'. by apply list_elem_of_In.
  - apply list_elem_of_In. rewrite <- Hsynced'. by apply list_elem_of_In.
Qed.

End Invariant.

(** ** More fuel gives the same result *)

Section Fuel.
Variable call : Callback -> NodeId -> NodeId -> Z -> Z -> Store -> Store * bool.
Variable component_lt : Component -> Component -> bool.
Variable matchesData : Interest -> Data -> bool.

Lemma fire_up_fuel fuel : forall fuel' o self state st r,
  fire_up call fuel o self state st = Some r -> (fuel <= fuel')%nat ->
  fire_up call fuel' o self state st = Some r.
Proof.
  induction fuel as [|fuel IH]; intros fuel' o self state st r;
    destruct o as [ns|]; simpl; try done.
  - intros H _. by destruct fuel'.
  - intros H Hle. destruct fuel' as [|fuel']; [lia|]. simpl.
    destruct (_fireOnStateChanged call ns self state st) as [st1 t1].
    destruct (fire_up call fuel _ self state st1) as [[st2 t2]|] eqn:Hup; [|done].
    by rewrite (IH fuel' _ _ _ _ _ Hup ltac:(lia)).
  - intros H _. by destruct fuel'.
Qed.

Lemma setState_fuel fuel fuel' self state st r :
  _setState call fuel self state st = Some r -> (fuel <= fuel')%nat ->
  _setState call fuel' self state st = Some r.
Proof.
  unfold _setState. intros H Hle.
  destruct (fire_up call fuel (Some self) self state _) as [[st1 t]|] eqn:Hup; [|done].
  by rewrite (fire_up_fuel fuel fuel' _ _ _ _ _ Hup Hle).
Qed.

Lemma createChild_fuel fuel fuel' self c fireCallbacks st r :
  _createChild call component_lt fuel self c fireCallbacks st = Some r ->
  (fuel <= fuel')%nat ->
  _createChild call component_lt fuel' self c fireCallbacks st = Some r.
Proof.
  rewrite !createChild_unfold. intros H Hle.
  destruct (attach_child component_lt st self c) as [child st2].
  destruct fireCallbacks; [|done].
  destruct (_setState call fuel self _ st2) as [[st3 t]|] eqn:Hset; [|done].
  by rewrite (setState_fuel fuel fuel' _ _ _ _ Hset Hle).
Qed.

Lemma getChild_loop_fuel B fuel : forall fuel' cur st r,
  getChild_loop call component_lt fuel cur B st = Some r -> (fuel <= fuel')%nat ->
  getChild_loop call component_lt fuel' cur B st = Some r.
Proof.
  induction fuel as [|fuel IH]; intros fuel' cur st r; simpl; [done|].
  intros H Hle. destruct fuel' as [|fuel']; [lia|]. simpl.
  destruct (size _ <? size B); [|done].
  destruct (B !! _) as [c|]; [|done].
  destruct (dict_get _ c) as [m|].
  - apply IH; [done | lia].
  - destruct (_createChild call component_lt fuel cur c _ st)
      as [[[child st1] t1]|] eqn:Hcreate; [|done].
    rewrite (createChild_fuel fuel fuel' _ _ _ _ _ Hcreate ltac:(lia)).
    destruct (getChild_loop call component_lt fuel child B st1)
      as [[[r2 st2] t2]|] eqn:Hrun; [|done].
    by rewrite (IH fuel' _ _ _ Hrun ltac:(lia)).
Qed.

Lemma getChild_fuel fuel fuel' a noc st r :
  getChild call component_lt fuel a noc st = Some r -> (fuel <= fuel')%nat ->
  getChild call component_lt fuel' a noc st = Some r.
Proof.
  destruct noc as [B|c]; simpl; intros H Hle.
  - destruct (negb _); [done|]. by apply (getChild_loop_fuel B fuel).
  - destruct (dict_get _ c); [done|].
    destruct (_createChild call component_lt fuel a c true st)
      as [[[child st1] t1]|] eqn:Hcreate; [|done].
    by rewrite (createChild_fuel fuel fuel' _ _ _ _ _ Hcreate Hle).
Qed.

Lemma best_of_children_mono (find find' : NodeId -> option (Outcome (option Name)))
    children keys : forall bestMatch r,
  (forall child x, find child = Some x -> find' child = Some x) ->
  best_of_children find children keys bestMatch = Some r ->
  best_of_children find' children keys bestMatch = Some r.
Proof.
  induction keys as [|key keys IH]; intros bestMatch r Hmono; simpl; [done|].
  destruct (dict_get children key) as [child|]; [|done].
  destruct (find child) as [x|] eqn:Hfind; [|done].
  rewrite (Hmono child x Hfind). destruct x as [b|e]; [|done]. by apply IH.
Qed.

Lemma findBestMatchName_fuel interest st fuel : forall fuel' ns r,
  _findBestMatchName matchesData fuel st ns interest = Some r -> (fuel <= fuel')%nat ->
  _findBestMatchName matchesData fuel' st ns interest = Some r.
Proof.
  induction fuel as [|fuel IH]; intros fuel' ns r; simpl; [done|].
  intros H Hle. destruct fuel' as [|fuel']; [lia|]. simpl.
  destruct (best_of_children _ _ _ None) as [x|] eqn:Hbest; [|done].
  rewrite (best_of_children_mono _
             (fun child => _findBestMatchName matchesData fuel' st child interest)
             _ _ _ _ ltac:(intros child y Hy; apply (IH fuel' child y Hy); lia) Hbest).
  done.
Qed.

End Fuel.

(** ** Paths in the tree *)

Lemma reach_app st B B' k cur d :
  reach st B k cur d -> (exists rest, B' = B ++ rest) ->
  forall k' d', reach st B' k' d d' -> reach st B' (k + k') cur d'.
Proof.
  intros Hreach [rest ->].
  induction Hreach as [cur N HN Hlen | k cur N c m d HN Hlen Hc Hm Hreach IH];
    intros k' d' Hrest; [done|].
  simpl. apply (reach_step st _ _ cur N c m d'); try done.
  - rewrite length_app. lia.
  - unfold Name in *. rewrite lookup_app_l by lia. done.
  - by apply IH.
Qed.

Lemma below_reach st a x :
  wf st -> below st a x ->
  forall A X, node st a = Some A -> node st x = Some X ->
  exists k, reach st (_name X) k a x.
Proof.
  intros Hwf Hbelow.
  induction Hbelow as [a | a A0 key child x HA0 Hkey Hchild Hbelow IH]; intros A X HA HX.
  - exists O. apply (reach_here st _ a A); [done|].
    assert (A = X) as -> by congruence. lia.
  - assert (A0 = A) as -> by congruence.
    destruct (Hwf a A HA) as (_ & Hch & _).
    destruct (Hch key child Hchild) as (M & HM & HnM & _).
    destruct (IH M X HM HX) as [k Hk].
    destruct (below_name st child x M Hwf HM Hbelow) as (X' & rest & HX' & Hrest).
    assert (X' = X) as -> by congruence.
    exists (S k). apply (reach_step st _ k a A key child x); try done.
    + rewrite Hrest, HnM, !length_app. simpl. lia.
    + rewrite Hrest, HnM. unfold Name. rewrite <- app_assoc.
      rewrite lookup_app_r by lia. by rewrite Nat.sub_diag.
Qed.

(** ** The name tree: children by component *)

Section ByComponent.
Variable call : Callback -> NodeId -> NodeId -> Z -> Z -> Store -> Store * bool.
Variable component_lt : Component -> Component -> bool.

Lemma getChild_loop_last fuel st a A c :
  node st a = Some A ->
  getChild_loop call component_lt (S fuel) a (_name A ++ [c]) st
  = match dict_get (_children A) c with
    | Some child => getChild_loop call component_lt fuel child (_name A ++ [c]) st
    | None =>
        match _createChild call component_lt fuel a c true st with
        | Some (child, st1, t1) =>
            match getChild_loop call component_lt fuel child (_name A ++ [c]) st1 with
            | Some (r, st2, t2) => Some (r, st2, t1 ++ t2)
            | None => None
            end
        | None => None
        end
    end.
Proof.
  intros HA. cbn [getChild_loop]. rewrite (get_node _ _ _ HA).
  rewrite (proj2 (size_lt _ _)) by (rewrite length_app; simpl; lia).
  assert (Hleaf : (size (_name A) =? size (_name A ++ [c]) - 1) = true).
  { apply Z.eqb_eq. rewrite size_app. unfold size. simpl. lia. }
  rewrite Hleaf. unfold Name. rewrite lookup_app_r by lia.
  by rewrite Nat.sub_diag.
Qed.

Lemma getChild_loop_done fuel st d D B :
  node st d = Some D -> (length B <= length (_name D))%nat ->
  getChild_loop call component_lt (S fuel) d B st = Some (Returns d, st, []).
Proof.
  intros HD Hlen. cbn [getChild_loop]. rewrite (get_node _ _ _ HD).
  by rewrite (proj2 (size_ge _ _)).
Qed.

(** [getChild] with a component returns the child of that component,
    creating it if needed, and is the same as [getChild] with the name of the
    node extended by the component: afterwards [hasChild] is true; an
    existing child is returned without any change or dispatch; a new child is
    a new node, attached to the node, and then NAME_EXISTS is written on the
    node itself and dispatched to the node and its ancestors with the node as
    the changed node: the resulting store and trace are those of this
    dispatch, in which every observer of the node and of its ancestors is
    called when the observers leave the registrations alone. *)
Theorem getChild_component_is_getChild_name (st : Store) (a : NodeId)
    (A : Namespace) (c : Component) (fuel : nat) :
  wf st -> node st a = Some A -> preserves_tree call ->
  (length (_name A) + 1 <= fuel)%nat ->
  exists child st' t,
    getChild call component_lt fuel a (IsComponent c) st = Some (Returns child, st', t) /\
    getChild call component_lt (S fuel) a (IsName (_name A ++ [c])) st
    = Some (Returns child, st', t) /\
    dict_get (_children (get st' a)) c = Some child /\
    hasChild st' a c = true /\
    _name (get st' child) = _name A ++ [c] /\
    _parent (get st' child) = Some a /\
    (hasChild st a c = true -> st' = st /\ t = []) /\
    (hasChild st a c = false ->
     node st child = None /\
     child = (attach_child component_lt st a c).1 /\
     (let created := (attach_child component_lt st a c).2 in
      let r := dispatch call (ancestors fuel created (Some a)) a
                 NamespaceState.NAME_EXISTS
                 (update created a (set_state NamespaceState.NAME_EXISTS)) in
      st' = r.1 /\ t = EvSetState a NamespaceState.NAME_EXISTS :: r.2 /\
      (preserves_observers call ->
       calls r.2 = deliveries fuel created a NamespaceState.NAME_EXISTS)) /\
     exists t', t = EvSetState a NamespaceState.NAME_EXISTS :: t' /\
                Forall (dispatch_of a NamespaceState.NAME_EXISTS) t').
Proof.
  intros Hwf HA Htree Hfuel.
  assert (Hbyname : getChild call component_lt (S fuel) a (IsName (_name A ++ [c])) st
                    = getChild_loop call component_lt (S fuel) a (_name A ++ [c]) st).
  { unfold getChild. by rewrite (get_node _ _ _ HA), isPrefixOf_app. }
  rewrite Hbyname, (getChild_loop_last fuel st a A c HA).
  unfold getChild, hasChild, dict_mem. rewrite (get_node _ _ _ HA).
  destruct fuel as [|fuel]; [lia|].
  destruct (dict_get (_children A) c) as [m|] eqn:Hm.
  - destruct (Hwf a A HA) as (_ & Hch & _).
    destruct (Hch c m Hm) as (M & HM & HnM & HpM).
    exists m, st, []. rewrite (get_node _ _ _ HA), (get_node _ _ _ HM), Hm.
    rewrite (getChild_loop_done fuel st m M _ HM) by (rewrite HnM; lia).
    repeat split; try done.
  - assert (Hcreate :
      _createChild call component_lt (S fuel) a c true st
      = match _setState call (S fuel) a NamespaceState.NAME_EXISTS
                (attach_child component_lt st a c).2 with
        | Some (st3, t) => Some ((attach_child component_lt st a c).1, st3, t)
        | None => None
        end).
    { rewrite createChild_unfold. by destruct (attach_child component_lt st a c). }
    pose proof (attach_child_wf component_lt st a A c HA Hm Hwf) as Hwf2.
    pose proof (attach_child_self component_lt st a A c HA) as Hself2.
    pose proof (attach_child_new component_lt st a A c HA) as Hnew2.
    pose proof (attach_child_fresh component_lt st a c) as Hfresh.
    set (child := (attach_child component_lt st a c).1) in *.
    set (st2 := (attach_child component_lt st a c).2) in *.
    destruct (setState_total call st2 st2 a _ NamespaceState.NAME_EXISTS (S fuel) Hwf2
                (extends_refl st2) Htree Hself2) as (st3 & t3 & Hset3 & Hext3 & Hchain3);
      [simpl; lia|].
    rewrite Hcreate, Hset3.
    destruct (Hext3 child _ Hnew2) as (C' & HC' & HnC & HpC & _).
    destruct (Hext3 a _ Hself2) as (A' & HA' & _ & _ & _ & HchA & _).
    exists child, st3, (EvSetState a NamespaceState.NAME_EXISTS :: t3).
    rewrite (getChild_loop_done fuel st3 child C' _ HC')
      by (rewrite HnC; simpl; unfold append; lia).
    rewrite app_nil_r, (get_node _ _ _ HC'), (get_node _ _ _ HA').
    assert (Hentry : dict_get (_children A') c = Some child).
    { apply HchA. simpl. apply dict_get_set_eq. }
    rewrite Hentry, HnC, HpC. simpl. unfold append.
    pose proof (setState_dispatch call st2 st2 a _ NamespaceState.NAME_EXISTS (S fuel)
                  Hwf2 (extends_refl st2) Htree Hself2 ltac:(simpl; lia)) as Hd.
    rewrite Hset3 in Hd. injection Hd as Hst3 Ht3.
    assert (Hdel : preserves_observers call ->
      calls (dispatch call (ancestors (S fuel) st2 (Some a)) a NamespaceState.NAME_EXISTS
               (update st2 a (set_state NamespaceState.NAME_EXISTS))).2
      = deliveries (S fuel) st2 a NamespaceState.NAME_EXISTS).
    { intros Hobs. rewrite (dispatch_deliver call) by done.
      unfold deliveries. apply flat_map_ext. intros n.
      by rewrite get_update_callbacks. }
    repeat split; try done.
    + f_equal. exact Ht3.
    + exists t3. split; [done|]. by eapply on_chain_dispatch.
Qed.

End ByComponent.

(** ** The name tree: packets that arrive and interests that are answered *)

Section Packets.
Variable call : Callback -> NodeId -> NodeId -> Z -> Z -> Store -> Store * bool.
Variable transform : TransformContent -> Data -> TransformResult.
Variable matchesData : Interest -> Data -> bool.
Variable component_lt : Component -> Component -> bool.
Variable isImplicitSha256Digest : Component -> bool.

(** [setData] with a packet of the node's name returns. *)
Lemma setData_returns fuel self N data st :
  wf st -> node st self = Some N -> (length (_name N) < fuel)%nat ->
  preserves_tree call -> data_name data = _name N ->
  exists r st' t,
    setData call transform fuel self data st = Some (r, st', t) /\
    extends st st' /\
    (_data N = None -> _data (get st' self) = Some data) /\
    (forall o, _data N = Some o -> r = Returns tt /\ st' = st /\ t = []).
Proof.
  intros Hwf HN Hfuel Htree Hname. unfold setData. rewrite (get_node _ _ _ HN).
  destruct (_data N) as [o|] eqn:Hdata.
  { rewrite bool_decide_eq_true_2 by done. exists (Returns tt), st, [].
    repeat split; try done. apply extends_refl. }
  rewrite bool_decide_eq_false_2 by (intros H; by apply H).
  unfold equals. rewrite bool_decide_eq_true_2 by done. simpl.
  pose proof (set_data_extends st self N data HN Hdata) as Hext1.
  set (st1 := update st self (set_data (Some data))) in *.
  assert (Hd1 : _data (get st1 self) = Some data).
  { subst st1. rewrite get_update, decide_True by done. by rewrite HN. }
  destruct (setState_total call st st1 self N NamespaceState.DATA_RECEIVED fuel Hwf Hext1
              Htree HN Hfuel) as (st2 & t2 & -> & Hext2 & _).
  assert (Hext02 : extends st st2) by (by eapply extends_trans).
  assert (Hkeep : forall st', extends st1 st' -> _data (get st' self) = Some data).
  { intros st' Hext'. destruct (Hext1 self N HN) as (N1 & HN1 & _).
    destruct (Hext' self N1 HN1) as (N' & HN' & _ & _ & _ & _ & Hd').
    rewrite (get_node _ _ _ HN'). apply Hd'. by rewrite <- (get_node _ _ _ HN1). }
  assert (Hcontent : forall content,
    exists st3 t3,
      _onContentTransformed call fuel self content st2 = Some (st3, t3) /\
      extends st2 st3).
  { intros content. unfold _onContentTransformed.
    pose proof (set_content_extends st2 self (Some content)) as Hext3.
    destruct (setState_total call st
                (update st2 self (set_content (Some content))) self N
                NamespaceState.CONTENT_READY fuel Hwf
                (extends_trans _ _ _ Hext02 Hext3) Htree HN Hfuel)
      as (st4 & t4 & -> & Hext4 & _).
    eexists _, _. split; [done|]. by eapply extends_trans. }
  destruct (getTransformContent_total st st2 fuel self N Hwf Hext02 HN Hfuel) as [tc ->].
  destruct tc as [f|].
  - destruct (transform f data) as [content| |e].
    + destruct (Hcontent content) as (st3 & t3 & -> & Hext3).
      eexists _, st3, _. split; [done|]. split; [by eapply extends_trans|].
      split; [|done]. intros _. apply Hkeep. by eapply extends_trans.
    + eexists _, st2, _. split; [done|]. split; [done|]. split; [|done].
      intros _. by apply Hkeep.
    + eexists _, st2, _. split; [done|]. split; [done|]. split; [|done].
      intros _. by apply Hkeep.
  - destruct (Hcontent (data_content data)) as (st3 & t3 & -> & Hext3).
    eexists _, st3, _. split; [done|]. split; [by eapply extends_trans|].
    split; [|done]. intros _. apply Hkeep. by eapply extends_trans.
Qed.

Lemma setData_keeps fuel self data st r st' t :
  preserves (tree_ok component_lt) call -> preserves_tree call ->
  setData call transform fuel self data st = Some (r, st', t) ->
  tree_ok component_lt st -> tree_ok component_lt st'.
Proof.
  intros Hcall Htree. unfold setData.
  destruct (bool_decide _); [by intros [= <- <- <-]|].
  destruct (negb _); [by intros [= <- <- <-]|].
  destruct (_setState call fuel self NamespaceState.DATA_RECEIVED _)
    as [[st2 t1]|] eqn:Hset; [|done].
  intros Hrun Hok.
  assert (Hok2 : tree_ok component_lt st2).
  { eapply (setState_keeps call component_lt); [done | done | exact Hset|].
    apply tree_ok_update; [by intros [] | done]. }
  assert (Hcontent : forall content st3 t3,
    _onContentTransformed call fuel self content st2 = Some (st3, t3) ->
    tree_ok component_lt st3).
  { intros content st3 t3 Hc. unfold _onContentTransformed in Hc.
    eapply (setState_keeps call component_lt); [done | done | exact Hc|].
    apply tree_ok_update; [by intros [] | done]. }
  destruct (_getTransformContent fuel st2 (Some self)) as [[f|]|]; [| |done].
  - destruct (transform f data) as [content| |e].
    + destruct (_onContentTransformed call fuel self content st2)
        as [[st3 t3]|] eqn:Hc; [|done].
      injection Hrun as <- <- <-. by eapply Hcontent.
    + by injection Hrun as <- <- <-.
    + by injection Hrun as <- <- <-.
  - destruct (_onContentTransformed call fuel self (data_content data) st2)
      as [[st3 t3]|] eqn:Hc; [|done].
    injection Hrun as <- <- <-. by eapply Hcontent.
Qed.

Hypothesis lt_trans : forall x y z,
  component_lt x y = true -> component_lt y z = true -> component_lt x z = true.
Hypothesis lt_total : forall x y,
  component_lt x y = false -> x = y \/ component_lt y x = true.

(** The function [onData] that [expressInterest] gives to the Face, called
    with a packet whose name is below the node, attaches the packet to the
    node of that name, creating it if needed: afterwards that node holds this
    packet, or the packet it held before, in which case nothing else is
    done.  A packet whose name is not below the node raises RuntimeError and
    changes nothing.  The tree stays in order. *)
Theorem onData_attaches_the_packet (st : Store) (self : NodeId) (S0 : Namespace)
    (data : Data) (fuel : nat) :
  tree_ok component_lt st -> node st self = Some S0 ->
  preserves_tree call -> preserves (tree_ok component_lt) call ->
  (2 * length (data_name data) + 1 <= fuel)%nat ->
  (isPrefixOf (_name S0) (data_name data) = false ->
   onData call transform component_lt fuel self data st
   = Some (Raises RuntimeError, st, [])) /\
  (isPrefixOf (_name S0) (data_name data) = true ->
   exists d st1 t1 r st' t2,
     getChild call component_lt fuel self (IsName (data_name data)) st
     = Some (Returns d, st1, t1) /\
     onData call transform component_lt fuel self data st = Some (r, st', t1 ++ t2) /\
     _name (get st' d) = data_name data /\
     anc st' self d /\
     (_data (get st1 d) = None -> _data (get st' d) = Some data) /\
     (forall o, _data (get st1 d) = Some o ->
        r = Returns tt /\ st' = st1 /\ t2 = []) /\
     wf st' /\ extends st st').
Proof.
  intros Hok HS Htree Hcall Hfuel. split.
  - intros Hpre. unfold onData, getChild. by rewrite (get_node _ _ _ HS), Hpre.
  - intros Hpre.
    assert (Hget : getChild call component_lt fuel self (IsName (data_name data)) st
                   = getChild_loop call component_lt fuel self (data_name data) st).
    { unfold getChild. by rewrite (get_node _ _ _ HS), Hpre. }
    destruct (getChild_loop_spec call component_lt (data_name data) fuel st self S0
                (proj1 Hok) Htree HS (proj1 (isPrefixOf_spec _ _) Hpre))
      as (d & st1 & t1 & steps & Hrun & Hext1 & Hname1 & Hanc1 & Hreach1 & _); [lia|].
    destruct (getChild_loop_keeps call component_lt lt_trans lt_total (data_name data)
                fuel self st (Returns d) st1 t1 Hok (ex_intro _ S0 HS) Hcall Htree Hrun)
      as [Hok1 _].
    destruct (reach_valid st1 _ _ _ _ Hreach1) as [D HD].
    rewrite (get_node _ _ _ HD) in Hname1.
    destruct (setData_returns fuel d D data st1 (proj1 Hok1) HD ltac:(rewrite Hname1; lia)
                Htree (eq_sym Hname1))
      as (r & st' & t2 & Hset & Hext2 & Hnew & Hold).
    exists d, st1, t1, r, st', t2. rewrite Hget. split; [done|].
    split; [unfold onData; by rewrite Hget, Hrun, Hset|].
    destruct (Hext2 d D HD) as (D' & HD' & HnD' & _).
    rewrite (get_node _ _ _ HD'), (get_node _ _ _ HD).
    split; [congruence|]. split; [by apply (anc_extends st1)|].
    split; [intros Hnone; rewrite <- (get_node _ _ _ HD'); by apply Hnew|].
    split; [done|].
    split; [|by eapply extends_trans].
    exact (proj1 (setData_keeps fuel d data st1 r st' t2 Hcall Htree Hset Hok1)).
Qed.

(** [_onInterest] ignores an interest whose name, without its implicit
    digest, is not below the node of the registered prefix.  Otherwise, with
    enough fuel, it returns, and what it sends depends on the subtree of the
    node [found] of that name (created if needed): nothing when no node of
    the subtree holds a Data packet that the interest matches, and otherwise
    one packet through the given Face, a packet that the interest matches,
    held by a node of the subtree, as far down as any node that holds a
    match.  The tree stays in order. *)
Theorem onInterest_sends_a_matching_packet (st : Store) (self : NodeId)
    (S0 : Namespace) (interest : Interest) (face : Face) :
  tree_ok component_lt st -> node st self = Some S0 ->
  preserves_tree call -> preserves (tree_ok component_lt) call ->
  let interestName := stripped isImplicitSha256Digest (interest_name interest) in
  (isPrefixOf (_name S0) interestName = false ->
   forall fuel,
     _onInterest call matchesData component_lt isImplicitSha256Digest fuel self interest
       face st
     = Some (Returns tt, st, [], [])) /\
  (isPrefixOf (_name S0) interestName = true ->
   exists fuel0 found st' t sent,
     (forall fuel, (fuel0 <= fuel)%nat ->
        _onInterest call matchesData component_lt isImplicitSha256Digest fuel self
          interest face st
        = Some (Returns tt, st', t, sent)) /\
     _name (get st' found) = interestName /\ anc st' self found /\
     wf st' /\ extends st st' /\
     ((sent = [] /\
       forall x, below st' found x -> ~ holds_match matchesData st' interest x) \/
      (exists x d,
         sent = [PutData face (Some d)] /\
         below st' found x /\ _data (get st' x) = Some d /\
         matchesData interest d = true /\
         forall y, below st' found y -> holds_match matchesData st' interest y ->
           (length (_name (get st' y)) <= length (_name (get st' x)))%nat))).
Proof.
  intros Hok HS Htree Hcall interestName.
  assert (Hunfold : forall fuel,
    _onInterest call matchesData component_lt isImplicitSha256Digest fuel self interest
      face st
    = if negb (isPrefixOf (_name S0) interestName) then Some (Returns tt, st, [], [])
      else
        match getChild call component_lt fuel self (IsName interestName) st with
        | None => None
        | Some (Raises e, st1, t1) => Some (Raises e, st1, t1, [])
        | Some (Returns found, st1, t1) =>
            match _findBestMatchName matchesData fuel st1 found interest with
            | None => None
            | Some (Raises e) => Some (Raises e, st1, t1, [])
            | Some (Returns None) => Some (Returns tt, st1, t1, [])
            | Some (Returns (Some bestMatch)) =>
                match getChild call component_lt fuel self (IsName bestMatch) st1 with
                | None => None
                | Some (Raises e, st2, t2) => Some (Raises e, st2, t1 ++ t2, [])
                | Some (Returns matched, st2, t2) =>
                    Some (Returns tt, st2, t1 ++ t2,
                          [PutData face (_data (get st2 matched))])
                end
            end
        end).
  { intros fuel. unfold _onInterest. fold (stripped isImplicitSha256Digest
      (interest_name interest)). fold interestName. by rewrite (get_node _ _ _ HS). }
  split.
  - intros Hpre fuel. by rewrite Hunfold, Hpre.
  - intros Hpre.
    set (fuel1 := (2 * length interestName + 1)%nat).
    destruct (getChild_loop_spec call component_lt interestName fuel1 st self S0
                (proj1 Hok) Htree HS (proj1 (isPrefixOf_spec _ _) Hpre))
      as (found & st1 & t1 & steps & Hrun1 & Hext1 & Hname1 & Hanc1 & Hreach1 & _);
      [subst fuel1; lia|].
    destruct (getChild_loop_keeps call component_lt lt_trans lt_total interestName
                fuel1 self st (Returns found) st1 t1 Hok (ex_intro _ S0 HS) Hcall Htree
                Hrun1) as [Hok1 _].
    pose proof (proj1 Hok1) as Hwf1.
    destruct (reach_valid st1 _ _ _ _ Hreach1) as [F HF].
    rewrite (get_node _ _ _ HF) in Hname1.
    set (fuel2 := S (depth_bound st1 - length (_name F))).
    destruct (findBestMatchName_total matchesData interest st1 fuel2 found F Hwf1 HF)
      as [res Hrun2]; [subst fuel2; lia|].
    destruct (findBestMatchName_sound_and_longest matchesData interest st1 fuel2 found F
                res Hwf1 HF Hrun2) as [Hsound Hlongest].
    assert (Hget1 : forall fuel, (fuel1 <= fuel)%nat ->
      getChild call component_lt fuel self (IsName interestName) st
      = Some (Returns found, st1, t1)).
    { intros fuel Hfuel. unfold getChild. rewrite (get_node _ _ _ HS), Hpre. simpl.
      by apply (getChild_loop_fuel call component_lt interestName fuel1). }
    assert (Hfind : forall fuel, (fuel2 <= fuel)%nat ->
      _findBestMatchName matchesData fuel st1 found interest = Some (Returns res))
      by (intros fuel Hfuel; by apply (findBestMatchName_fuel matchesData interest st1 fuel2)).
    destruct res as [m|].
    + destruct (Hsound m eq_refl) as (x & Hx & Hmatch & Hmx).
      destruct (below_name st1 found x F Hwf1 HF Hx) as (X & rest & HX & Hrest).
      rewrite (get_node _ _ _ HX) in Hmx.
      destruct (below_reach st1 found x Hwf1 Hx F X HF HX) as [k Hk].
      assert (Hreach : reach st1 m (steps + k) self x).
      { rewrite <- Hmx. apply (reach_app st1 interestName (_name X) steps self found);
          [done | | done]. exists rest. by rewrite Hrest, Hname1. }
      destruct (Hext1 self S0 HS) as (S1 & HS1 & HnS1 & _).
      assert (Hget2 : forall fuel, (S (steps + k) <= fuel)%nat ->
        getChild call component_lt fuel self (IsName m) st1 = Some (Returns x, st1, [])).
      { intros fuel Hfuel. unfold getChild. rewrite (get_node _ _ _ HS1), HnS1.
        assert (Hpre2 : isPrefixOf (_name S0) m = true).
        { apply isPrefixOf_spec. apply isPrefixOf_spec in Hpre as [k0 Hk0].
          exists (k0 ++ rest). rewrite <- Hmx, Hrest, Hname1, Hk0. by rewrite <- app_assoc. }
        rewrite Hpre2. simpl. apply (reach_run call component_lt st1 m (steps + k)); [done | lia]. }
      destruct Hmatch as (d & Hd & Hyes).
      exists (Nat.max fuel1 (Nat.max fuel2 (S (steps + k)))), found, st1, (t1 ++ []),
        [PutData face (Some d)].
      split; [|split; [by rewrite (get_node _ _ _ HF)|split; [done|split; [done|split; [done|]]]]].
      * intros fuel Hfuel. rewrite Hunfold, Hpre. cbn [negb].
        rewrite Hget1, Hfind, Hget2 by lia. by rewrite Hd.
      * right. exists x, d. split; [done|]. split; [done|]. split; [done|]. split; [done|].
        intros y Hy Hmy. destruct (Hlongest y Hy Hmy) as (m' & [= <-] & Hlen).
        rewrite (get_node _ _ _ HX). by rewrite Hmx.
    + exists (Nat.max fuel1 fuel2), found, st1, t1, [].
      split; [|split; [by rewrite (get_node _ _ _ HF)|split; [done|split; [done|split; [done|]]]]].
      * intros fuel Hfuel. rewrite Hunfold, Hpre. cbn [negb].
        by rewrite Hget1, Hfind by lia.
      * left. split; [done|]. intros x Hx Hmx.
        by destruct (Hlongest x Hx Hmx) as (m' & Hm' & _).
Qed.

End Packets.

(** ** The stream handler: completions *)

Section StreamCompletion.
Variable NAME_COMPONENT_META : Component.
Variable fromSequenceNumber : Z -> Component.
Variable toSequenceNumber : Component -> Z.

Local Abbreviation metaName := (metaName NAME_COMPONENT_META fromSequenceNumber).
Local Abbreviation requests := (requests NAME_COMPONENT_META fromSequenceNumber).
Local Abbreviation idle := (idle NAME_COMPONENT_META fromSequenceNumber).

Hypothesis sequence_number_roundtrip :
  forall n, 0 <= n -> toSequenceNumber (fromSequenceNumber n) = n.

(** The completion of the sequence number [s] first calls the application's
    callback, if there is one; an exception of the callback is logged and
    changes nothing else.  Then the completion is counted,
    [_maxReportedSequenceNumber] is raised to [s] if it was below, and in
    pipelined mode the window is refilled with the first idle sequence
    numbers above the new [_maxReportedSequenceNumber]; in polling mode
    nothing is requested. *)
Theorem completion_reports_then_refills (ns : Name) (h : Handler) (w : World) (s : Z) :
  namespace h = Some ns ->
  -1 <= _maxReportedSequenceNumber h ->
  exists fuel0 h' w' ss,
    (forall (report_raises : Callback -> Z -> bool) fuel, (fuel0 <= fuel)%nat ->
       onGeneralizedObject NAME_COMPONENT_META fromSequenceNumber report_raises fuel s h w
       = Some (Returns tt, h', w',
               match _onSequencedGeneralizedObject h with
               | Some f => Report s :: (if report_raises f s then [LogException] else [])
               | None => []
               end ++ requests ns ss)) /\
    _nReportedSequenceNumbers h' = _nReportedSequenceNumbers h + 1 /\
    _maxReportedSequenceNumber h' = Z.max (_maxReportedSequenceNumber h) s /\
    _pipelineSize h' = _pipelineSize h /\
    (_pipelineSize h <= 0 ->
     ss = [] /\ w' = w /\
     _nRequestedSequenceNumbers h' = _nRequestedSequenceNumbers h) /\
    (0 < _pipelineSize h ->
     Z.of_nat (length ss)
     = Z.max (outstanding h - 1) (_pipelineSize h) - (outstanding h - 1) /\
     increasing (Z.max (_maxReportedSequenceNumber h) s) ss /\
     (forall x, In x ss -> idle ns w x) /\
     (forall x x', In x ss -> Z.max (_maxReportedSequenceNumber h) s < x' < x ->
        idle ns w x' -> In x' ss)).
Proof.
  intros Hns Hmax.
  set (h1 := set_nReported (_nReportedSequenceNumbers h + 1) h).
  set (h2 := if s >? _maxReportedSequenceNumber h1
             then set_maxReported s h1 else h1).
  assert (Hh2 : namespace h2 = Some ns /\ _pipelineSize h2 = _pipelineSize h /\
                _nReportedSequenceNumbers h2 = _nReportedSequenceNumbers h + 1 /\
                _maxReportedSequenceNumber h2 = Z.max (_maxReportedSequenceNumber h) s /\
                _nRequestedSequenceNumbers h2 = _nRequestedSequenceNumbers h).
  { subst h2 h1. simpl. destruct (Z.gtb_spec s (_maxReportedSequenceNumber h));
      simpl; repeat split; (done || lia). }
  destruct Hh2 as (Hns2 & Hp2 & Hrep2 & Hmax2 & Hreq2).
  destruct (Z.gtb_spec (_pipelineSize h2) 0) as [Hpos|Hzero].
  - destruct (requestNewSequenceNumbers_spec 0 NAME_COMPONENT_META fromSequenceNumber
                (fun _ => false) toSequenceNumber (fun _ => false)
                (fun _ => Returns []) (fun _ _ => false)
                sequence_number_roundtrip ns h2 w Hns2 ltac:(lia))
      as (fuel0 & h' & w' & ss & Hrun & Hlen & Hout & Hinc & Hidle & Hfirst & _ & _
          & _ & Hrep & Hmaxrep & Hp' & _).
    assert (Hout2 : outstanding h2 = outstanding h - 1) by (unfold outstanding; lia).
    exists fuel0, h', w', ss. split; [|repeat split; try (done || lia || congruence)].
    + intros report_raises fuel Hfuel. unfold onGeneralizedObject. fold h1. fold h2.
      destruct (Z.gtb_spec (_pipelineSize h2) 0); [|lia].
      destruct (Hrun fuel Hfuel) as [-> _]. done.
    + first [ by rewrite <- Hmax2
            | intros x x' Hx Hx'; rewrite <- Hmax2 in Hx'; by apply (Hfirst x x') ].
  - exists O, h2, w, []. split; [|repeat split; try (done || lia)].
    intros report_raises fuel _. unfold onGeneralizedObject. fold h1. fold h2.
    destruct (Z.gtb_spec (_pipelineSize h2) 0); [lia|]. simpl. by rewrite app_nil_r.
Qed.

End StreamCompletion.

(** ** The name tree: the transform hook *)

Section Transform.
Variable call : Callback -> NodeId -> NodeId -> Z -> Z -> Store -> Store * bool.
Variable transform : TransformContent -> Data -> TransformResult.

Lemma getTransformContent_nearest st0 st fuel : forall cur N0,
  wf st0 -> extends st0 st -> node st0 cur = Some N0 ->
  (length (_name N0) < fuel)%nat ->
  _getTransformContent fuel st (Some cur) = Some (nearest_transform fuel st0 cur).
Proof.
  unfold nearest_transform.
  induction fuel as [|fuel IH]; intros cur N0 Hwf Hext HN0 Hfuel; [lia|]. simpl.
  destruct (Hext cur N0 HN0) as (N' & HN' & _ & Hp & Htc & _).
  rewrite (get_node _ _ _ HN'), (get_node _ _ _ HN0), Htc, Hp.
  destruct (_transformContent N0) as [f|]; simpl; [done|].
  destruct (_parent N0) as [p|] eqn:Hparent; [|by destruct fuel].
  destruct (Hwf cur N0 HN0) as (Hpar & _). destruct (Hpar p Hparent) as (P & c & HP & Hname).
  apply (IH p P); try done. rewrite Hname, length_app in Hfuel. simpl in Hfuel. lia.
Qed.

(** [setData] on a node without a packet, with a packet of the node's name,
    attaches the packet, writes DATA_RECEIVED and dispatches it on the node
    and its ancestors.  What follows is decided by the transform hook of the
    nearest node, from the node upwards, that has one: without a hook the
    content of the packet, and with a hook that calls back at once the
    content it gives, is stored, and CONTENT_READY is written and dispatched
    in the same way; with a hook that defers, nothing more is done; and
    when the hook raises, [setData] raises the same, with the packet attached
    and DATA_RECEIVED written and dispatched. *)
Theorem setData_runs_the_nearest_transform (st : Store) (self : NodeId)
    (N : Namespace) (data : Data) (fuel : nat) :
  wf st -> node st self = Some N -> _data N = None ->
  data_name data = _name N -> (length (_name N) < fuel)%nat ->
  preserves_tree call ->
  let chain := ancestors fuel st (Some self) in
  let r1 := dispatch call chain self NamespaceState.DATA_RECEIVED
              (update (update st self (set_data (Some data))) self
                 (set_state NamespaceState.DATA_RECEIVED)) in
  let r2 content :=
    dispatch call chain self NamespaceState.CONTENT_READY
      (update (update r1.1 self (set_content (Some content))) self
         (set_state NamespaceState.CONTENT_READY)) in
  let ready content (r : Outcome unit) (st' : Store) (t : list Event) :=
    r = Returns tt /\
    state_writes t = [(self, NamespaceState.CONTENT_READY)] /\
    st' = (r2 content).1 /\
    t = r1.2 ++ EvSetState self NamespaceState.CONTENT_READY :: (r2 content).2 /\
    (preserves_observers call ->
     calls t = deliveries fuel st self NamespaceState.DATA_RECEIVED
               ++ deliveries fuel st self NamespaceState.CONTENT_READY) /\
    (observes_only call ->
     _state (get st' self) = NamespaceState.CONTENT_READY /\
     _content (get st' self) = Some content) in
  let pending (r r0 : Outcome unit) (st' : Store) (t : list Event) :=
    r = r0 /\ state_writes t = [] /\ st' = r1.1 /\ t = r1.2 /\
    (preserves_observers call ->
     calls t = deliveries fuel st self NamespaceState.DATA_RECEIVED) /\
    (observes_only call ->
     _state (get st' self) = NamespaceState.DATA_RECEIVED /\
     _content (get st' self) = _content N) in
  exists r st' t,
    setData call transform fuel self data st
    = Some (r, st', EvSetState self NamespaceState.DATA_RECEIVED :: t) /\
    _data (get st' self) = Some data /\
    extends st st' /\
    (observes_only call -> forall n, n <> self -> node st' n = node st n) /\
    match nearest_transform fuel st self with
    | None => ready (data_content data) r st' t
    | Some f =>
        match transform f data with
        | CallsBackNow content => ready content r st' t
        | Defers => pending r (Returns tt) st' t
        | TransformRaises e => pending r (Raises e) st' t
        end
    end.
Proof.
  intros Hwf HN Hdata Hname Hfuel Htree. cbv zeta.
  unfold setData. rewrite (get_node _ _ _ HN), Hdata.
  rewrite bool_decide_eq_false_2 by (intros H; by apply H).
  unfold equals. rewrite bool_decide_eq_true_2 by done. simpl.
  pose proof (set_data_extends st self N data HN Hdata) as Hext1.
  set (st1 := update st self (set_data (Some data))) in *.
  assert (Hd1 : _data (get st1 self) = Some data).
  { subst st1. rewrite get_update, decide_True by done. by rewrite HN. }
  destruct (setState_total call st st1 self N NamespaceState.DATA_RECEIVED fuel Hwf Hext1
              Htree HN Hfuel) as (st2 & t2 & Hrun2 & Hext2 & Hchain2).
  pose proof (setState_dispatch call st st1 self N NamespaceState.DATA_RECEIVED fuel
                Hwf Hext1 Htree HN Hfuel) as Hd2.
  rewrite Hrun2 in Hd2. injection Hd2 as Hst2 Ht2. rewrite Hrun2.
  assert (Hext02 : extends st st2) by (by eapply extends_trans).
  assert (Hkeep : forall st', extends st1 st' -> _data (get st' self) = Some data).
  { intros st' Hext'. destruct (Hext1 self N HN) as (N1 & HN1 & _).
    destruct (Hext' self N1 HN1) as (N' & HN' & _ & _ & _ & _ & Hd').
    rewrite (get_node _ _ _ HN'). apply Hd'. by rewrite <- (get_node _ _ _ HN1). }
  pose proof (state_writes_dispatch _ _ _ _ Hchain2) as Hw2.
  assert (Hcalls2 : preserves_observers call ->
    calls t2 = deliveries fuel st self NamespaceState.DATA_RECEIVED).
  { intros Hobs. rewrite Ht2, (dispatch_deliver call) by done. unfold deliveries.
    apply flat_map_ext. intros n. rewrite get_update_callbacks.
    subst st1. by rewrite callbacks_update. }
  assert (Hnode2 : observes_only call -> forall n,
    node st2 n = if decide (n = self)
                 then Some (set_state NamespaceState.DATA_RECEIVED
                              (set_data (Some data) N))
                 else node st n).
  { intros Honly n. rewrite Hst2, (dispatch_observes_only call) by done. subst st1.
    rewrite !node_update. destruct (decide (n = self)) as [->|]; [|done].
    by rewrite HN. }
  assert (Hcontent : forall content,
    exists st3 t3,
      _onContentTransformed call fuel self content st2 = Some (st3, t3) /\
      extends st2 st3 /\ state_writes t3 = [(self, NamespaceState.CONTENT_READY)] /\
      st3 = (dispatch call (ancestors fuel st (Some self)) self
               NamespaceState.CONTENT_READY
               (update (update st2 self (set_content (Some content))) self
                  (set_state NamespaceState.CONTENT_READY))).1 /\
      t3 = EvSetState self NamespaceState.CONTENT_READY
           :: (dispatch call (ancestors fuel st (Some self)) self
                 NamespaceState.CONTENT_READY
                 (update (update st2 self (set_content (Some content))) self
                    (set_state NamespaceState.CONTENT_READY))).2 /\
      (preserves_observers call ->
       calls t3 = deliveries fuel st self NamespaceState.CONTENT_READY) /\
      (observes_only call ->
       _state (get st3 self) = NamespaceState.CONTENT_READY /\
       _content (get st3 self) = Some content /\
       forall n, n <> self -> node st3 n = node st n)).
  { intros content. unfold _onContentTransformed.
    pose proof (set_content_extends st2 self (Some content)) as Hext3.
    pose proof (extends_trans _ _ _ Hext02 Hext3) as Hext03.
    destruct (setState_total call st
                (update st2 self (set_content (Some content))) self N
                NamespaceState.CONTENT_READY fuel Hwf Hext03 Htree HN Hfuel)
      as (st4 & t4 & Hrun4 & Hext4 & Hchain4).
    pose proof (setState_dispatch call st
                  (update st2 self (set_content (Some content))) self N
                  NamespaceState.CONTENT_READY fuel Hwf Hext03 Htree HN Hfuel) as Hd4.
    rewrite Hrun4 in Hd4. injection Hd4 as Hst4 Ht4. rewrite Hrun4.
    eexists _, _. split; [done|]. split; [by eapply extends_trans|].
    split; [simpl; by rewrite (state_writes_dispatch _ _ _ _ Hchain4)|].
    split; [done|]. split; [by rewrite Ht4|]. split.
    - intros Hobs. unfold calls. simpl. fold (calls t4).
      rewrite Ht4, (dispatch_deliver call) by done. unfold deliveries.
      apply flat_map_ext. intros n. rewrite get_update_callbacks.
      rewrite callbacks_update by done. rewrite Hst2.
      rewrite (dispatch_observers call) by done. rewrite get_update_callbacks.
      subst st1. by rewrite callbacks_update.
    - intros Honly. rewrite Hst4, (dispatch_observes_only call) by done.
      assert (Hnode : forall n,
        node (update (update st2 self (set_content (Some content))) self
                (set_state NamespaceState.CONTENT_READY)) n
        = if decide (n = self)
          then Some (set_state NamespaceState.CONTENT_READY
                       (set_content (Some content)
                          (set_state NamespaceState.DATA_RECEIVED
                             (set_data (Some data) N))))
          else node st n).
      { intros n. rewrite !node_update, (Hnode2 Honly).
        destruct (decide (n = self)) as [->|]; [|done]. done. }
      unfold get. rewrite (Hnode self), decide_True by done. simpl.
      split; [done|]. split; [done|].
      intros n Hne. by rewrite (Hnode n), decide_False. }
  assert (Hpending : observes_only call ->
    _state (get st2 self) = NamespaceState.DATA_RECEIVED /\
    _content (get st2 self) = _content N).
  { intros Honly. unfold get. rewrite (Hnode2 Honly self), decide_True by done. done. }
  assert (Hother2 : observes_only call -> forall n, n <> self -> node st2 n = node st n).
  { intros Honly n Hne. by rewrite (Hnode2 Honly n), decide_False. }
  rewrite (getTransformContent_nearest st st2 fuel self N Hwf Hext02 HN Hfuel).
  assert (Hready : forall content,
    exists r st' t,
      match _onContentTransformed call fuel self content st2 with
      | Some (st3, t3) => Some (Returns tt, st3, EvSetState self NamespaceState.DATA_RECEIVED :: t2 ++ t3)
      | None => None
      end = Some (r, st', EvSetState self NamespaceState.DATA_RECEIVED :: t) /\
      _data (get st' self) = Some data /\ extends st st' /\
      (observes_only call -> forall n, n <> self -> node st' n = node st n) /\
      r = Returns tt /\
      state_writes t = [(self, NamespaceState.CONTENT_READY)] /\
      st' = (dispatch call (ancestors fuel st (Some self)) self
               NamespaceState.CONTENT_READY
               (update (update st2 self (set_content (Some content))) self
                  (set_state NamespaceState.CONTENT_READY))).1 /\
      t = t2 ++ EvSetState self NamespaceState.CONTENT_READY
           :: (dispatch call (ancestors fuel st (Some self)) self
                 NamespaceState.CONTENT_READY
                 (update (update st2 self (set_content (Some content))) self
                    (set_state NamespaceState.CONTENT_READY))).2 /\
      (preserves_observers call ->
       calls t = deliveries fuel st self NamespaceState.DATA_RECEIVED
                 ++ deliveries fuel st self NamespaceState.CONTENT_READY) /\
      (observes_only call ->
       _state (get st' self) = NamespaceState.CONTENT_READY /\
       _content (get st' self) = Some content)).
  { intros content.
    destruct (Hcontent content) as (st3 & t3 & -> & Hext3 & Hw3 & Hst3 & Ht3 & Hc3 & Ho3).
    exists (Returns tt), st3, (t2 ++ t3). split; [done|].
    split; [apply Hkeep; by eapply extends_trans|].
    split; [by eapply extends_trans|].
    split; [intros Honly; by apply (Ho3 Honly)|].
    split; [done|]. split; [by rewrite state_writes_app, Hw2, Hw3|].
    split; [done|]. split; [by rewrite Ht3|]. split.
    - intros Hobs. unfold calls. rewrite List.filter_app. fold (calls t2). fold (calls t3).
      by rewrite Hcalls2, Hc3.
    - intros Honly. destruct (Ho3 Honly) as (? & ? & _). done. }
  rewrite <- Hst2, <- Ht2.
  destruct (nearest_transform fuel st self) as [f|].
  - destruct (transform f data) as [content| |e].
    + apply Hready.
    + exists (Returns tt), st2, t2. split; [done|]. split; [by apply Hkeep|].
      split; [done|]. split; [done|]. split; [done|]. split; [done|].
      split; [done|]. split; [done|]. split; [done|]. done.
    + exists (Raises e), st2, t2. split; [done|]. split; [by apply Hkeep|].
      split; [done|]. split; [done|]. split; [done|]. split; [done|].
      split; [done|]. split; [done|]. split; [done|]. done.
  - apply Hready.
Qed.

End Transform.

(** ** Witnesses of the further properties *)

Lemma getRoot_witness :
  exists root, getRoot 3 demo_tree 2%nat = Some root /\ _parent (get demo_tree root) = None.
Proof.
  destruct (getRoot_is_the_parentless_ancestor demo_tree 2%nat (get demo_tree 2%nat) 3)
    as (root & R & Hrun & HR & Hpar & _).
  - apply wfb_sound. vm_compute. reflexivity.
  - reflexivity.
  - simpl. lia.
  - exists root. split; [exact Hrun|]. by rewrite (get_node _ _ _ HR).
Defined.

(** An interest expressed on /a/b goes to the Face of the root /a. *)
Lemma expressInterest_witness :
  expressInterest 3 2%nat None demo_faced
  = Some (Returns tt,
          [ExpressInterest 7%nat ["a"; "b"]%string
             {| interestLifetimeMilliseconds := 4000 |}]).
Proof.
  rewrite (expressInterest_uses_the_nearest_face demo_faced 2%nat (get demo_faced 2%nat) None 3).
  - vm_compute. reflexivity.
  - apply wfb_sound. vm_compute. reflexivity.
  - reflexivity.
  - simpl. lia.
Defined.

Lemma setFace_witness :
  (setFace 0%nat 7%nat true demo_tree).2 = [RegisterPrefix 7%nat ["a"%string]] /\
  expressInterest 3 2%nat None (setFace 0%nat 7%nat true demo_tree).1
  = Some (Returns tt,
          [ExpressInterest 7%nat ["a"; "b"]%string
             {| interestLifetimeMilliseconds := 4000 |}]).
Proof.
  destruct (setFace_serves_the_nodes_below demo_tree 0%nat 2%nat (get demo_tree 0%nat)
              (get demo_tree 2%nat) 7%nat true None 3 [2%nat] [])
    as (Hreg & _ & Hexpress).
  - apply wfb_sound. vm_compute. reflexivity.
  - reflexivity.
  - reflexivity.
  - simpl. lia.
  - vm_compute. reflexivity.
  - intros n [<- | []]. vm_compute. reflexivity.
  - split; [exact Hreg | exact Hexpress].
Defined.

Lemma findBestMatchName_longest_witness :
  exists res,
    _findBestMatchName demo_matchesData 6 demo_tree 0%nat (mkInterest ["a"%string])
    = Some (Returns res) /\ res <> None.
Proof.
  destruct (findBestMatchName_finds_a_longest_match demo_matchesData demo_tree 0%nat
              (get demo_tree 0%nat) (mkInterest ["a"%string]) 6)
    as (res & Hrun & _ & Hlongest & _).
  - apply wfb_sound. vm_compute. reflexivity.
  - reflexivity.
  - vm_compute. lia.
  - exists res. split; [exact Hrun|].
    destruct (Hlongest 0%nat) as (m & -> & _); [constructor | | done].
    exists (mkData ["a"%string] "A"). split; vm_compute; reflexivity.
Defined.

(** A pipelined consumer that has reported nothing requests 0, 1 and 2. *)
Lemma requestNewSequenceNumbers_witness :
  exists fuel0 h' w' ss,
    (forall fuel, (fuel0 <= fuel)%nat ->
       _requestNewSequenceNumbers demo_META demo_fromSequenceNumber fuel demo_handler
         (demo_world "x")
       = Some (Returns tt, h', w', requests demo_META demo_fromSequenceNumber
                                     ["stream"%string] ss)) /\
    length ss = 3%nat /\ outstanding h' = 3.
Proof.
  destruct (requestNewSequenceNumbers_fills_the_window demo_NACK demo_META
              demo_fromSequenceNumber demo_isSequenceNumber demo_toSequenceNumber
              demo_isVersion demo_wireDecode demo_report_raises
              demo_sequence_number_roundtrip
              ["stream"%string] demo_handler (demo_world "x"))
    as (fuel0 & h' & w' & ss & Hrun & Hlen & Hout & _).
  - reflexivity.
  - vm_compute. discriminate.
  - exists fuel0, h', w', ss. split; [intros fuel Hfuel; apply (Hrun fuel Hfuel)|].
    rewrite Hout.
    change (Z.max (outstanding demo_handler) (_pipelineSize demo_handler)
            - outstanding demo_handler) with 3 in Hlen.
    split; [lia | reflexivity].
Defined.

Lemma onStateChanged_ignores_witness :
  demo_onStateChanged 9 ["stream"; "x"]%string NamespaceState.DATA_RECEIVED
    demo_handler (demo_world "x")
  = Some (Returns tt, demo_handler, demo_world "x", []).
Proof.
  apply (onStateChanged_ignores_other_events demo_NACK demo_OBJECT_READY demo_META
           demo_fromSequenceNumber demo_isSequenceNumber demo_toSequenceNumber
           demo_isVersion demo_wireDecode 9 demo_handler (demo_world "x")
           ["stream"%string] demo_latest).
  - reflexivity.
  - reflexivity.
  - vm_compute. discriminate.
  - vm_compute. discriminate.
  - left. vm_compute. discriminate.
Defined.

(** The [_meta] packet of the highest request, 7, times out. *)
Lemma timeout_witness :
  exists r w',
    demo_onStateChanged 9 ["stream"; demo_fromSequenceNumber 7; demo_META]%string
      NamespaceState.INTEREST_TIMEOUT demo_pipelined.1 demo_pipelined.2
    = Some (r, demo_pipelined.1, w', [LogInfo; LogInfo; ObjectNeeded demo_latest true]).
Proof.
  destruct (timeout_only_refetches_latest demo_NACK demo_OBJECT_READY demo_META
              demo_fromSequenceNumber demo_isSequenceNumber demo_toSequenceNumber
              demo_isVersion demo_wireDecode 9 demo_pipelined.1 demo_pipelined.2
              ["stream"%string] demo_latest
              ["stream"; demo_fromSequenceNumber 7; demo_META]%string
              NamespaceState.INTEREST_TIMEOUT)
    as (r & w' & e & Hrun & _ & Hother).
  - reflexivity.
  - reflexivity.
  - left. reflexivity.
  - vm_compute. discriminate.
  - vm_compute. discriminate.
  - destruct Hother as (_ & Hhigh & _); [vm_compute; discriminate|].
    exists r, w'. rewrite <- Hhigh; [exact Hrun|].
    split; [vm_compute; reflexivity|].
    exists ["stream"%string], (demo_fromSequenceNumber 7).
    repeat split; vm_compute; reflexivity.
Defined.

Lemma polling_redirect_witness :
  exists w' e,
    demo_onStateChanged 9 (demo_latest ++ ["v1"%string]) demo_OBJECT_READY demo_poller
      (demo_world (demo_fromSequenceNumber 5))
    = Some (Returns tt, demo_poller, w',
            e ++ [CallLater 0%nat (Some ((1000 # 1) / (2 # 1))%Q) demo_latest]) /\
    length e = 2%nat.
Proof.
  destruct (polling_redirect_fetches_once demo_NACK demo_OBJECT_READY demo_META
              demo_fromSequenceNumber demo_isSequenceNumber demo_toSequenceNumber
              demo_isVersion demo_wireDecode ["stream"%string] demo_latest
              "v1"%string (demo_fromSequenceNumber 5) (demo_fromSequenceNumber 5) [])
    with (fuel := 9%nat) (h := demo_poller) (w := demo_world (demo_fromSequenceNumber 5))
         (freshnessPeriod := (1000 # 1)%Q) (f := 0%nat)
    as (w' & e & Hrun & Hfetch & _).
  - vm_compute. discriminate.
  - vm_compute. discriminate.
  - reflexivity.
  - reflexivity.
  - reflexivity.
  - reflexivity.
  - reflexivity.
  - reflexivity.
  - reflexivity.
  - reflexivity.
  - vm_compute. discriminate.
  - reflexivity.
  - exists w', e. split; [exact Hrun|].
    change (bool_decide _ && _) with true in Hfetch. destruct Hfetch as [_ ->]. reflexivity.
Defined.

Lemma pipelined_redirect_witness :
  exists fuel0 h' w' ss,
    (forall fuel, (fuel0 <= fuel)%nat ->
       demo_onStateChanged fuel (demo_latest ++ ["v1"%string]) demo_OBJECT_READY
         demo_handler (demo_world (demo_fromSequenceNumber 5))
       = Some (Returns tt, h', w',
               requests demo_META demo_fromSequenceNumber ["stream"%string] ss)) /\
    length ss = 3%nat /\ _maxReportedSequenceNumber h' = 4.
Proof.
  destruct (pipelined_redirect_restarts_the_window demo_NACK demo_OBJECT_READY demo_META
              demo_fromSequenceNumber demo_isSequenceNumber demo_toSequenceNumber
              demo_isVersion demo_wireDecode ["stream"%string] demo_latest
              "v1"%string (demo_fromSequenceNumber 5) (demo_fromSequenceNumber 5) [])
    with (h := demo_handler) (w := demo_world (demo_fromSequenceNumber 5))
    as [_ Hfetch].
  - vm_compute. discriminate.
  - vm_compute. discriminate.
  - reflexivity.
  - reflexivity.
  - reflexivity.
  - exact demo_sequence_number_roundtrip.
  - reflexivity.
  - reflexivity.
  - reflexivity.
  - reflexivity.
  - vm_compute. discriminate.
  - destruct Hfetch as (fuel0 & h' & w' & ss & Hrun & Hlen & _ & _ & _ & Hmax & _);
      [reflexivity|].
    exists fuel0, h', w', ss. split; [exact Hrun|].
    change (_pipelineSize demo_handler) with 3 in Hlen.
    split; [lia | exact Hmax].
Defined.

(** The order of the scenarios is a strict total order. *)
Lemma ascii_compare_refl (a : ascii) : Ascii.compare a a = Eq.
Proof. unfold Ascii.compare. apply N.compare_refl. Qed.

Lemma ascii_compare_trans (a b c : ascii) :
  Ascii.compare a b = Lt -> Ascii.compare b c = Lt -> Ascii.compare a c = Lt.
Proof. unfold Ascii.compare. rewrite !N.compare_lt_iff. lia. Qed.

Lemma demo_lt_trans (x y z : Component) :
  demo_lt x y = true -> demo_lt y z = true -> demo_lt x z = true.
Proof.
  unfold demo_lt, String.ltb.
  assert (H : forall x y z : string,
    String.compare x y = Lt -> String.compare y z = Lt -> String.compare x z = Lt).
  { clear. induction x as [|a x IH]; intros [|b y] [|c z]; simpl; try done.
    destruct (Ascii.compare a b) eqn:E1, (Ascii.compare b c) eqn:E2; try done.
    - apply Ascii.compare_eq_iff in E1, E2. subst. rewrite ascii_compare_refl. apply IH.
    - apply Ascii.compare_eq_iff in E1. subst. by rewrite E2.
    - apply Ascii.compare_eq_iff in E2. subst. by rewrite E1.
    - by rewrite (ascii_compare_trans a b c E1 E2). }
  destruct (String.compare x y) eqn:Hxy; try done.
  destruct (String.compare y z) eqn:Hyz; try done.
  by rewrite (H x y z Hxy Hyz).
Qed.

Lemma demo_lt_total (x y : Component) :
  demo_lt x y = false -> x = y \/ demo_lt y x = true.
Proof.
  unfold demo_lt, String.ltb.
  destruct (String.compare x y) eqn:Hxy; try done.
  - intros _. left. by apply String.compare_eq_iff.
  - intros _. right. by rewrite String.compare_antisym, Hxy.
Qed.

Lemma demo_tree_ok : tree_ok demo_lt demo_tree.
Proof.
  split; [apply wfb_sound; vm_compute; reflexivity|]. split.
  - intros n N HN.
    destruct n as [|[|[|n]]]; vm_compute in HN; try discriminate;
      injection HN as <-; simpl; try (intros i j x y _ Hi; by destruct i).
    intros i j x y Hij Hi Hj.
    destruct i as [|[|i]], j as [|[|j]]; try lia; simpl in Hi, Hj; try discriminate.
    injection Hi as <-. injection Hj as <-. reflexivity.
  - intros n N HN.
    destruct n as [|[|[|n]]]; vm_compute in HN; try discriminate;
      injection HN as <-; unfold synced; simpl; try constructor.
Qed.

Lemma demo_call_preserves_tree_ok : preserves (tree_ok demo_lt) demo_call.
Proof.
  intros f ns changed state id st Hok. unfold demo_call.
  destruct f as [|[|[|f]]]; simpl; try done.
  unfold removeCallback. apply tree_ok_update; [by intros [] | done].
Qed.

Lemma getChild_in_order_witness :
  exists r st' t,
    getChild demo_call demo_lt 9 0%nat (IsName ["a"; "x"; "y"]%string) demo_tree
    = Some (r, st', t) /\
    keys_ascending demo_lt (getChildComponents st' 0%nat).
Proof.
  destruct (getChild_keeps_the_tree_in_order demo_call demo_lt demo_lt_trans demo_lt_total
              demo_tree 0%nat (get demo_tree 0%nat) (IsName ["a"; "x"; "y"]%string) 9)
    as (r & st' & t & Hrun & _ & Hext & Hkeys).
  - exact demo_tree_ok.
  - reflexivity.
  - exact demo_call_preserves_tree.
  - exact demo_call_preserves_tree_ok.
  - simpl. lia.
  - exists r, st', t. split; [exact Hrun|].
    apply Hkeys. destruct (Hext 0%nat (get demo_tree 0%nat) eq_refl) as (X & HX & _). eauto.
Defined.

Lemma getChild_component_witness :
  exists child st' t,
    getChild demo_call demo_lt 9 0%nat (IsComponent "b"%string) demo_tree
    = Some (Returns child, st', t) /\
    hasChild st' 0%nat "b"%string = true /\
    _name (get st' child) = ["a"; "b"]%string.
Proof.
  destruct (getChild_component_is_getChild_name demo_call demo_lt demo_tree 0%nat
              (get demo_tree 0%nat) "b"%string 9)
    as (child & st' & t & Hrun & _ & _ & Hhas & Hname & _).
  - apply wfb_sound. vm_compute. reflexivity.
  - reflexivity.
  - exact demo_call_preserves_tree.
  - simpl. lia.
  - exists child, st', t. auto.
Defined.

(** A packet for /a/z arrives at the root /a: the node /a/z is created and
    holds the packet. *)
Lemma onData_witness :
  exists d r st' t,
    onData demo_call demo_transform demo_lt 9 0%nat (mkData ["a"; "z"]%string "Z") demo_tree
    = Some (r, st', t) /\
    _name (get st' d) = ["a"; "z"]%string /\
    _data (get st' d) = Some (mkData ["a"; "z"]%string "Z").
Proof.
  destruct (onData_attaches_the_packet demo_call demo_transform demo_lt demo_lt_trans
              demo_lt_total demo_tree 0%nat (get demo_tree 0%nat)
              (mkData ["a"; "z"]%string "Z") 9) as [_ Hattach].
  - exact demo_tree_ok.
  - reflexivity.
  - exact demo_call_preserves_tree.
  - exact demo_call_preserves_tree_ok.
  - simpl. lia.
  - destruct Hattach as (d & st1 & t1 & r & st' & t2 & Hget & Hrun & Hname & _ & Hnew & _);
      [reflexivity|].
    exists d, r, st', (t1 ++ t2). split; [exact Hrun|]. split; [exact Hname|].
    apply Hnew. vm_compute in Hget. injection Hget as <- <- _. reflexivity.
Defined.

Lemma onInterest_witness :
  exists fuel0 st' t sent,
    forall fuel, (fuel0 <= fuel)%nat ->
      _onInterest demo_call demo_matchesData demo_lt demo_isImplicitSha256Digest fuel
        0%nat (mkInterest ["a"; "sha256digest"]%string) 7%nat demo_tree
      = Some (Returns tt, st', t, sent).
Proof.
  destruct (onInterest_sends_a_matching_packet demo_call demo_matchesData demo_lt
              demo_isImplicitSha256Digest demo_lt_trans demo_lt_total demo_tree 0%nat
              (get demo_tree 0%nat) (mkInterest ["a"; "sha256digest"]%string) 7%nat)
    as [_ Hsend].
  - exact demo_tree_ok.
  - reflexivity.
  - exact demo_call_preserves_tree.
  - exact demo_call_preserves_tree_ok.
  - destruct Hsend as (fuel0 & found & st' & t & sent & Hrun & _); [reflexivity|].
    exists fuel0, st', t, sent. exact Hrun.
Defined.

(** The interest for /a is answered with the packet of /a/b, the longest
    match below the smallest component. *)
Example onInterest_demo :
  _onInterest demo_call demo_matchesData demo_lt demo_isImplicitSha256Digest 9
    0%nat (mkInterest ["a"%string]) 7%nat demo_tree
  = Some (Returns tt, demo_tree, [], [PutData 7%nat (Some (mkData ["a"; "b"]%string "B"))]).
Proof. vm_compute. reflexivity. Qed.
(** With three requests in flight (5, 6 and 7), the completion of 6 is
    counted and the window is refilled. *)
Lemma completion_witness :
  exists fuel0 h' w' ss,
    (forall fuel, (fuel0 <= fuel)%nat ->
       onGeneralizedObject demo_META demo_fromSequenceNumber demo_report_raises fuel 6
         demo_pipelined.1 demo_pipelined.2
       = Some (Returns tt, h', w',
               match _onSequencedGeneralizedObject demo_pipelined.1 with
               | Some f => Report 6 :: (if demo_report_raises f 6 then [LogException] else [])
               | None => []
               end ++ requests demo_META demo_fromSequenceNumber ["stream"%string] ss)) /\
    _maxReportedSequenceNumber h'
    = Z.max (_maxReportedSequenceNumber demo_pipelined.1) 6.
Proof.
  destruct (completion_reports_then_refills demo_META demo_fromSequenceNumber
              demo_toSequenceNumber demo_sequence_number_roundtrip
              ["stream"%string] demo_pipelined.1 demo_pipelined.2 6)
    as (fuel0 & h' & w' & ss & Hrun & _ & Hmax & _).
  - reflexivity.
  - vm_compute. discriminate.
  - exists fuel0, h', w', ss. split; [|exact Hmax].
    intros fuel Hfuel. exact (Hrun demo_report_raises fuel Hfuel).
Defined.

(** The completion of 6 in that scenario requests 8, the first idle sequence
    number above 7. *)
Example completion_demo :
  match onGeneralizedObject demo_META demo_fromSequenceNumber demo_report_raises 9 6
          demo_pipelined.1 demo_pipelined.2 with
  | Some (r, h', _, e) =>
      r = Returns tt /\ _maxReportedSequenceNumber h' = 6 /\
      _nReportedSequenceNumbers h' = 1 /\ outstanding h' = 3 /\
      e = requests demo_META demo_fromSequenceNumber ["stream"%string] [8]
  | None => False
  end.
Proof. vm_compute. repeat split; reflexivity. Qed.

(** The packet of /a/b goes through the hook of the root. *)
Lemma setData_transform_witness :
  exists st' t,
    setData demo_call demo_decrypt 9 1%nat (mkData ["a"; "b"]%string "B") demo_hooked
    = Some (Returns tt, st', EvSetState 1%nat NamespaceState.DATA_RECEIVED :: t) /\
    _data (get st' 1%nat) = Some (mkData ["a"; "b"]%string "B") /\
    state_writes t = [(1%nat, NamespaceState.CONTENT_READY)].
Proof.
  pose proof (setData_runs_the_nearest_transform demo_call demo_decrypt demo_hooked 1%nat
                (get demo_hooked 1%nat) (mkData ["a"; "b"]%string "B") 9) as H.
  cbv zeta in H.
  destruct H as (r & st' & t & Hrun & Hdata & _ & _ & Hbranch).
  - apply wfb_sound. vm_compute. reflexivity.
  - reflexivity.
  - reflexivity.
  - reflexivity.
  - simpl. lia.
  - exact demo_call_preserves_tree.
  - assert (Hhook : nearest_transform 9 demo_hooked 1%nat = Some 0%nat)
      by (vm_compute; reflexivity).
    rewrite Hhook in Hbranch. simpl in Hbranch.
    destruct Hbranch as (-> & Hwrites & _).
    exists st', t. split; [exact Hrun|]. split; [exact Hdata|exact Hwrites].
Defined.

(** In that scenario the content is the one the hook gives, not the content
    of the packet. *)
Example setData_transform_demo :
  match setData demo_call demo_decrypt 9 1%nat (mkData ["a"; "b"]%string "B") demo_hooked with
  | Some (r, st', t) =>
      r = Returns tt /\
      _state (get st' 1%nat) = NamespaceState.CONTENT_READY /\
      _content (get st' 1%nat) = Some "clear"%string /\
      t = [EvSetState 1%nat NamespaceState.DATA_RECEIVED;
           EvSetState 1%nat NamespaceState.CONTENT_READY]
  | None => False
  end.
Proof. vm_compute. repeat split; reflexivity. Qed.

